(** * Mini-Zapier: the workflow execution engine, its variable resolver,
    its action handlers and the routes that start a run

    A shallow embedding of [src/lib/variableSubstitution.ts],
    [src/lib/actionHandlers], [src/lib/workflowEngine.ts] and the two
    routes that call [executeWorkflow], with the properties the
    specification states about them.

    Modelling conventions.
    - Values are JavaScript data: what [JSON.parse] gives, and what the
      program makes of it.  An object is the list of its own enumerable
      properties in enumeration order.  Its prototype is the one of an
      object literal unless an assignment to [__proto__] has replaced
      it; such an object carries its prototype with it ([VProto]).  The
      members every value inherits from the built-in prototypes are
      found by property access like own ones; a built-in object is a
      value of its own kind ([VHost]), known by name.
    - A string is a sequence of code units (Rocq [string]).
    - JavaScript numbers are kept abstract: the resolver and the engine
      only print them, test their truthiness and build them from lengths.
      These operations, the built-in objects and the texts of the errors
      the host itself raises form the interface [Runtime].
    - Code that can raise returns a [completion]; code that also talks to
      the database or to a handler runs in the state-and-exception monad
      [M], whose state survives a [Throw] exactly like the effects of a
      JavaScript [try] block survive its [catch].
    - The state is the database: the tables the engine and the routes
      touch, a clock, the journal of what the services were asked to do,
      and the schedule of the calls on [prisma] the database is going to
      refuse.  A call of the engine consumes the schedule and raises
      when it is refused.  The handlers act on the same state; the calls
      of the database handler on [prisma] and the services behind the
      other handlers are interfaces ([Database], [Services], [Web]). *)

From Stdlib Require Import NArith ZArith Ascii Lia.
From stdpp Require Import base strings list pretty relations.

Local Open Scope string_scope.
Local Open Scope list_scope.

(** ** Completions *)

Inductive exn : Type :=
  | ErrorObject (message : string)   (* [error instanceof Error] *)
  | ThrownValue.                     (* anything else given to [throw] *)

Inductive completion (A : Type) : Type :=
  | Normal (a : A)
  | Throw (e : exn).
Arguments Normal {A} a.
Arguments Throw {A} e.

(* a step of code that can raise, followed by the rest *)
Definition then_ {A B} (c : completion A) (k : A → completion B) : completion B :=
  match c with
  | Normal a => k a
  | Throw e => Throw e
  end.

Notation "'do*' x := c 'in' k" := (then_ c (λ x, k))
  (at level 10, x name, c at level 100, k at level 200,
   format "'[v' 'do*'  x  :=  c  'in' '/' k ']'").

(* the results of a function that can raise on the elements of a list,
   left to right *)
Section traverse.
Context {A B : Type} (f : A → completion B).

Fixpoint traverse (l : list A) : completion (list B) :=
  match l with
  | [] => Normal []
  | a :: l' =>
      match f a with
      | Normal b =>
          match traverse l' with
          | Normal bs => Normal (b :: bs)
          | Throw e => Throw e
          end
      | Throw e => Throw e
      end
  end.

End traverse.

(** ** JavaScript values *)

Section values.
Context {num : Type}.

Local Unset Elimination Schemes.
Inductive value : Type :=
  | VUndefined
  | VNull
  | VBool (b : bool)
  | VNum (n : num)
  | VStr (s : string)
  | VArr (items : list value)
  | VObj (entries : list (string * value))
  (* an object whose prototype is [proto], set through [__proto__] *)
  | VProto (proto : value) (entries : list (string * value))
  (* a built-in object of the host: a function, a prototype *)
  | VHost (name : string).

End values.
Arguments value : clear implicits.

(* induction on values, through the lists of arrays and objects *)

Section value_induction.
Context {num : Type} (P : value num → Prop).
Hypothesis Hundefined : P VUndefined.
Hypothesis Hnull : P VNull.
Hypothesis Hbool : ∀ b, P (VBool b).
Hypothesis Hnum : ∀ n, P (VNum n).
Hypothesis Hstr : ∀ s, P (VStr s).
Hypothesis Harr : ∀ items, Forall P items → P (VArr items).
Hypothesis Hobj : ∀ entries, Forall (λ entry, P entry.2) entries → P (VObj entries).
Hypothesis Hproto : ∀ proto entries,
  P proto → Forall (λ entry, P entry.2) entries → P (VProto proto entries).
Hypothesis Hhost : ∀ name, P (VHost name).

Fixpoint value_ind (v : value num) : P v :=
  let fix all (l : list (string * value num)) : Forall (λ entry, P entry.2) l :=
    match l with
    | [] => Forall_nil_2 _
    | x :: l' => Forall_cons_2 (λ entry, P entry.2) x l' (value_ind x.2) (all l')
    end in
  match v with
  | VUndefined => Hundefined
  | VNull => Hnull
  | VBool b => Hbool b
  | VNum n => Hnum n
  | VStr s => Hstr s
  | VArr items =>
      Harr items
        ((fix all (l : list (value num)) : Forall P l :=
            match l with
            | [] => Forall_nil_2 P
            | x :: l' => Forall_cons_2 P x l' (value_ind x) (all l')
            end) items)
  | VObj entries => Hobj entries (all entries)
  | VProto proto entries => Hproto proto entries (value_ind proto) (all entries)
  | VHost name => Hhost name
  end.

End value_induction.

(** ** The host *)

Class Runtime (num : Type) := {
  (* Number::toString, the number of a length, ToBoolean on numbers *)
  num_to_string : num → string;
  num_of_nat : nat → num;
  num_truthy : num → bool;
  (* message of the TypeError for reading property [key] of null
     ([true]) or undefined ([false]) *)
  read_nullish_message : bool → string → string;
  (* message of the TypeError for destructuring null or undefined *)
  destructure_nullish_message : bool → string;
  (* message of the TypeError for an object without a primitive form *)
  to_primitive_message : string;
  (* messages of Prisma's errors: the row to update does not exist, a
     foreign key points nowhere, the database refuses the call *)
  record_not_found_message : string;
  foreign_key_message : string;
  refusal_message : string;
  (* [v[key]] where [v] is a number, a boolean, a text, an array or a
     built-in object and [key] is neither an index nor the length of
     [v]: the member of the prototype chain of [v] under [key], and
     [VUndefined] for none.  An accessor that raises when it is read
     counts as none: keys that are not fixed are only read by
     [getNestedValue], whose caller treats a raise like an undefined
     value. *)
  inherited : value num → string → value num;
  (* [typeof h === "function"] and [Array.isArray(h)] for a built-in *)
  host_function : string → bool;
  host_array : string → bool;
  (* [String(h)] for a built-in *)
  host_String : string → completion string;
  (* [String(v)] for an object whose [toString] or [valueOf] is a
     function of the host that data do not come with: one held as a
     property, one inherited from an array or a built-in set as its
     prototype *)
  exotic_String : value num → completion string;
}.

Section coercions.
Context `{Runtime num}.
Local Abbreviation value := (value num).

Definition is_undefined (v : value) : bool :=
  match v with VUndefined => true | _ => false end.

(* [v === null || v === undefined] *)
Definition is_nullish (v : value) : bool :=
  match v with VUndefined | VNull => true | _ => false end.

(* ToBoolean *)
Definition truthy (v : value) : bool :=
  match v with
  | VUndefined | VNull => false
  | VBool b => b
  | VNum n => num_truthy n
  | VStr s => negb (String.eqb s "")
  | VArr _ | VObj _ | VProto _ _ | VHost _ => true
  end.

(** *** Objects *)

Definition is_digit (c : ascii) : bool :=
  (48 <=? nat_of_ascii c)%nat && (nat_of_ascii c <=? 57)%nat.

Fixpoint all_digits (s : string) : bool :=
  match s with
  | "" => true
  | String c s' => is_digit c && all_digits s'
  end.

Fixpoint digits_value (acc : N) (s : string) : N :=
  match s with
  | "" => acc
  | String c s' => digits_value (10 * acc + (N_of_ascii c - 48))%N s'
  end.

(* A property key is an array index when it is the canonical decimal
   form of an integer below 2^32 - 1. *)
Definition array_index (key : string) : option N :=
  match key with
  | "" => None
  | String c rest =>
      if all_digits key && (negb (Ascii.eqb c "0") || String.eqb rest "")
      then let n := digits_value 0 key in
           if (n <? 4294967295)%N then Some n else None
      else None
  end.

Fixpoint has_key (key : string) (o : list (string * value)) : bool :=
  match o with
  | [] => false
  | (k, _) :: o' => String.eqb k key || has_key key o'
  end.

(* own property lookup *)
Fixpoint obj_get (key : string) (o : list (string * value)) : option value :=
  match o with
  | [] => None
  | (k, v) :: o' => if String.eqb k key then Some v else obj_get key o'
  end.

Fixpoint obj_replace (key : string) (v : value) (o : list (string * value))
    : list (string * value) :=
  match o with
  | [] => []
  | (k, w) :: o' =>
      if String.eqb k key then (k, v) :: o' else (k, w) :: obj_replace key v o'
  end.

(* a new array-index key goes with the other index keys, in ascending
   numeric order, before every other key *)
Fixpoint obj_insert_index (n : N) (key : string) (v : value)
    (o : list (string * value)) : list (string * value) :=
  match o with
  | [] => [(key, v)]
  | (k, w) :: o' =>
      match array_index k with
      | Some m =>
          if (m <? n)%N then (k, w) :: obj_insert_index n key v o'
          else (key, v) :: o
      | None => (key, v) :: o
      end
  end.

(* the own property [key] of an object becomes [v]: replaced where it
   is, or added in enumeration order *)
Definition obj_set (key : string) (v : value) (o : list (string * value))
    : list (string * value) :=
  if has_key key o then obj_replace key v o
  else match array_index key with
       | Some n => obj_insert_index n key v o
       | None => o ++ [(key, v)]
       end.

(** *** The prototype chain *)

(* the properties of [Object.prototype], which every object literal
   inherits, and the built-in behind each; [__proto__] is the accessor
   that reads the prototype *)
Definition Object_prototype : list (string * string) :=
  [("constructor", "Object");
   ("__defineGetter__", "Object.prototype.__defineGetter__");
   ("__defineSetter__", "Object.prototype.__defineSetter__");
   ("hasOwnProperty", "Object.prototype.hasOwnProperty");
   ("__lookupGetter__", "Object.prototype.__lookupGetter__");
   ("__lookupSetter__", "Object.prototype.__lookupSetter__");
   ("isPrototypeOf", "Object.prototype.isPrototypeOf");
   ("propertyIsEnumerable", "Object.prototype.propertyIsEnumerable");
   ("toString", "Object.prototype.toString");
   ("valueOf", "Object.prototype.valueOf");
   ("__proto__", "Object.prototype");
   ("toLocaleString", "Object.prototype.toLocaleString")].

(* what an object literal inherits under [key] *)
Definition object_member (key : string) : value :=
  match find (λ member, String.eqb (fst member) key) Object_prototype with
  | Some member => VHost (snd member)
  | None => VUndefined
  end.

(* the own property of an array or a text under [key]: an element or a
   character, the length *)
Definition array_own (key : string) (items : list value) : option value :=
  match array_index key with
  | Some n => items !! N.to_nat n
  | None =>
      if String.eqb key "length" then Some (VNum (num_of_nat (length items)))
      else None
  end.

Definition string_own (key : string) (s : string) : option value :=
  match array_index key with
  | Some n =>
      match String.get (N.to_nat n) s with
      | Some c => Some (VStr (String c ""))
      | None => None
      end
  | None =>
      if String.eqb key "length" then Some (VNum (num_of_nat (String.length s)))
      else None
  end.

(* what the data objects of a prototype chain hold under [key], from the
   prototype [proto] upwards *)
Fixpoint chain_get (key : string) (proto : value) : option value :=
  match proto with
  | VObj o => obj_get key o
  | VArr items => array_own key items
  | VProto p o =>
      match obj_get key o with
      | Some v => Some v
      | None => chain_get key p
      end
  | _ => None
  end.

(* the last object of the chain before the built-in prototypes: an
   object literal, an array, a built-in, or [null] for a chain that
   ends without them *)
Fixpoint chain_root (proto : value) : value :=
  match proto with
  | VProto p _ => chain_root p
  | _ => proto
  end.

(* [current[key]] *)
Definition get_property (current : value) (key : string) : completion value :=
  match current with
  | VUndefined => Throw (ErrorObject (read_nullish_message false key))
  | VNull => Throw (ErrorObject (read_nullish_message true key))
  | VObj o =>
      Normal (match obj_get key o with
              | Some v => v
              | None => object_member key
              end)
  | VArr items =>
      match array_own key items with
      | Some v => Normal v
      | None =>
          match array_index key with
          | Some _ => Normal VUndefined
          | None => Normal (inherited current key)
          end
      end
  | VStr s =>
      match string_own key s with
      | Some v => Normal v
      | None =>
          match array_index key with
          | Some _ => Normal VUndefined
          | None => Normal (inherited current key)
          end
      end
  | VBool _ | VNum _ | VHost _ => Normal (inherited current key)
  | VProto p o =>
      match obj_get key o with
      | Some v => Normal v
      | None =>
          match chain_get key p with
          | Some v => Normal v
          | None =>
              match chain_root p with
              | VNull => Normal VUndefined
              | VObj _ =>
                  Normal (if String.eqb key "__proto__" then p
                          else object_member key)
              | root =>
                  Normal (if String.eqb key "__proto__" then p
                          else inherited root key)
              end
          end
      end
  end.

(** *** Conversion to a string *)

Definition join_comma (parts : list string) : string :=
  match parts with
  | [] => ""
  | p :: ps => fold_left (λ acc q, acc +:+ "," +:+ q) ps p
  end.

(* [IsCallable] *)
Definition callable (v : value) : bool :=
  match v with
  | VHost h => host_function h
  | _ => false
  end.

(* what an object holds as data under [key], itself or through the data
   objects of its prototype chain *)
Definition data_member (key : string) (v : value) : option value :=
  match v with
  | VObj o => obj_get key o
  | VProto p o =>
      match obj_get key o with
      | Some x => Some x
      | None => chain_get key p
      end
  | _ => None
  end.

(* the end of the prototype chain of an object *)
Definition object_root (v : value) : value :=
  match v with
  | VProto p _ => chain_root p
  | _ => VObj []
  end.

(* [String(v)] for an object that is no array: [toString] is called
   when it is a function, and [valueOf] when [toString] is none or gives
   no primitive.  [Object.prototype.toString] gives "[object Object]";
   [Object.prototype.valueOf] gives the object back, which is no
   primitive. *)
Definition object_String (v : value) : completion string :=
  let unconvertible := Throw (ErrorObject to_primitive_message) in
  let by_valueOf :=
    match data_member "valueOf" v with
    | Some f => if callable f then exotic_String v else unconvertible
    | None =>
        match object_root v with
        | VObj _ | VArr _ | VNull => unconvertible
        | _ => exotic_String v
        end
    end in
  match data_member "toString" v with
  | Some f => if callable f then exotic_String v else by_valueOf
  | None =>
      match object_root v with
      | VObj _ => Normal "[object Object]"
      | VNull => by_valueOf
      | _ => exotic_String v
      end
  end.

(* [String(v)], also the conversion of [${v}] in a template literal. *)
Fixpoint js_String (v : value) : completion string :=
  match v with
  | VUndefined => Normal "undefined"
  | VNull => Normal "null"
  | VBool true => Normal "true"
  | VBool false => Normal "false"
  | VNum n => Normal (num_to_string n)
  | VStr s => Normal s
  | VArr items =>
      match traverse (λ item, match item with
                              | VUndefined | VNull => Normal ""
                              | _ => js_String item
                              end) items with
      | Normal texts => Normal (join_comma texts)
      | Throw e => Throw e
      end
  | VObj _ | VProto _ _ => object_String v
  | VHost h => host_String h
  end.

End coercions.

(** ** variableSubstitution.ts *)

Section variableSubstitution.
Context `{Runtime num}.
Local Abbreviation value := (value num).

(* the white space and line terminators [String.prototype.trim] strips,
   among the code units below 256 *)
Definition is_space (c : ascii) : bool :=
  let n := nat_of_ascii c in
  ((9 <=? n)%nat && (n <=? 13)%nat) || (n =? 32)%nat || (n =? 160)%nat.

Fixpoint trim_start (s : string) : string :=
  match s with
  | "" => ""
  | String c s' => if is_space c then trim_start s' else s
  end.

Fixpoint trim_end (s : string) : string :=
  match s with
  | "" => ""
  | String c s' =>
      match trim_end s' with
      | "" => if is_space c then "" else String c ""
      | t => String c t
      end
  end.

Definition trim (s : string) : string := trim_end (trim_start s).

(* [path.split('.')] *)
Fixpoint split_dots (s : string) : list string :=
  match s with
  | "" => [""]
  | String c s' =>
      if Ascii.eqb c "." then "" :: split_dots s'
      else match split_dots s' with
           | seg :: segs => String c seg :: segs
           | [] => [String c ""]
           end
  end.

(* [key.match(/^\d+$/)] *)
Definition digits_only (key : string) : bool :=
  negb (String.eqb key "") && all_digits key.

(* [parseInt(key)] on a key of digits only, as an offset into an array.
   The offset is exact; JavaScript rounds it to a double, which differs
   only beyond 2^53, past the end of every array. *)
Definition parseInt (key : string) : nat := N.to_nat (digits_value 0 key).

(* the [for (const key of keys)] loop of [getNestedValue] *)
Fixpoint getNestedValue_from (current : value) (keys : list string)
    : completion value :=
  match keys with
  | [] => Normal current
  | key :: keys' =>
      if is_nullish current then Normal VUndefined
      else if digits_only key then
        match current with
        | VArr items =>
            getNestedValue_from (default VUndefined (items !! parseInt key)) keys'
        | VHost h =>
            if host_array h
            then getNestedValue_from (inherited current (pretty (parseInt key))) keys'
            else Normal VUndefined
        | _ => Normal VUndefined
        end
      else
        match get_property current key with
        | Normal next => getNestedValue_from next keys'
        | Throw e => Throw e
        end
  end.

Definition getNestedValue (obj : value) (path : string) : completion value :=
  getNestedValue_from obj (split_dots path).

(** *** The pattern [/\{\{([^}]+)\}\}/g] *)

(* the longest run of characters other than "}" at the head of [s], and
   what follows it *)
Fixpoint span_path (s : string) : string * string :=
  match s with
  | "" => ("", "")
  | String c s' =>
      if Ascii.eqb c "}" then ("", s)
      else let '(run, rest) := span_path s' in (String c run, rest)
  end.

(* [s] without its prefix [p], when it starts with [p] *)
Fixpoint strip_prefix (p s : string) : option string :=
  match p, s with
  | "", _ => Some s
  | String a p', String b s' => if Ascii.eqb a b then strip_prefix p' s' else None
  | String _ _, "" => None
  end.

(* A match of the pattern at the head of [s]: the captured path and the
   text after the match.  [[^}]+] is greedy and the character after the
   longest run is "}" or the end of the text, so backtracking to a
   shorter run never finds the closing braces and the longest run is the
   only candidate. *)
Definition match_placeholder (s : string) : option (string * string) :=
  match strip_prefix "{{" s with
  | Some s' =>
      let '(path, after) := span_path s' in
      if String.eqb path "" then None
      else match strip_prefix "}}" after with
           | Some rest => Some (path, rest)
           | None => None
           end
  | None => None
  end.

Definition placeholder (path : string) : string := "{{" +:+ path +:+ "}}".

(* [str.replace(pattern, replacer)]: matches are found left to right, the
   search resuming after each match; every iteration consumes a
   character, so [fuel] = the length of [str] reaches the end. *)
Fixpoint replace_from (fuel : nat) (replacer : string → string → string)
    (str : string) : string :=
  match fuel with
  | O => str
  | S fuel' =>
      match match_placeholder str with
      | Some (path, rest) =>
          replacer (placeholder path) path +:+ replace_from fuel' replacer rest
      | None =>
          match str with
          | "" => ""
          | String c str' => String c (replace_from fuel' replacer str')
          end
      end
  end.

Definition replace_placeholders (replacer : string → string → string)
    (str : string) : string :=
  replace_from (String.length str) replacer str.

(* the replacer callback of [substituteInString] *)
Definition resolve_placeholder (context : value) (match_ path : string) : string :=
  match getNestedValue context (trim path) with
  | Normal v =>
      if is_undefined v then match_
      else match js_String v with
           | Normal text => text
           | Throw _ => match_
           end
  | Throw _ => match_
  end.

Definition substituteInString (str : string) (context : value) : string :=
  replace_placeholders (resolve_placeholder context) str.

(* what may become a prototype: an object or [null] *)
Definition is_prototype (v : value) : bool :=
  match v with
  | VNull | VArr _ | VObj _ | VProto _ _ | VHost _ => true
  | _ => false
  end.

(* The object [substituteVariables] builds: its prototype once an
   assignment has replaced it, and its own properties. *)
Definition under_construction : Type := option value * list (string * value).

(* [result[key] = v].  Under the key [__proto__] the assignment meets the
   accessor of [Object.prototype]: an object or [null] becomes the
   prototype of [result], anything else is dropped; only when the chain
   no longer reaches [Object.prototype] is [__proto__] a key like any
   other. *)
Definition assign (key : string) (v : value) (result : under_construction)
    : under_construction :=
  let '(proto, own) := result in
  if String.eqb key "__proto__" && negb (has_key key own)
     && match proto with
        | Some p => match chain_root p with VNull => false | _ => true end
        | None => true
        end
  then if is_prototype v then (Some v, own) else result
  else (proto, obj_set key v own).

Definition constructed (result : under_construction) : value :=
  match result with
  | (Some proto, own) => VProto proto own
  | (None, own) => VObj own
  end.

(* [Object.entries(obj)] visits the own properties in enumeration
   order; a built-in has none that is enumerable. *)
Fixpoint substituteVariables (obj : value) (context : value) : value :=
  let rebuild (entries : list (string * value)) :=
    constructed
      (fold_left
         (λ result entry,
            assign (fst entry) (substituteVariables (snd entry) context) result)
         entries (None, [])) in
  match obj with
  | VStr str => VStr (substituteInString str context)
  | VArr items => VArr (map (λ item, substituteVariables item context) items)
  | VObj entries => rebuild entries
  | VProto _ entries => rebuild entries
  | VHost h =>
      if host_function h then obj
      else if host_array h then VArr []
      else VObj []
  | _ => obj
  end.

End variableSubstitution.

(** ** workflowEngine.ts: the data *)

Section engine_data.
Context {num : Type}.
Local Abbreviation value := (value num).

Record WorkflowContext : Type := {
  workflowId : string;
  userId : string;
  triggerData : value;
  variables : list (string * value);
  stepResults : list (string * value);
}.

Record ActionResult : Type := {
  success : bool;
  data : value;              (* [VUndefined] when the field is absent *)
  error : option string;     (* [None] when the field is absent *)
}.

(* [ActionResult & { executionId }] *)
Record RunResult : Type := {
  result : ActionResult;
  executionId : nat;
}.

(* the workflow handed to [executeWorkflow]: a row of the Workflow table
   whose [configuration] went through the schema of the routes,
   [{ triggers: z.array(z.any()), actions: z.array(z.any()) }]; an absent
   list is [None] *)
Record Configuration : Type := {
  triggers : option (list value);
  actions : option (list value);
}.

Record Workflow : Type := {
  workflow_id : string;
  workflow_userId : string;
  workflow_name : string;
  workflow_configuration : Configuration;
}.

(** *** The tables behind [prisma] *)

(* the columns of a Workflow row the engine does not read, by the key of
   the row *)
Record Listing : Type := {
  listing_isActive : bool;
  listing_triggerType : string;
  listing_executionCount : Z;
  listing_lastExecuted : option nat;
}.

Record User : Type := {
  user_id : string;
  user_subscriptionId : option string;    (* [None] for NULL *)
  user_currentUsage : Z;
}.

Record Execution : Type := {
  execution_workflowId : string;
  execution_status : string;
  execution_startTime : nat;
  execution_endTime : option nat;
  execution_input : value;
  execution_output : value;          (* [VNull] for SQL NULL *)
  execution_error : option string;   (* [None] for SQL NULL *)
}.

Inductive Metadata : Type :=
  | FailureMetadata (workflow_id : string) (execution_id : nat)
      (* [{ workflowId, executionId }] *)
  | ActionMetadata (workflow_id : string) (context : list (string * value)).
      (* [{ workflowId, context }] *)

Record Notification : Type := {
  notification_userId : string;
  notification_type : string;
  notification_message : value;
  notification_metadata : Metadata;
}.

(* The state the program runs against.  The key of an Execution row is
   its position in the table.  [clock] is what the next [new Date()]
   reads; [world] is everything else the handlers act on: the other
   tables, the services.  [refusals] says which of the calls the engine
   will make on [prisma] the database refuses: one entry for each call
   to come, in order, and none for a database that answers them all. *)
Record Store {World : Type} : Type := {
  workflows : list Workflow;
  listings : list (string * Listing);
  users : list User;
  executions : list Execution;
  notifications : list Notification;
  clock : nat;
  world : World;
  refusals : list bool;
}.

Inductive flow : Type :=
  | Continue (context : WorkflowContext)
  | Return (context : WorkflowContext) (r : RunResult).

End engine_data.
Arguments WorkflowContext : clear implicits.
Arguments ActionResult : clear implicits.
Arguments RunResult : clear implicits.
Arguments Configuration : clear implicits.
Arguments Workflow : clear implicits.
Arguments Execution : clear implicits.
Arguments Metadata : clear implicits.
Arguments Notification : clear implicits.
Arguments Store : clear implicits.
Arguments flow : clear implicits.

(* The handlers of the external services.  Each body is one [try] whose
   [catch] returns an [ActionResult], so a call raises only when the
   [catch] itself does.  A handler acts on the services and, through
   [prisma], on the tables. *)
Class Handlers (num World : Type) := {
  executeEmailAction :
    value num → WorkflowContext num → Store num World
    → completion (ActionResult num) * Store num World;
  executeWebhookAction :
    value num → WorkflowContext num → Store num World
    → completion (ActionResult num) * Store num World;
  executeDatabaseAction :
    value num → WorkflowContext num → Store num World
    → completion (ActionResult num) * Store num World;
  executeSMSAction :
    value num → WorkflowContext num → Store num World
    → completion (ActionResult num) * Store num World;
  executeDelayAction :
    value num → WorkflowContext num → Store num World
    → completion (ActionResult num) * Store num World;
}.

(** ** The state-and-exception monad *)

Section monad.
Context {num World : Type}.

Definition M (A : Type) : Type :=
  Store num World → completion A * Store num World.

Definition ret {A} (a : A) : M A := λ st, (Normal a, st).

Definition throw {A} (e : exn) : M A := λ st, (Throw e, st).

Definition bind {A B} (m : M A) (k : A → M B) : M B :=
  λ st, match m st with
        | (Normal a, st') => k a st'
        | (Throw e, st') => (Throw e, st')
        end.

(* [try { body } catch (error) { handler }]: the handler runs in the
   state the body left behind *)
Definition try_catch {A} (body : M A) (handler : exn → M A) : M A :=
  λ st, match body st with
        | (Normal a, st') => (Normal a, st')
        | (Throw e, st') => handler e st'
        end.

Definition lift {A} (c : completion A) : M A := λ st, (c, st).

End monad.

Notation "'let*' x := m 'in' k" := (bind m (λ x, k))
  (at level 10, x name, m at level 100, k at level 200,
   format "'[v' 'let*'  x  :=  m  'in' '/' k ']'").
Notation "m ;; k" := (bind m (λ _, k))
  (at level 100, k at level 200, right associativity).

(** ** The calls on [prisma] *)

Section prisma.
Context `{Runtime num} {World : Type}.
Local Abbreviation value := (value num).
Local Abbreviation Store := (Store num World).
Local Abbreviation M := (@M num World).

Definition with_clock (now : nat) (st : Store) : Store :=
  {| workflows := workflows st; listings := listings st; users := users st;
     executions := executions st; notifications := notifications st;
     clock := now; world := world st; refusals := refusals st |}.

Definition with_executions (table : list (Execution num)) (st : Store) : Store :=
  {| workflows := workflows st; listings := listings st; users := users st;
     executions := table; notifications := notifications st;
     clock := clock st; world := world st; refusals := refusals st |}.

Definition with_notifications (table : list (Notification num)) (st : Store)
    : Store :=
  {| workflows := workflows st; listings := listings st; users := users st;
     executions := executions st; notifications := table;
     clock := clock st; world := world st; refusals := refusals st |}.

Definition with_world (w : World) (st : Store) : Store :=
  {| workflows := workflows st; listings := listings st; users := users st;
     executions := executions st; notifications := notifications st;
     clock := clock st; world := w; refusals := refusals st |}.

Definition with_refusals (schedule : list bool) (st : Store) : Store :=
  {| workflows := workflows st; listings := listings st; users := users st;
     executions := executions st; notifications := notifications st;
     clock := clock st; world := world st; refusals := schedule |}.

(* [new Date()] *)
Definition new_Date : M nat :=
  λ st, (Normal (clock st), with_clock (S (clock st)) st).

(* a call of the engine on [prisma]: the database refuses it, or lets it
   happen *)
Definition attempt {A} (query : M A) : M A :=
  λ st, match refusals st with
        | true :: later =>
            (Throw (ErrorObject refusal_message), with_refusals later st)
        | false :: later => query (with_refusals later st)
        | [] => query st
        end.

Definition find_workflow (key : string) (table : list (Workflow num))
    : option (Workflow num) :=
  find (λ w, String.eqb (workflow_id w) key) table.

(* [prisma.execution.create({ data })], returning the key of the new row;
   the row must reference a row of the Workflow table *)
Definition prisma_execution_create (row : Execution num) : M nat :=
  attempt
    (λ st, match find_workflow (execution_workflowId row) (workflows st) with
           | None => (Throw (ErrorObject foreign_key_message), st)
           | Some _ =>
               (Normal (length (executions st)),
                with_executions (executions st ++ [row]) st)
           end).

(* [prisma.execution.update({ where: { id }, data })] *)
Definition prisma_execution_update (key : nat)
    (change : Execution num → Execution num) : M unit :=
  attempt
    (λ st, match executions st !! key with
           | None => (Throw (ErrorObject record_not_found_message), st)
           | Some row =>
               (Normal (), with_executions (<[key := change row]> (executions st)) st)
           end).

(* [prisma.execution.findUnique({ where: { id }, include: { workflow:
   true } })]: the row, and the workflow it references when the table
   still holds it *)
Definition prisma_execution_findUnique (key : nat)
    : M (option (Execution num * option (Workflow num))) :=
  attempt
    (λ st, (Normal (row ← executions st !! key;
                    Some (row,
                          find_workflow (execution_workflowId row) (workflows st))),
            st)).

(* [prisma.notification.create({ data })] *)
Definition prisma_notification_create (row : Notification num) : M unit :=
  attempt
    (λ st, (Normal (), with_notifications (notifications st ++ [row]) st)).

(* a call of a service handler, which has no hand in what the database
   will answer the engine *)
Definition call (handler : Store → completion (ActionResult num) * Store)
    : M (ActionResult num) :=
  λ st, let '(r, st') := handler st in
        (r, with_refusals (refusals st) st').

End prisma.

(** ** actionHandlers: the dispatcher *)

Section actionHandlers.
Context `{Runtime num} `{Handlers num World}.
Local Abbreviation value := (value num).
Local Abbreviation M := (@M num World).

(* [error instanceof Error ? error.message : fallback] *)
Definition error_message (e : exn) (fallback : string) : string :=
  match e with
  | ErrorObject message => message
  | ThrownValue => fallback
  end.

(* [v === s] for a string literal [s] *)
Definition is_string (v : value) (s : string) : bool :=
  match v with
  | VStr t => String.eqb t s
  | _ => false
  end.

Definition executeNotificationAction (config : value)
    (context : WorkflowContext num) : M (ActionResult num) :=
  try_catch
    (let* message := lift (get_property config "message") in
     prisma_notification_create
       {| notification_userId := userId context;
          notification_type := "workflow_success";
          notification_message :=
            if truthy message then message
            else VStr "Workflow completed successfully";
          notification_metadata :=
            ActionMetadata (workflowId context) (stepResults context) |};;
     ret {| success := true;
            data := VObj [("message", VStr "Notification sent")];
            error := None |})
    (λ e, ret {| success := false;
                 data := VUndefined;
                 error := Some ("Notification action failed: "
                                +:+ error_message e "Unknown error") |}).

(* [const { type, config } = action] raises on null and undefined *)
Definition destructure_action (action : value) : completion (value * value) :=
  match action with
  | VUndefined => Throw (ErrorObject (destructure_nullish_message false))
  | VNull => Throw (ErrorObject (destructure_nullish_message true))
  | _ =>
      do* type := get_property action "type" in
      do* config := get_property action "config" in
      Normal (type, config)
  end.

Definition executeAction (action : value) (context : WorkflowContext num)
    : M (ActionResult num) :=
  let* tc := lift (destructure_action action) in
  let type := fst tc in
  let config := snd tc in
  if is_string type "email" then call (executeEmailAction config context)
  else if is_string type "webhook" then call (executeWebhookAction config context)
  else if is_string type "database" then call (executeDatabaseAction config context)
  else if is_string type "sms" then call (executeSMSAction config context)
  else if is_string type "notification" then executeNotificationAction config context
  else if is_string type "delay" then call (executeDelayAction config context)
  else
    let* name := lift (js_String type) in
    ret {| success := false;
           data := VUndefined;
           error := Some ("Unknown action type: " +:+ name) |}.

End actionHandlers.

(** ** workflowEngine.ts *)

Section workflowEngine.
Context `{Runtime num} `{Handlers num World}.
Local Abbreviation value := (value num).
Local Abbreviation M := (@M num World).

Definition dquote : string := String "034"%char "".

(* [${error}] for a missing error text *)
Definition show_error (e : option string) (missing : string) : string :=
  match e with
  | Some text => text
  | None => missing
  end.

(* the [WorkflowContext] object, as [substituteVariables] receives it *)
Definition context_value (context : WorkflowContext num) : value :=
  VObj [("workflowId", VStr (workflowId context));
        ("userId", VStr (userId context));
        ("triggerData", triggerData context);
        ("variables", VObj (variables context));
        ("stepResults", VObj (stepResults context))].

Definition validateTrigger (trigger : value) (context : WorkflowContext num)
    : completion (ActionResult num) :=
  do* type := get_property trigger "type" in
  let valid := {| success := true; data := triggerData context; error := None |} in
  if is_string type "webhook" then Normal valid
  else if is_string type "manual" then Normal valid
  else if is_string type "email" then Normal valid
  else if is_string type "schedule" then Normal valid
  else
    do* name := js_String type in
    Normal {| success := false;
              data := VUndefined;
              error := Some ("Unknown trigger type: " +:+ name) |}.

(* the row after [update({ data: { status, endTime, error, output } })] *)
Definition terminal (status : string) (now : nat) (error : option string)
    (output : value) (row : Execution num) : Execution num :=
  {| execution_workflowId := execution_workflowId row;
     execution_status := status;
     execution_startTime := execution_startTime row;
     execution_endTime := Some now;
     execution_input := execution_input row;
     execution_output := output;
     execution_error := error |}.

(* the notification of a failed run; a missing error text prints as
   "null" *)
Definition failure_notification (w : Workflow num) (execution_id : nat)
    (error : option string) : Notification num :=
  {| notification_userId := workflow_userId w;
     notification_type := "workflow_error";
     notification_message :=
       VStr ("Workflow " +:+ dquote +:+ workflow_name w +:+ dquote
             +:+ " failed: " +:+ show_error error "null");
     notification_metadata := FailureMetadata (workflow_id w) execution_id |}.

(* The parameters [error] and [output] default to [null]: an absent text
   and an undefined output are stored as NULL.  [execution.workflow] is
   [null] for a row whose workflow is gone, and reading [userId] of it
   raises. *)
Definition updateExecutionStatus (execution_id : nat) (status : string)
    (error : option string) (output : value) : M unit :=
  let output := if is_undefined output then VNull else output in
  let* now := new_Date in
  prisma_execution_update execution_id (terminal status now error output);;
  if String.eqb status "failed" then
    let* execution := prisma_execution_findUnique execution_id in
    match execution with
    | Some (_, Some w) =>
        prisma_notification_create (failure_notification w execution_id error)
    | Some (_, None) => throw (ErrorObject (read_nullish_message true "userId"))
    | None => ret ()
    end
  else ret ().

Definition failure (execution_id : nat) (error : option string) : RunResult num :=
  {| result := {| success := false; data := VUndefined; error := error |};
     executionId := execution_id |}.

Definition set_stepResult (key : string) (v : value)
    (context : WorkflowContext num) : WorkflowContext num :=
  {| workflowId := workflowId context; userId := userId context;
     triggerData := triggerData context; variables := variables context;
     stepResults := obj_set key v (stepResults context) |}.

Definition set_variable (key : string) (v : value)
    (context : WorkflowContext num) : WorkflowContext num :=
  {| workflowId := workflowId context; userId := userId context;
     triggerData := triggerData context;
     variables := obj_set key v (variables context);
     stepResults := stepResults context |}.

(* [for (const trigger of configuration.triggers)] *)
Fixpoint run_triggers (execution_id : nat) (triggers : list value)
    (context : WorkflowContext num) : M (flow num) :=
  match triggers with
  | [] => ret (Continue context)
  | trigger :: rest =>
      let* triggerResult := lift (validateTrigger trigger context) in
      if negb (success triggerResult) then
        updateExecutionStatus execution_id "failed" (error triggerResult) VUndefined;;
        ret (Return context (failure execution_id (error triggerResult)))
      else
        let* type := lift (get_property trigger "type") in
        let* name := lift (js_String type) in
        run_triggers execution_id rest
          (set_stepResult ("trigger_" +:+ name) (data triggerResult) context)
  end.

(* [`action_${i}`] and [`action_${i}_result`] *)
Definition action_key (i : nat) : string := "action_" +:+ pretty i.
Definition result_key (i : nat) : string := "action_" +:+ pretty i +:+ "_result".

(* the body of [for (let i = 0; i < configuration.actions.length; i++)] *)
Definition run_action (execution_id : nat) (i : nat) (action : value)
    (context : WorkflowContext num) : M (flow num) :=
  try_catch
    (let processedAction := substituteVariables action (context_value context) in
     let* actionResult := executeAction processedAction context in
     if negb (success actionResult) then
       updateExecutionStatus execution_id "failed" (error actionResult) VUndefined;;
       ret (Return context
              (failure execution_id
                 (Some ("Action " +:+ pretty (i + 1) +:+ " failed: "
                        +:+ show_error (error actionResult) "undefined"))))
     else
       ret (Continue
              (set_variable (result_key i) (data actionResult)
                 (set_stepResult (action_key i) (data actionResult) context))))
    (λ e,
       let errorMessage :=
         "Action " +:+ pretty (i + 1) +:+ " error: " +:+ error_message e "Unknown error" in
       updateExecutionStatus execution_id "failed" (Some errorMessage) VUndefined;;
       ret (Return context (failure execution_id (Some errorMessage)))).

Fixpoint run_actions (execution_id : nat) (i : nat) (actions : list value)
    (context : WorkflowContext num) : M (flow num) :=
  match actions with
  | [] => ret (Continue context)
  | action :: rest =>
      let* step := run_action execution_id i action context in
      match step with
      | Continue context' => run_actions execution_id (S i) rest context'
      | Return context' r => ret (Return context' r)
      end
  end.

(* [if (configuration.triggers && configuration.triggers.length > 0)] *)
Definition trigger_phase (configuration : Configuration num) (execution_id : nat)
    (context : WorkflowContext num) : M (flow num) :=
  match triggers configuration with
  | Some (trigger :: rest) => run_triggers execution_id (trigger :: rest) context
  | _ => ret (Continue context)
  end.

(* [if (configuration.actions && configuration.actions.length > 0)] *)
Definition action_phase (configuration : Configuration num) (execution_id : nat)
    (context : WorkflowContext num) : M (flow num) :=
  match actions configuration with
  | Some (action :: rest) => run_actions execution_id 0 (action :: rest) context
  | _ => ret (Continue context)
  end.

(* the context a run starts from *)
Definition seed (workflow : Workflow num) (triggerData : value)
    : WorkflowContext num :=
  {| workflowId := workflow_id workflow;
     userId := workflow_userId workflow;
     triggerData := triggerData;
     variables := [("trigger", triggerData)];
     stepResults := [] |}.

(* what [executeWorkflow] returns when every step went through *)
Definition completed (execution_id : nat) (context : WorkflowContext num)
    : RunResult num :=
  {| result := {| success := true;
                  data := VObj (stepResults context);
                  error := None |};
     executionId := execution_id |}.

(* The [try] block of [executeWorkflow]; next to the value it returns,
   the context as the block leaves it. *)
Definition run_workflow (workflow : Workflow num) (triggerData : value)
    (execution_id : nat) : M (WorkflowContext num * RunResult num) :=
  let context := seed workflow triggerData in
  let configuration := workflow_configuration workflow in
  let* after_triggers := trigger_phase configuration execution_id context in
  match after_triggers with
  | Return context r => ret (context, r)
  | Continue context =>
      let* after_actions := action_phase configuration execution_id context in
      match after_actions with
      | Return context r => ret (context, r)
      | Continue context =>
          updateExecutionStatus execution_id "completed" None
            (VObj (stepResults context));;
          ret (context, completed execution_id context)
      end
  end.

(* [triggerData: any = {}] *)
Definition input (triggerData : value) : value :=
  if is_undefined triggerData then VObj [] else triggerData.

(* the row [executeWorkflow] creates *)
Definition created (workflow : Workflow num) (triggerData : value) (now : nat)
    : Execution num :=
  {| execution_workflowId := workflow_id workflow;
     execution_status := "running";
     execution_startTime := now;
     execution_endTime := None;
     execution_input := triggerData;
     execution_output := VNull;
     execution_error := None |}.

Definition executeWorkflow (workflow : Workflow num) (triggerData : value)
    : M (RunResult num) :=
  let triggerData := input triggerData in
  let* now := new_Date in
  let* execution_id := prisma_execution_create (created workflow triggerData now) in
  try_catch
    (let* r := run_workflow workflow triggerData execution_id in ret (snd r))
    (λ e,
       let errorMessage := error_message e "Unknown workflow error" in
       updateExecutionStatus execution_id "failed" (Some errorMessage) VUndefined;;
       ret (failure execution_id (Some errorMessage))).

End workflowEngine.

(** ** variableSubstitution.ts: the transformation functions

    [variableFunctions] without [formatDate], [upper] and [lower], which
    rest on the date and case tables of the host. *)

Module variableFunctions.
Section variableFunctions.
Context `{Runtime num}.
Local Abbreviation value := (value num).

(* the text [Array.prototype.join] gives an element *)
Definition element_text (item : value) : completion string :=
  match item with
  | VUndefined | VNull => Normal ""
  | _ => js_String item
  end.

(* [parts.join(separator)] on texts *)
Definition join_texts (separator : string) (parts : list string) : string :=
  match parts with
  | [] => ""
  | p :: ps => fold_left (λ acc q, acc +:+ separator +:+ q) ps p
  end.

(* [join: (array, separator = ', ')]; [None] is an omitted separator *)
Definition join (array : value) (separator : option string) : completion string :=
  let separator := default ", " separator in
  match array with
  | VArr items =>
      do* texts := traverse element_text items in
      Normal (join_texts separator texts)
  | _ => js_String (if truthy array then array else VStr "")
  end.

Definition first (array : value) : value :=
  match array with
  | VArr (item :: _) => item
  | _ => array
  end.

(* [array[array.length - 1]] *)
Definition last (array : value) : value :=
  match array with
  | VArr (item :: items) =>
      default VUndefined ((item :: items) !! (length (item :: items) - 1)%nat)
  | _ => array
  end.

Definition count (array : value) : num :=
  match array with
  | VArr items => num_of_nat (length items)
  | _ => num_of_nat 0
  end.

(* [value !== undefined && value !== null && value !== ''] *)
Definition is_given (v : value) : bool :=
  negb (is_undefined v) && negb (is_nullish v) && negb (is_string v "").

Definition default (v defaultValue : value) : value :=
  if is_given v then v else defaultValue.

End variableFunctions.
End variableFunctions.

(** ** actionHandlers: the mail, text message and delay handlers

    What a handler reaches outside the process is left open: the
    Integration table, the cipher, the transport of nodemailer, the mock
    of the Twilio service, the timer. *)

Class Services (num World Transporter : Type) := {
  (* the text of the TypeError of [const { key, ... } = source] on null
     ([true]) and undefined, for the first key of the pattern *)
  destructure_message : bool → string → string → string;
  (* the text of the TypeError of a call [callee(...)] of something that
     is no function *)
  not_a_function_message : string → string;
  (* [prisma.integration.findFirst({ where: { userId, service, isActive:
     true } })]: the [credentials] of the row found *)
  integration_findFirst : string → string → World → completion (option (value num));
  (* [JSON.parse] of the text [CryptoJS.AES.decrypt] gives for a stored
     value, [None] when either raises *)
  decrypt : value num → option (value num);
  (* [nodemailer.createTransport(options)] *)
  createTransport : value num → completion Transporter;
  (* [transporter.sendMail(mailOptions)] *)
  sendMail : Transporter → value num → World → completion (value num) * World;
  (* what [Date.now()] and [Math.random()] add to the identifier of the
     mock message of Twilio, its date, and the world once its delay is
     over *)
  mock_message : World → (string * string) * World;
  (* [parseInt(s)] for a text *)
  parseInt_text : string → num;
  (* the world once [setTimeout(resolve, ms)] has fired *)
  sleep : num → World → World;
  (* [v.includes("<")] and [v.toUpperCase()] where [v] is neither a text
     nor an array and what it holds or inherits under the name is a
     function of the host *)
  exotic_includes : value num → completion bool;
  exotic_toUpperCase : value num → completion string;
}.

Module actionHandlers.
Section handlers.
Context `{Runtime num} `{Services num World Transporter}.
Local Abbreviation value := (value num).

Definition failing (text : string) : ActionResult num :=
  {| success := false; data := VUndefined; error := Some text |}.

(* [const { key, ... } = v] raises on null and undefined *)
Definition destructure (source : string) (v : value) (key : string)
    : completion unit :=
  match v with
  | VUndefined => Throw (ErrorObject (destructure_message false key source))
  | VNull => Throw (ErrorObject (destructure_message true key source))
  | _ => Normal ()
  end.

(** *** encryption.ts *)

Definition decryptCredentials (encryptedData : value) : completion value :=
  match decrypt encryptedData with
  | Some credentials => Normal credentials
  | None => Throw (ErrorObject "Failed to decrypt credentials")
  end.

(** *** smsHandler.ts *)

(* the [try] block of [executeTwilioSMS] after the integration is found,
   up to the mock: the result it returns, or the recipient and the
   sender *)
Definition twilio_message (stored config : value)
    : completion (ActionResult num + value * value) :=
  do* credentials := decryptCredentials stored in
  do* _ := destructure "credentials" credentials "accountSid" in
  do* accountSid := get_property credentials "accountSid" in
  do* authToken := get_property credentials "authToken" in
  do* phoneNumber := get_property credentials "phoneNumber" in
  if negb (truthy accountSid) || negb (truthy authToken)
     || negb (truthy phoneNumber)
  then Normal (inl (failing "Invalid Twilio credentials"))
  else
    do* _ := destructure "config" config "to" in
    do* to := get_property config "to" in
    do* message := get_property config "message" in
    do* from := get_property config "from" in
    Normal (inr (to, if is_undefined from then phoneNumber else from)).

Definition executeTwilioSMS (config : value) (context : WorkflowContext num)
    (w : World) : ActionResult num * World :=
  let caught (e : exn) :=
    failing ("Twilio SMS failed: " +:+ error_message e "Unknown error") in
  match integration_findFirst (userId context) "twilio" w with
  | Throw e => (caught e, w)
  | Normal None => (failing "Twilio integration not found", w)
  | Normal (Some stored) =>
      match twilio_message stored config with
      | Throw e => (caught e, w)
      | Normal (inl r) => (r, w)
      | Normal (inr (to, from)) =>
          let '((stamp, dateCreated), w') := mock_message w in
          ({| success := true;
              data := VObj [("provider", VStr "twilio");
                            ("messageId", VStr ("SM" +:+ stamp));
                            ("to", to);
                            ("from", from);
                            ("status", VStr "sent");
                            ("dateSent", VStr dateCreated)];
              error := None |},
           w')
      end
  end.

(* the [try] block of [executeSMSAction] up to the call of the provider:
   the result it returns, or nothing yet *)
Definition sms_provider (config : value) : completion (option (ActionResult num)) :=
  do* _ := destructure "config" config "provider" in
  do* provider := get_property config "provider" in
  do* to := get_property config "to" in
  do* message := get_property config "message" in
  do* from := get_property config "from" in
  if negb (truthy provider) || negb (truthy to) || negb (truthy message)
  then Normal (Some (failing "Missing required SMS configuration: provider, to, message"))
  else if is_string provider "twilio" then Normal None
  else
    do* name := js_String provider in
    Normal (Some (failing ("Unsupported SMS provider: " +:+ name))).

Definition executeSMSAction (config : value) (context : WorkflowContext num)
    (w : World) : ActionResult num * World :=
  match sms_provider config with
  | Throw e =>
      (failing ("SMS action failed: " +:+ error_message e "Unknown error"), w)
  | Normal (Some r) => (r, w)
  | Normal None => executeTwilioSMS config context w
  end.

(** *** emailHandler.ts *)

(* a [catch] that logs and returns [null] *)
Definition or_null {A} (c : completion A) : option A :=
  match c with
  | Normal a => Some a
  | Throw _ => None
  end.

Definition createGmailTransporter (userId : string) (w : World)
    : option Transporter :=
  match integration_findFirst userId "gmail" w with
  | Normal (Some stored) =>
      or_null
        (do* credentials := decryptCredentials stored in
         do* app_password := get_property credentials "app_password" in
         if truthy app_password then
           do* email := get_property credentials "email" in
           do* app_password := get_property credentials "app_password" in
           createTransport
             (VObj [("service", VStr "gmail");
                    ("auth", VObj [("user", email); ("pass", app_password)])])
         else Throw (ErrorObject "Invalid Gmail credentials"))
  | _ => None
  end.

Definition createSendGridTransporter (userId : string) (w : World)
    : option Transporter :=
  match integration_findFirst userId "sendgrid" w with
  | Normal (Some stored) =>
      or_null
        (do* credentials := decryptCredentials stored in
         do* api_key := get_property credentials "api_key" in
         if truthy api_key then
           do* api_key := get_property credentials "api_key" in
           createTransport
             (VObj [("host", VStr "smtp.sendgrid.net");
                    ("port", VNum (num_of_nat 587));
                    ("secure", VBool false);
                    ("auth", VObj [("user", VStr "apikey"); ("pass", api_key)])])
         else Throw (ErrorObject "SendGrid API key not found"))
  | _ => None
  end.

Definition createSMTPTransporter (config : value) : option Transporter :=
  or_null
    (do* _ := destructure "config" config "host" in
     do* host := get_property config "host" in
     do* port := get_property config "port" in
     do* secure := get_property config "secure" in
     do* username := get_property config "username" in
     do* password := get_property config "password" in
     if negb (truthy host) || negb (truthy username) || negb (truthy password)
     then Throw (ErrorObject "Missing SMTP configuration")
     else createTransport
            (VObj [("host", host);
                   ("port", if truthy port then port else VNum (num_of_nat 587));
                   ("secure", if truthy secure then secure else VBool false);
                   ("auth", VObj [("user", username); ("pass", password)])])).

Fixpoint contains (c : ascii) (s : string) : bool :=
  match s with
  | "" => false
  | String c' s' => Ascii.eqb c' c || contains c s'
  end.

(* [body.includes("<")] for a body that is not falsy: a search in a text,
   a membership test in an array; anything else has no such method,
   unless the host gives it one *)
Definition includes_markup (body : value) : completion bool :=
  match body with
  | VStr s => Normal (contains "<" s)
  | VArr items => Normal (existsb (λ item, is_string item "<") items)
  | _ =>
      do* method := get_property body "includes" in
      if callable method then exotic_includes body
      else Throw (ErrorObject (not_a_function_message "body.includes"))
  end.

(* what the [switch] on the provider leaves: a transporter, or [null],
   and the sender; or the result it returns *)
Definition choose_transporter (config provider from : value)
    (context : WorkflowContext num) (w : World)
    : completion ((option Transporter * value) + ActionResult num) :=
  let fromAddress := if truthy from then from else VStr "noreply@minizapier.com" in
  if is_string provider "gmail"
  then Normal (inl (createGmailTransporter (userId context) w, fromAddress))
  else if is_string provider "sendgrid"
  then Normal (inl (createSendGridTransporter (userId context) w, fromAddress))
  else if is_string provider "smtp"
  then let transporter := createSMTPTransporter config in
       if truthy from then Normal (inl (transporter, from))
       else Normal (inr (failing "From address is required for SMTP provider"))
  else
    do* name := js_String provider in
    Normal (inr (failing ("Unsupported email provider: " +:+ name))).

Definition mailOptions (fromAddress to subject body : value) : completion value :=
  do* recipients :=
    match to with
    | VArr items =>
        do* texts := traverse variableFunctions.element_text items in
        Normal (VStr (variableFunctions.join_texts ", " texts))
    | _ => Normal to
    end in
  do* markup := includes_markup body in
  do* html :=
    if markup then Normal body
    else do* text := js_String body in Normal (VStr ("<p>" +:+ text +:+ "</p>")) in
  Normal (VObj [("from", fromAddress);
                ("to", recipients);
                ("subject", subject);
                ("text", body);
                ("html", html)]).

(* the [try] block of [executeEmailAction] up to the call of
   [sendMail]: the result it returns, or the transporter, the options of
   the mail and what the result will quote *)
Definition prepare_mail (config : value) (context : WorkflowContext num) (w : World)
    : completion (ActionResult num + Transporter * value * list (string * value)) :=
  do* _ := destructure "config" config "provider" in
  do* provider := get_property config "provider" in
  do* to := get_property config "to" in
  do* subject := get_property config "subject" in
  do* body := get_property config "body" in
  do* from := get_property config "from" in
  if negb (truthy provider) || negb (truthy to) || negb (truthy subject)
     || negb (truthy body)
  then Normal (inl (failing "Missing required email configuration: provider, to, subject, body"))
  else
    do* chosen := choose_transporter config provider from context w in
    match chosen with
    | inr r => Normal (inl r)
    | inl (None, _) =>
        do* name := js_String provider in
        Normal (inl (failing ("Failed to create email transporter for provider: "
                              +:+ name)))
    | inl (Some transporter, fromAddress) =>
        do* options := mailOptions fromAddress to subject body in
        Normal (inr (transporter, options,
                     [("provider", provider); ("to", to); ("subject", subject)]))
    end.

Definition executeEmailAction (config : value) (context : WorkflowContext num)
    (w : World) : ActionResult num * World :=
  let caught (e : exn) :=
    failing ("Email action failed: " +:+ error_message e "Unknown error") in
  match prepare_mail config context w with
  | Throw e => (caught e, w)
  | Normal (inl r) => (r, w)
  | Normal (inr (transporter, options, quoted)) =>
      match sendMail transporter options w with
      | (Throw e, w') => (caught e, w')
      | (Normal result, w') =>
          match get_property result "messageId" with
          | Throw e => (caught e, w')
          | Normal messageId =>
              ({| success := true;
                  data := VObj (("messageId", messageId) :: quoted);
                  error := None |},
               w')
          end
      end
  end.

(** *** index.ts: the delay *)

(* [parseInt(v)]: the argument is converted to a text first *)
Definition parseInt_value (v : value) : completion num :=
  do* text := js_String v in
  Normal (parseInt_text text).

Definition executeDelayAction (config : value) (context : WorkflowContext num)
    (w : World) : ActionResult num * World :=
  match (do* duration := get_property config "duration" in
         if truthy duration then parseInt_value duration
         else Normal (num_of_nat 1000)) with
  | Throw e =>
      (failing ("Delay action failed: " +:+ error_message e "Unknown error"), w)
  | Normal delayMs =>
      ({| success := true;
          data := VObj [("message",
                         VStr ("Delayed for " +:+ num_to_string delayMs +:+ "ms"))];
          error := None |},
       sleep delayMs w)
  end.

End handlers.
End actionHandlers.

(** ** webhookHandler.ts

    The handler up to its call of [fetch]; the exchange itself, from the
    call to the body of the response read, is left open. *)

(* the request [fetch] is called with *)
Record Request {num : Type} : Type := {
  request_url : value num;
  request_method : string;
  request_headers : list (string * value num);
  request_body : value num;       (* [undefined] for no body *)
  request_timeout : value num;    (* the argument of [AbortSignal.timeout] *)
}.
Arguments Request : clear implicits.

(* how the exchange ends: with a response whose body is read, with an
   Error named AbortError, or with something else raised *)
Inductive Exchange {num : Type} : Type :=
  | Answered (ok : bool) (status statusText headers responseData : value num)
  | Aborted
  | Rejected (e : exn).
Arguments Exchange : clear implicits.

Class Web (num World : Type) := {
  (* [s.toUpperCase()] *)
  toUpperCase : string → string;
  (* [JSON.stringify(v)] *)
  JSON_stringify : value num → completion (value num);
  (* [Buffer.from(s).toString("base64")] *)
  base64 : string → string;
  (* [AbortSignal.timeout(v)] raises on what is no time in range *)
  AbortSignal_timeout : value num → completion unit;
  exchange : Request num → World → Exchange num * World;
}.

Module webhookHandler.
Section webhookHandler.
Context `{Runtime num} `{Services num World Transporter} `{Web num World}.
Local Abbreviation value := (value num).
Import actionHandlers.

(* [delete o[key]] *)
Definition obj_delete (key : string) (o : list (string * value))
    : list (string * value) :=
  List.filter (λ entry, negb (String.eqb (fst entry) key)) o.

(* the own enumerable properties [Object.assign] and [{ ...v }] copy *)
Fixpoint characters (s : string) : list value :=
  match s with
  | "" => []
  | String c s' => VStr (String c "") :: characters s'
  end.

Definition own_entries (v : value) : list (string * value) :=
  match v with
  | VObj entries | VProto _ entries => entries
  | VArr items => imap (λ i item, (pretty i, item)) items
  | VStr s => imap (λ i c, (pretty i, c)) (characters s)
  | _ => []
  end.

(* [v && typeof v === "object"] *)
Definition is_object_value (v : value) : bool :=
  match v with
  | VObj _ | VArr _ | VProto _ _ => true
  | VHost h => negb (host_function h)
  | _ => false
  end.

(* a parameter of a destructuring pattern with a default *)
Definition or_default (v otherwise : value) : value :=
  if is_undefined v then otherwise else v.

(* the default headers, then the custom ones: [Object.assign] assigns
   them one by one, and what it assigns to [__proto__] is no header *)
Definition custom_headers (headers : value) : list (string * value) :=
  let requestHeaders :=
    [("Content-Type", VStr "application/json");
     ("User-Agent", VStr "Mini-Zapier/1.0")] in
  if is_object_value headers
  then fold_left
         (λ o entry,
            if String.eqb (fst entry) "__proto__" then o
            else obj_set (fst entry) (snd entry) o)
         (own_entries headers) requestHeaders
  else requestHeaders.

Definition authenticate (config auth_type auth_token : value)
    (requestHeaders : list (string * value))
    : completion (list (string * value)) :=
  if truthy auth_type && truthy auth_token then
    if is_string auth_type "bearer"
    then do* token := js_String auth_token in
         Normal (obj_set "Authorization" (VStr ("Bearer " +:+ token)) requestHeaders)
    else if is_string auth_type "api_key"
    then Normal (obj_set "X-API-Key" auth_token requestHeaders)
    else if is_string auth_type "basic"
    then do* auth_username := get_property config "auth_username" in
         if truthy auth_username then
           do* auth_password := get_property config "auth_password" in
           if truthy auth_password then
             do* auth_username := get_property config "auth_username" in
             do* username := js_String auth_username in
             do* auth_password := get_property config "auth_password" in
             do* password := js_String auth_password in
             Normal (obj_set "Authorization"
                       (VStr ("Basic " +:+ base64 (username +:+ ":" +:+ password)))
                       requestHeaders)
           else Normal requestHeaders
         else Normal requestHeaders
    else Normal requestHeaders
  else Normal requestHeaders.

(* [method.toUpperCase()] *)
Definition upper (method : value) : completion string :=
  match method with
  | VStr s => Normal (toUpperCase s)
  | _ =>
      do* f := get_property method "toUpperCase" in
      if callable f then exotic_toUpperCase method
      else Throw (ErrorObject (not_a_function_message "method.toUpperCase"))
  end.

(* [body.startsWith("{")] *)
Definition starts_with_brace (s : string) : bool :=
  match s with
  | String c _ => Ascii.eqb c "{"
  | "" => false
  end.

(* the body of the request and the headers once the body is prepared *)
Definition prepare_body (body method : value)
    (requestHeaders : list (string * value))
    : completion (value * list (string * value)) :=
  if truthy body then
    do* name := upper method in
    if negb (String.eqb name "GET") && negb (String.eqb name "HEAD") then
      match body with
      | VStr s =>
          Normal (body,
                  if starts_with_brace s then requestHeaders
                  else obj_set "Content-Type" (VStr "text/plain")
                         (obj_delete "Content-Type" requestHeaders))
      | _ =>
          do* requestBody := JSON_stringify body in
          Normal (requestBody, requestHeaders)
      end
    else Normal (VUndefined, requestHeaders)
  else Normal (VUndefined, requestHeaders).

(* The [try] block up to the call of [fetch]: the result it returns, or
   what [fetch] is called with. *)
Definition prepare_request (config : value)
    : completion (ActionResult num + Request num) :=
  do* _ := destructure "config" config "url" in
  do* url := get_property config "url" in
  do* method := get_property config "method" in
  do* headers := get_property config "headers" in
  do* body := get_property config "body" in
  do* auth_type := get_property config "auth_type" in
  do* auth_token := get_property config "auth_token" in
  do* timeout := get_property config "timeout" in
  let method := or_default method (VStr "POST") in
  let headers := or_default headers (VObj []) in
  let timeout := or_default timeout (VNum (num_of_nat (30 * 1000))) in
  if negb (truthy url) then Normal (inl (failing "Webhook URL is required"))
  else
    do* requestHeaders :=
      authenticate config auth_type auth_token (custom_headers headers) in
    do* prepared := prepare_body body method requestHeaders in
    do* name := upper method in
    do* _ := AbortSignal_timeout timeout in
    Normal (inr {| request_url := url;
                   request_method := name;
                   request_headers := snd prepared;
                   request_body := fst prepared;
                   request_timeout := timeout |}).

(* The [catch] block prints [config.timeout || 30000] for an exchange
   that was aborted, which can raise in its turn. *)
Definition executeWebhookAction (config : value) (context : WorkflowContext num)
    (w : World) : completion (ActionResult num) * World :=
  let caught (e : exn) :=
    failing ("Webhook action failed: " +:+ error_message e "Unknown error") in
  match prepare_request config with
  | Throw e => (Normal (caught e), w)
  | Normal (inl r) => (Normal r, w)
  | Normal (inr request) =>
      match exchange request w with
      | (Answered ok status statusText headers responseData, w') =>
          if negb ok
          then (match (do* code := js_String status in
                       do* text := js_String statusText in
                       Normal (code, text)) with
                | Normal (code, text) =>
                    Normal {| success := false;
                              data := VObj [("status", status);
                                            ("statusText", statusText);
                                            ("response", responseData)];
                              error := Some ("Webhook request failed with status "
                                             +:+ code +:+ ": " +:+ text) |}
                | Throw e => Normal (caught e)
                end,
                w')
          else (Normal {| success := true;
                          data := VObj [("status", status);
                                        ("statusText", statusText);
                                        ("headers", headers);
                                        ("response", responseData)];
                          error := None |},
                w')
      | (Aborted, w') =>
          (do* timeout := get_property config "timeout" in
           do* text := js_String (if truthy timeout then timeout
                                  else VNum (num_of_nat (30 * 1000))) in
           Normal (failing ("Webhook request timed out after " +:+ text +:+ "ms")),
           w')
      | (Rejected e, w') => (Normal (caught e), w')
      end
  end.

End webhookHandler.
End webhookHandler.

(** ** databaseHandler.ts

    The calls of the handler on [prisma] are left open: each gives back
    a record, or raises, and leaves the tables as it will. *)

Class Database (num World : Type) := {
  (* [prisma.user.create({ data: { email, name } })] *)
  prisma_user_create :
    value num → value num → Store num World → completion (value num) * Store num World;
  (* [prisma.execution.create({ data: { workflowId, status: "completed",
     input, output } })] *)
  prisma_execution_log :
    value num → value num → value num → Store num World
    → completion (value num) * Store num World;
  (* [prisma.user.update({ where: { id }, data })] and its likes *)
  prisma_user_update :
    value num → value num → Store num World → completion (value num) * Store num World;
  prisma_workflow_update :
    value num → value num → Store num World → completion (value num) * Store num World;
  prisma_user_delete :
    value num → Store num World → completion (value num) * Store num World;
  prisma_workflow_delete :
    value num → Store num World → completion (value num) * Store num World;
  (* [prisma.user.findMany({ where: conditions })] and its likes *)
  prisma_user_findMany :
    value num → Store num World → completion (value num) * Store num World;
  prisma_workflow_findMany :
    value num → Store num World → completion (value num) * Store num World;
  prisma_execution_findMany :
    value num → Store num World → completion (value num) * Store num World;
  (* the text of [Date.now()] *)
  Date_now : Store num World → string;
}.

Module databaseHandler.
Section databaseHandler.
Context `{Runtime num} `{Services num World Transporter} `{Database num World}.
Local Abbreviation value := (value num).
Local Abbreviation Store := (Store num World).
Import actionHandlers webhookHandler.

Definition succeeding (d : list (string * value)) : ActionResult num :=
  {| success := true; data := VObj d; error := None |}.

(* [{ ...v }]: the own properties, defined one by one *)
Definition spread (v : value) (o : list (string * value)) : list (string * value) :=
  fold_left (λ o entry, obj_set (fst entry) (snd entry) o) (own_entries v) o.

(* [v || otherwise] *)
Definition or_else (v otherwise : value) : value :=
  if truthy v then v else otherwise.

(* [conditions?.id] *)
Definition optional_id (conditions : value) : completion value :=
  if is_nullish conditions then Normal VUndefined
  else get_property conditions "id".

(* a [try] block that reads its arguments, makes one query and builds
   the result from the record the query gives, with its [catch] *)
Definition guarded (text : string)
    (body : completion (Store → completion value * Store))
    (answer : value → completion (ActionResult num))
    (st : Store) : ActionResult num * Store :=
  let caught (e : exn) :=
    failing (text +:+ " operation failed: " +:+ error_message e "Unknown error") in
  match body with
  | Throw e => (caught e, st)
  | Normal query =>
      match query st with
      | (Throw e, st') => (caught e, st')
      | (Normal record, st') =>
          match answer record with
          | Throw e => (caught e, st')
          | Normal r => (r, st')
          end
      end
  end.

Definition executeInsert (table data : value) : Store → ActionResult num * Store :=
  let answer (record : value) :=
    do* id := get_property record "id" in
    Normal (succeeding [("operation", VStr "insert"); ("table", table);
                        ("record", record); ("id", id)]) in
  if is_string table "customers" then
    guarded "Insert"
      (do* email := get_property data "email" in
       do* name := get_property data "name" in
       Normal (prisma_user_create email name))
      answer
  else if is_string table "logs" then
    guarded "Insert"
      (do* workflowId := get_property data "workflowId" in
       do* input := get_property data "input" in
       do* output := get_property data "output" in
       Normal (prisma_execution_log (or_else workflowId (VStr "temp"))
                 (or_else input (VObj [])) (or_else output (VObj []))))
      answer
  else
    λ st,
      (succeeding [("operation", VStr "insert"); ("table", table);
                   ("record", data); ("id", VStr ("mock_" +:+ Date_now st))],
       st).

Definition executeUpdate (table data conditions : value)
    : Store → ActionResult num * Store :=
  guarded "Update"
    (do* users_id :=
       if is_string table "users" then optional_id conditions
       else Normal VUndefined in
     if is_string table "users" && truthy users_id then
       do* id := get_property conditions "id" in
       Normal (prisma_user_update id data)
     else
       do* workflows_id :=
         if is_string table "workflows" then optional_id conditions
         else Normal VUndefined in
       if is_string table "workflows" && truthy workflows_id then
         do* id := get_property conditions "id" in
         Normal (prisma_workflow_update id data)
       else
         Normal (λ st,
                   (Normal (VObj (obj_set "updated" (VBool true)
                                    (spread conditions (spread data [])))),
                    st)))
    (λ record,
       Normal (succeeding [("operation", VStr "update"); ("table", table);
                           ("conditions", conditions); ("record", record)])).

Definition executeFind (table conditions : value)
    : Store → ActionResult num * Store :=
  guarded "Find"
    (Normal
       (if is_string table "users" then prisma_user_findMany conditions
        else if is_string table "workflows" then prisma_workflow_findMany conditions
        else if is_string table "executions" then prisma_execution_findMany conditions
        else λ st,
               (Normal (VArr [VObj (obj_set "table" table
                                      (spread conditions
                                         [("id", VNum (num_of_nat 1))]))]),
                st)))
    (λ records,
       do* count := get_property records "length" in
       Normal (succeeding [("operation", VStr "find"); ("table", table);
                           ("conditions", conditions); ("records", records);
                           ("count", count)])).

Definition executeDelete (table conditions : value)
    : Store → ActionResult num * Store :=
  guarded "Delete"
    (do* users_id :=
       if is_string table "users" then optional_id conditions
       else Normal VUndefined in
     if is_string table "users" && truthy users_id then
       do* id := get_property conditions "id" in
       Normal (prisma_user_delete id)
     else
       do* workflows_id :=
         if is_string table "workflows" then optional_id conditions
         else Normal VUndefined in
       if is_string table "workflows" && truthy workflows_id then
         do* id := get_property conditions "id" in
         Normal (prisma_workflow_delete id)
       else
         do* id := optional_id conditions in
         Normal (λ st, (Normal (VObj [("id", id); ("deleted", VBool true)]), st)))
    (λ record,
       Normal (succeeding [("operation", VStr "delete"); ("table", table);
                           ("conditions", conditions); ("record", record)])).

(* the [try] block of [executeDatabaseAction] up to the call of the
   operation: the result it returns, or the operation *)
Definition database_operation (config : value)
    : completion (ActionResult num + (Store → ActionResult num * Store)) :=
  do* _ := destructure "config" config "operation" in
  do* operation := get_property config "operation" in
  do* table := get_property config "table" in
  do* data := get_property config "data" in
  do* conditions := get_property config "conditions" in
  do* database_integration_id := get_property config "database_integration_id" in
  if negb (truthy operation)
  then Normal (inl (failing "Database operation is required"))
  else if is_string operation "insert" then Normal (inr (executeInsert table data))
  else if is_string operation "update"
  then Normal (inr (executeUpdate table data conditions))
  else if is_string operation "find" then Normal (inr (executeFind table conditions))
  else if is_string operation "delete"
  then Normal (inr (executeDelete table conditions))
  else
    do* name := js_String operation in
    Normal (inl (failing ("Unsupported database operation: " +:+ name))).

Definition executeDatabaseAction (config : value) (context : WorkflowContext num)
    (st : Store) : ActionResult num * Store :=
  match database_operation config with
  | Throw e =>
      (failing ("Database action failed: " +:+ error_message e "Unknown error"), st)
  | Normal (inl r) => (r, st)
  | Normal (inr operation) => operation st
  end.

End databaseHandler.
End databaseHandler.

(** ** The handlers of the repository *)

Section repository.
Context `{Runtime num} `{Services num World Transporter} `{Web num World}
  `{Database num World}.

(* a handler that acts on the services alone *)
Definition on_services
    (handler : World → completion (ActionResult num) * World)
    (st : Store num World) : completion (ActionResult num) * Store num World :=
  let '(r, w) := handler (world st) in (r, with_world w st).

(* a handler that does not raise *)
Definition returning {S : Type} (handler : S → ActionResult num * S) (s : S)
    : completion (ActionResult num) * S :=
  let '(r, s') := handler s in (Normal r, s').

Definition repository_handlers : Handlers num World :=
  {| executeEmailAction := λ config context,
       on_services (returning (actionHandlers.executeEmailAction config context));
     executeWebhookAction := λ config context,
       on_services (webhookHandler.executeWebhookAction config context);
     executeDatabaseAction := λ config context,
       returning (databaseHandler.executeDatabaseAction config context);
     executeSMSAction := λ config context,
       on_services (returning (actionHandlers.executeSMSAction config context));
     executeDelayAction := λ config context,
       on_services (returning (actionHandlers.executeDelayAction config context)) |}.

End repository.

(** ** The routes that run a workflow

    [POST /api/workflows/[id]/execute] and [POST /api/webhooks/[workflowId]].
    The session, the parsing of the request and the parameters of the
    path are given to a route.  The queries of a route are answered by
    the tables as they stand; an update raises when its row is gone. *)

Module routes.

(* what a route answers: [{ error }] with a status; [{ success: true,
   data: result }]; [{ success: true, message: "Webhook received and
   workflow executed", executionId }] *)
Inductive Reply {num : Type} : Type :=
  | Refused (status : nat) (error : string)
  | Executed (result : RunResult num)
  | Received (executionId : nat).
Arguments Reply : clear implicits.

(* what the webhook route reads of a request *)
Record Incoming {num : Type} : Type := {
  content_type : option string;         (* [request.headers.get("content-type")] *)
  json_body : option (value num);       (* [request.json()], [None] when it rejects *)
  text_body : completion string;        (* [request.text()] *)
  parsed_text : option (value num);     (* [JSON.parse] of the text, [None] when it raises *)
  header_entries : value num;           (* [Object.fromEntries(request.headers.entries())] *)
  http_method : string;
  query_entries : value num;            (* [Object.fromEntries(searchParams.entries())] *)
}.
Arguments Incoming : clear implicits.

Section routes.
Context `{Runtime num} `{Handlers num World}.
Local Abbreviation value := (value num).
Local Abbreviation Platform := (Store num World).

Definition internal_error : Reply num := Refused 500 "Internal server error".

Fixpoint find_listing (id : string) (table : list (string * Listing))
    : option Listing :=
  match table with
  | [] => None
  | (k, l) :: table' => if String.eqb k id then Some l else find_listing id table'
  end.

Definition find_user (id : string) (table : list User) : option User :=
  find (λ u, String.eqb (user_id u) id) table.

(* a row of the Workflow table with all its columns *)
Definition find_row (id : string) (p : Platform)
    : option (Workflow num * Listing) :=
  match find_workflow id (workflows p), find_listing id (listings p) with
  | Some w, Some l => Some (w, l)
  | _, _ => None
  end.

Definition set_usage (id : string) (usage : Z) (table : list User) : list User :=
  map (λ u, if String.eqb (user_id u) id
            then {| user_id := user_id u;
                    user_subscriptionId := user_subscriptionId u;
                    user_currentUsage := usage |}
            else u) table.

Definition set_executed (id : string) (count : Z) (now : nat)
    (table : list (string * Listing)) : list (string * Listing) :=
  map (λ row, if String.eqb (fst row) id
              then (fst row,
                    {| listing_isActive := listing_isActive (snd row);
                       listing_triggerType := listing_triggerType (snd row);
                       listing_executionCount := count;
                       listing_lastExecuted := Some now |})
              else row) table.

Definition with_users (table : list User) (p : Platform) : Platform :=
  {| workflows := workflows p; listings := listings p; users := table;
     executions := executions p; notifications := notifications p;
     clock := clock p; world := world p; refusals := refusals p |}.

Definition with_listings (table : list (string * Listing)) (p : Platform)
    : Platform :=
  {| workflows := workflows p; listings := table; users := users p;
     executions := executions p; notifications := notifications p;
     clock := clock p; world := world p; refusals := refusals p |}.

(* [prisma.user.update({ where: { id }, data: { currentUsage } })] *)
Definition update_usage (id : string) (usage : Z) (p : Platform)
    : option Platform :=
  match find_user id (users p) with
  | Some _ => Some (with_users (set_usage id usage (users p)) p)
  | None => None
  end.

(* [prisma.user.update({ where: { id }, data: { currentUsage: {
   increment: 1 } } })] *)
Definition increment_usage (id : string) (p : Platform) : option Platform :=
  match find_user id (users p) with
  | Some user => update_usage id (user_currentUsage user + 1) p
  | None => None
  end.

(* [prisma.workflow.update({ where: { id }, data: { executionCount,
   lastExecuted: new Date() } })]: the date is read before the call *)
Definition update_executed (id : string) (count : Z) (p : Platform)
    : option Platform * Platform :=
  let now := clock p in
  let p := with_clock (S now) p in
  match find_row id p with
  | Some _ => (Some (with_listings (set_executed id count now (listings p)) p), p)
  | None => (None, p)
  end.

(* [usageLimit]; [None] is [Infinity] *)
Definition usageLimit (subscriptionId : option string) : option Z :=
  match subscriptionId with
  | Some tier =>
      if String.eqb tier "free" then Some 100%Z
      else if String.eqb tier "pro" then Some 5000%Z
      else None
  | None => None
  end.

(* [user.currentUsage >= usageLimit] *)
Definition limit_reached (usage : Z) (limit : option Z) : bool :=
  match limit with
  | Some n => (n <=? usage)%Z
  | None => false
  end.

(** *** [POST /api/workflows/[id]/execute]

    [session] is [session?.user?.id] when that is not falsy; [payload] is
    what [request.json()] gives, [None] when it rejects. *)
Definition execute (id : string) (session : completion (option string))
    (payload : option value) (p : Platform) : Reply num * Platform :=
  match session with
  | Throw _ => (internal_error, p)
  | Normal None => (Refused 401 "Unauthorized", p)
  | Normal (Some userId) =>
      match find_row id p with
      | Some (workflow, listing) =>
          if String.eqb (workflow_userId workflow) userId
             && listing_isActive listing then
            match find_user userId (users p) with
            | None => (Refused 404 "User not found", p)
            | Some user =>
                if limit_reached (user_currentUsage user)
                     (usageLimit (user_subscriptionId user))
                then (Refused 403 "Usage limit exceeded for your subscription tier",
                      p)
                else
                  let body := default (VObj []) payload in
                  match get_property body "data" with
                  | Throw _ => (internal_error, p)
                  | Normal data =>
                      let inputData := if truthy data then data else VObj [] in
                      match executeWorkflow workflow inputData p with
                      | (Throw _, p1) => (internal_error, p1)
                      | (Normal result, p1) =>
                          match update_usage userId (user_currentUsage user + 1) p1 with
                          | None => (internal_error, p1)
                          | Some p2 =>
                              match update_executed id
                                      (listing_executionCount listing + 1) p2 with
                              | (None, p3) => (internal_error, p3)
                              | (Some p3, _) => (Executed result, p3)
                              end
                          end
                      end
                  end
            end
          else (Refused 404 "Workflow not found or inactive", p)
      | None => (Refused 404 "Workflow not found or inactive", p)
      end
  end.

(** *** [POST /api/webhooks/[workflowId]] *)

(* [haystack.includes(needle)] *)
Fixpoint starts_with (needle haystack : string) : bool :=
  match needle, haystack with
  | "", _ => true
  | String a needle', String b haystack' =>
      Ascii.eqb a b && starts_with needle' haystack'
  | String _ _, "" => false
  end.

Fixpoint includes (needle haystack : string) : bool :=
  starts_with needle haystack
  || match haystack with
     | "" => false
     | String _ haystack' => includes needle haystack'
     end.

(* the own enumerable properties [{ ...v }] copies *)
Definition spread_entries (v : value) : list (string * value) :=
  webhookHandler.own_entries v.

(* the body of the request as the route reads it; [None] when reading
   the text rejects *)
Definition read_input (request : Incoming num) : option value :=
  if match content_type request with
     | Some t => includes "application/json" t
     | None => false
     end
  then Some (default (VObj []) (json_body request))
  else match text_body request with
       | Throw _ => None
       | Normal body =>
           if String.eqb body "" then Some (VObj [])
           else Some (default (VObj [("raw_body", VStr body)])
                        (parsed_text request))
       end.

(* [{ ...inputData, headers, method, query }] *)
Definition with_request (inputData : value) (request : Incoming num) : value :=
  VObj (obj_set "query" (query_entries request)
          (obj_set "method" (VStr (http_method request))
             (obj_set "headers" (header_entries request)
                (fold_left (λ o entry, obj_set (fst entry) (snd entry) o)
                   (spread_entries inputData) [])))).

Definition webhook (workflowId : string) (request : Incoming num) (p : Platform)
    : Reply num * Platform :=
  match find_row workflowId p with
  | Some (workflow, listing) =>
      if listing_isActive listing
         && String.eqb (listing_triggerType listing) "webhook" then
        match read_input request with
        | None => (internal_error, p)
        | Some inputData =>
            match executeWorkflow workflow (with_request inputData request) p with
            | (Throw _, p1) => (internal_error, p1)
            | (Normal result, p1) =>
                match increment_usage (workflow_userId workflow) p1 with
                | None => (internal_error, p1)
                | Some p2 =>
                    match update_executed workflowId
                            (listing_executionCount listing + 1) p2 with
                    | (None, p3) => (internal_error, p3)
                    | (Some p3, _) => (Received (executionId result), p3)
                    end
                end
            end
        end
      else (Refused 404 "Webhook not found or inactive", p)
  | None => (Refused 404 "Webhook not found or inactive", p)
  end.

End routes.
End routes.

(** ** Vocabulary of the properties *)

Section vocabulary.
Context `{Runtime num}.
Local Abbreviation value := (value num).

Fixpoint no_rbrace (s : string) : bool :=
  match s with
  | "" => true
  | String c s' => negb (Ascii.eqb c "}") && no_rbrace s'
  end.

Fixpoint no_dot (s : string) : bool :=
  match s with
  | "" => true
  | String c s' => negb (Ascii.eqb c ".") && no_dot s'
  end.

(** *** A path, as the specification describes it

    Segments separated by dots, white space around the whole being
    ignored; a segment of digits is an index into a sequence, any other
    segment a key of a mapping. *)





(* the token of the path [keys] with the white space [l] and [r] around
   it *)
Definition token (l : string) (keys : list string) (r : string) : string :=
  "{{" +:+ l +:+ variableFunctions.join_texts "." keys +:+ r +:+ "}}".


(** The ways in which a segment of a path fails at the value reached so
    far: that value is null or absent; it is not indexable by the
    segment; the segment names nothing in it.  A key names something in
    a value that holds it or inherits it. *)


(* a name every object inherits something under *)
Definition inherited_name (key : string) : bool :=
  existsb (λ member, String.eqb (fst member) key) Object_prototype.


Definition missing (current : value) (key : string) : bool :=
  match current with
  | VObj entries =>
      negb (digits_only key) && negb (has_key key entries)
      && negb (inherited_name key)
  | VArr items => digits_only key && (length items <=? parseInt key)%nat
  | _ => false
  end.


(* a segment a mapping does not hold, whatever it inherits *)
Definition not_a_key (current : value) (key : string) : bool :=
  match current with
  | VObj entries => negb (digits_only key) && negb (has_key key entries)
  | _ => false
  end.

(** The entries of an object come in enumeration order: no key twice,
    array indices first and ascending. *)

Definition key_before (k k' : string) : bool :=
  match array_index k, array_index k' with
  | Some n, Some n' => (n <? n')%N
  | Some _, None => true
  | None, Some _ => false
  | None, None => true
  end.

Fixpoint enumeration_order (keys : list string) : bool :=
  match keys with
  | k :: rest =>
      match rest with
      | k' :: _ => key_before k k'
      | [] => true
      end && enumeration_order rest
  | [] => true
  end.

Fixpoint distinct (keys : list string) : bool :=
  match keys with
  | k :: rest => negb (existsb (String.eqb k) rest) && distinct rest
  | [] => true
  end.

Definition is_object (entries : list (string * value)) : bool :=
  distinct (map fst entries) && enumeration_order (map fst entries).

Fixpoint well_formed (v : value) : bool :=
  match v with
  | VArr items => forallb well_formed items
  | VObj entries =>
      is_object entries && forallb (λ entry, well_formed (snd entry)) entries
  | VProto proto entries =>
      well_formed proto
      && is_object entries && forallb (λ entry, well_formed (snd entry)) entries
  | _ => true
  end.

(* the entries of an object other than [__proto__] *)
Definition kept (entries : list (string * value)) : list (string * value) :=
  List.filter (λ entry, negb (String.eqb (fst entry) "__proto__")) entries.

(* a value made of scalars, texts, arrays and objects that have the
   prototype of an object literal and no key [__proto__] *)
Fixpoint ordinary (v : value) : bool :=
  match v with
  | VArr items => forallb ordinary items
  | VObj entries =>
      negb (has_key "__proto__" entries)
      && forallb (λ entry, ordinary (snd entry)) entries
  | VProto _ _ | VHost _ => false
  | _ => true
  end.

(* a text without two opening braces in a row *)
Fixpoint no_open (s : string) : bool :=
  match s with
  | String c s' =>
      match s' with
      | String c' _ => negb (Ascii.eqb c "{" && Ascii.eqb c' "{")
      | "" => true
      end && no_open s'
  | "" => true
  end.

(* a value none of whose texts has two opening braces in a row *)
Fixpoint plain (v : value) : bool :=
  match v with
  | VStr s => no_open s
  | VArr items => forallb plain items
  | VObj entries => forallb (λ entry, plain (snd entry)) entries
  | VProto proto entries =>
      plain proto && forallb (λ entry, plain (snd entry)) entries
  | _ => true
  end.

(* the first segment of a path, as [getNestedValue] sees it *)
Definition first_segment (path : string) : string :=
  match split_dots (trim path) with
  | key :: _ => key
  | [] => ""
  end.

(* the paths of the tokens that start somewhere in a text *)
Fixpoint paths_in (s : string) : list string :=
  match match_placeholder s with
  | Some (path, _) => [path]
  | None => []
  end ++ match s with
         | "" => []
         | String _ s' => paths_in s'
         end.

(* a text none of whose tokens starts with a name every object
   inherits *)
Definition inert_text (s : string) : bool :=
  forallb (λ path, negb (inherited_name (first_segment path))) (paths_in s).

Fixpoint inert (v : value) : bool :=
  match v with
  | VStr s => inert_text s
  | VArr items => forallb inert items
  | VObj entries => forallb (λ entry, inert (snd entry)) entries
  | _ => true
  end.

(* the names the comments of the resolver give the data of a run:
   [trigger] and the names that start with [action_] *)
Definition step_name (key : string) : bool :=
  String.eqb key "trigger"
  || match strip_prefix "action_" key with Some _ => true | None => false end.

(** Two values of the same shape: the same scalars, texts in the place
    of texts, arrays of the same length and objects with the same keys in
    the same order, with components of the same shape. *)
Local Unset Elimination Schemes.
Inductive same_shape : value → value → Prop :=
  | shape_undefined : same_shape VUndefined VUndefined
  | shape_null : same_shape VNull VNull
  | shape_bool b : same_shape (VBool b) (VBool b)
  | shape_num n : same_shape (VNum n) (VNum n)
  | shape_text s s' : same_shape (VStr s) (VStr s')
  | shape_array items items' :
      Forall2 same_shape items items' → same_shape (VArr items) (VArr items')
  | shape_object entries entries' :
      Forall2 (λ entry entry', fst entry = fst entry'
                               ∧ same_shape (snd entry) (snd entry'))
        entries entries' →
      same_shape (VObj entries) (VObj entries').

End vocabulary.

(** ** Vocabulary of the engine's properties *)

Section engine_vocabulary.
Context `{Runtime num} `{Handlers num World}.
Local Abbreviation value := (value num).
Local Abbreviation Store := (Store num World).

(* the database once [executeWorkflow] has created the row of the run *)
Definition start (workflow : Workflow num) (triggerData : value) (st : Store)
    : Store :=
  {| workflows := workflows st; listings := listings st; users := users st;
     executions :=
       executions st ++
       [{| execution_workflowId := workflow_id workflow;
           execution_status := "running";
           execution_startTime := clock st;
           execution_endTime := None;
           execution_input := input triggerData;
           execution_output := VNull;
           execution_error := None |}];
     notifications := notifications st;
     clock := S (clock st);
     world := world st;
     refusals := tail (refusals st) |}.

(* the row of a run together with the workflow it references *)
Definition joined (execution_id : nat) (st : Store)
    : option (Execution num * Workflow num) :=
  row ← executions st !! execution_id;
  w ← find_workflow (execution_workflowId row) (workflows st);
  Some (row, w).

(* a row once it has reached a terminal state *)
Definition ended (status : string) (endTime : nat) (error : option string)
    (output : value) (row : Execution num) : Execution num :=
  {| execution_workflowId := execution_workflowId row;
     execution_status := status;
     execution_startTime := execution_startTime row;
     execution_endTime := Some endTime;
     execution_input := execution_input row;
     execution_output := output;
     execution_error := error |}.

(* the notification a failed run leaves its owner *)
Definition notice (w : Workflow num) (execution_id : nat) (error : option string)
    : Notification num :=
  {| notification_userId := workflow_userId w;
     notification_type := "workflow_error";
     notification_message :=
       VStr ("Workflow " +:+ String "034"%char (workflow_name w)
             +:+ String "034"%char " failed: "
             +:+ match error with Some text => text | None => "null" end);
     notification_metadata := FailureMetadata (workflow_id w) execution_id |}.

(* the database after the terminal write of a run: the row is updated
   at the time the clock shows and, for a failed run, the owner of the
   workflow is notified *)
Definition written (execution_id : nat) (status : string) (error : option string)
    (output : value) (row : Execution num) (w : Workflow num) (st : Store)
    : Store :=
  {| workflows := workflows st; listings := listings st; users := users st;
     executions :=
       <[execution_id := ended status (clock st) error output row]> (executions st);
     notifications :=
       notifications st ++
       (if String.eqb status "failed" then [notice w execution_id error] else []);
     clock := S (clock st);
     world := world st;
     refusals := refusals st |}.

(* one dispatch of an action, whatever it returns *)
Definition dispatch (st st' : Store) : Prop :=
  ∃ action context, (executeAction action context st).2 = st'.

(* what the database goes through between two states when nothing
   happens to it but dispatches of actions *)
Definition dispatches : Store → Store → Prop := rtc dispatch.

(* no dispatch touches the row of a run, nor removes the workflow the
   row references *)
Definition run_stays (execution_id : nat) : Prop :=
  ∀ st st' row w,
    dispatch st st' → joined execution_id st = Some (row, w) →
    ∃ w', joined execution_id st' = Some (row, w').

(* the triggers and the actions of a workflow, none when the list is absent *)
Definition triggers_of (workflow : Workflow num) : list value :=
  default [] (triggers (workflow_configuration workflow)).

Definition actions_of (workflow : Workflow num) : list value :=
  default [] (actions (workflow_configuration workflow)).


(* the run up to the action that follows [done]: the trigger phase, then
   the actions of [done] *)
Definition run_prefix (workflow : Workflow num) (triggerData : value)
    (execution_id : nat) (done : list value) : M (flow num) :=
  let* after_triggers :=
    trigger_phase (workflow_configuration workflow) execution_id
      (seed workflow triggerData) in
  match after_triggers with
  | Return context r => ret (Return context r)
  | Continue context => run_actions execution_id 0 done context
  end.

(* the trigger types the validator knows, the action types the
   dispatcher knows *)
Definition recognised (type : value) : bool :=
  is_string type "webhook" || is_string type "manual"
  || is_string type "email" || is_string type "schedule".

Definition registered (type : value) : bool :=
  is_string type "email" || is_string type "webhook" || is_string type "database"
  || is_string type "sms" || is_string type "notification" || is_string type "delay".

Definition trigger_type (trigger : value) : value :=
  match get_property trigger "type" with
  | Normal type => type
  | Throw _ => VUndefined
  end.

(* the key of the entry a validated trigger leaves *)
Definition trigger_key (trigger : value) : string :=
  "trigger_" +:+ match js_String (trigger_type trigger) with
                 | Normal name => name
                 | Throw _ => ""
                 end.

(* a trigger that passes validation *)
Definition valid_trigger (trigger : value) : bool :=
  negb (is_nullish trigger) && recognised (trigger_type trigger).

(* the entries successful actions leave in [stepResults] and [variables] *)
Definition action_entries (results : list value) : list (string * value) :=
  imap (λ j d, (action_key j, d)) results.

Definition variable_entries (results : list value) : list (string * value) :=
  imap (λ j d, (result_key j, d)) results.

(* the keys of a list in the order of their first occurrence *)
Definition first_occurrences (keys : list string) : list string :=
  fold_left
    (λ seen k, if existsb (λ k', String.eqb k' k) seen then seen else seen ++ [k])
    keys [].

(* the entries validated triggers leave in [stepResults] *)
Definition trigger_entries (triggers : list value) (triggerData : value)
    : list (string * value) :=
  map (λ k, (k, triggerData)) (first_occurrences (map trigger_key triggers)).

(* the context once the triggers of [done] are validated *)
Definition after_triggers (done : list value) (context : WorkflowContext num)
    : WorkflowContext num :=
  fold_left (λ c t, set_stepResult (trigger_key t) (triggerData c) c) done context.

(* the context once action [i] returned the payload [d] *)
Definition after_action (i : nat) (d : value) (context : WorkflowContext num)
    : WorkflowContext num :=
  set_variable (result_key i) d (set_stepResult (action_key i) d context).

(* the texts of the two ways in which action [i] ends a run *)
Definition failed_text (i : nat) (error : option string) : string :=
  "Action " +:+ pretty (i + 1) +:+ " failed: "
  +:+ match error with Some text => text | None => "undefined" end.

Definition fault_text (i : nat) (e : exn) : string :=
  "Action " +:+ pretty (i + 1) +:+ " error: "
  +:+ match e with ErrorObject message => message | ThrownValue => "Unknown error" end.

(* no step from action [i] on has left an entry yet *)
Definition fresh_from (i : nat) (context : WorkflowContext num) : Prop :=
  ∀ j, (i ≤ j)%nat →
    has_key (action_key j) (stepResults context) = false
    ∧ has_key (result_key j) (variables context) = false.

(* a service handler gives an error text whenever it reports a failure *)
Definition reports_error {S : Type}
    (handler : value → WorkflowContext num → S → completion (ActionResult num) * S)
    : Prop :=
  ∀ config context s r,
    (handler config context s).1 = Normal r →
    success r = false → is_Some (error r).

Definition handlers_report_errors : Prop :=
  reports_error executeEmailAction ∧ reports_error executeWebhookAction
  ∧ reports_error executeDatabaseAction ∧ reports_error executeSMSAction
  ∧ reports_error executeDelayAction.

End engine_vocabulary.

Section database_vocabulary.
Context {num World : Type}.

(* a step that leaves the clock, the rows of the runs and the keys of the
   workflows as they are *)
Definition undisturbed (st st' : Store num World) : Prop :=
  clock st' = clock st
  ∧ executions st' = executions st
  ∧ map workflow_id (workflows st') = map workflow_id (workflows st).

(* a database whose calls from the database handler are such steps *)
Definition quiet_database `{Database num World} : Prop :=
  (∀ email name st, undisturbed st (prisma_user_create email name st).2)
  ∧ (∀ workflowId input output st,
       undisturbed st (prisma_execution_log workflowId input output st).2)
  ∧ (∀ id data st, undisturbed st (prisma_user_update id data st).2)
  ∧ (∀ id data st, undisturbed st (prisma_workflow_update id data st).2)
  ∧ (∀ id st, undisturbed st (prisma_user_delete id st).2)
  ∧ (∀ id st, undisturbed st (prisma_workflow_delete id st).2)
  ∧ (∀ conditions st, undisturbed st (prisma_user_findMany conditions st).2)
  ∧ (∀ conditions st, undisturbed st (prisma_workflow_findMany conditions st).2)
  ∧ (∀ conditions st, undisturbed st (prisma_execution_findMany conditions st).2).

End database_vocabulary.

(** ** A concrete host, for running the program

    Numbers are integers.  The built-in prototypes have the members of
    ECMAScript 2023; of a built-in function the host shows its name and
    what [Function.prototype] gives it.  Every service call is written
    to a journal, which is the whole world: the Integration table holds
    credentials for Twilio and Gmail, every mail and every text message
    is delivered, every request is answered. *)

Module Fixture.

(* the methods of the built-in prototypes *)
Definition methods (prototype : string) : list string :=
  if String.eqb prototype "String.prototype" then
    ["anchor"; "at"; "big"; "blink"; "bold"; "charAt"; "charCodeAt"; "codePointAt";
     "concat"; "endsWith"; "fixed"; "fontcolor"; "fontsize"; "includes"; "indexOf";
     "isWellFormed"; "italics"; "lastIndexOf"; "link"; "localeCompare"; "match";
     "matchAll"; "normalize"; "padEnd"; "padStart"; "repeat"; "replace";
     "replaceAll"; "search"; "slice"; "small"; "split"; "startsWith"; "strike";
     "sub"; "substr"; "substring"; "sup"; "toLocaleLowerCase"; "toLocaleUpperCase";
     "toLowerCase"; "toString"; "toUpperCase"; "toWellFormed"; "trim"; "trimEnd";
     "trimLeft"; "trimRight"; "trimStart"; "valueOf"]
  else if String.eqb prototype "Array.prototype" then
    ["at"; "concat"; "copyWithin"; "entries"; "every"; "fill"; "filter"; "find";
     "findIndex"; "findLast"; "findLastIndex"; "flat"; "flatMap"; "forEach";
     "includes"; "indexOf"; "join"; "keys"; "lastIndexOf"; "map"; "pop"; "push";
     "reduce"; "reduceRight"; "reverse"; "shift"; "slice"; "some"; "sort"; "splice";
     "toLocaleString"; "toReversed"; "toSorted"; "toSpliced"; "toString"; "unshift";
     "values"; "with"]
  else if String.eqb prototype "Number.prototype" then
    ["toExponential"; "toFixed"; "toLocaleString"; "toPrecision"; "toString";
     "valueOf"]
  else if String.eqb prototype "Boolean.prototype" then ["toString"; "valueOf"]
  else if String.eqb prototype "Function.prototype" then
    ["apply"; "bind"; "call"; "toString"]
  else [].

Definition prototypes : list string :=
  ["Object.prototype"; "String.prototype"; "Array.prototype"; "Number.prototype";
   "Boolean.prototype"; "Function.prototype"].

Definition is_prototype_name (h : string) : bool :=
  existsb (String.eqb h) prototypes.

(* the constructor a prototype belongs to: its name without ".prototype" *)
Fixpoint before_dot (s : string) : string :=
  match s with
  | "" => ""
  | String c s' => if Ascii.eqb c "." then "" else String c (before_dot s')
  end.

(* the member of a built-in prototype under [key], itself or through
   [Object.prototype] *)
Definition member (prototype key : string) : value Z :=
  if String.eqb key "constructor" then VHost (before_dot prototype)
  else if existsb (String.eqb key) (methods prototype)
  then VHost (prototype +:+ "." +:+ key)
  else object_member key.

(* the name of a built-in function: the last segment of what it is
   known by; two methods of texts are aliases *)
Definition function_name (h : string) : string :=
  let short := default "" (last (split_dots h)) in
  if String.eqb short "trimLeft" then "trimStart"
  else if String.eqb short "trimRight" then "trimEnd"
  else short.

Definition host_member (h key : string) : value Z :=
  if is_prototype_name h then
    if String.eqb key "__proto__"
    then (if String.eqb h "Object.prototype" then VNull else VHost "Object.prototype")
    else if String.eqb h "Object.prototype" then object_member key
    else member h key
  else if String.eqb key "name" then VStr (function_name h)
  else if String.eqb key "prototype" && no_dot h
  then VHost (h +:+ ".prototype")
  else if String.eqb key "__proto__" then VHost "Function.prototype"
  else if String.eqb key "constructor" then VHost "Function"
  else member "Function.prototype" key.

#[export] Instance runtime : Runtime Z := {|
  num_to_string := pretty;
  num_of_nat := Z.of_nat;
  num_truthy := λ n, negb (Z.eqb n 0);
  read_nullish_message := λ null key,
    "Cannot read properties of " +:+ (if null then "null" else "undefined")
    +:+ " (reading '" +:+ key +:+ "')";
  destructure_nullish_message := λ null,
    "Cannot destructure property 'type' of 'action' as it is "
    +:+ (if null then "null" else "undefined") +:+ ".";
  to_primitive_message := "Cannot convert object to primitive value";
  record_not_found_message := "Record to update not found.";
  foreign_key_message := "Foreign key constraint failed";
  refusal_message := "Can't reach database server";
  inherited := λ v key,
    match v with
    | VStr _ =>
        if String.eqb key "__proto__" then VHost "String.prototype"
        else member "String.prototype" key
    | VArr _ =>
        if String.eqb key "__proto__" then VHost "Array.prototype"
        else member "Array.prototype" key
    | VNum _ =>
        if String.eqb key "__proto__" then VHost "Number.prototype"
        else member "Number.prototype" key
    | VBool _ =>
        if String.eqb key "__proto__" then VHost "Boolean.prototype"
        else member "Boolean.prototype" key
    | VHost h => host_member h key
    | _ => VUndefined
    end;
  host_function := λ h,
    negb (is_prototype_name h) || String.eqb h "Function.prototype";
  host_array := λ h, String.eqb h "Array.prototype";
  host_String := λ h,
    if String.eqb h "Object.prototype" then Normal "[object Object]"
    else if String.eqb h "Array.prototype" || String.eqb h "String.prototype"
    then Normal ""
    else if String.eqb h "Number.prototype" then Normal "0"
    else if String.eqb h "Boolean.prototype" then Normal "false"
    else if String.eqb h "Function.prototype"
    then Normal "function () { [native code] }"
    else Normal ("function " +:+ function_name h +:+ "() { [native code] }");
  exotic_String := λ v, Throw (ErrorObject "Cannot convert object to primitive value");
|}.

Definition Journal : Type := list (string * value Z).

(* the digits at the head of a text, as a number *)
Fixpoint leading_digits (acc : option Z) (s : string) : option Z :=
  match s with
  | String c s' =>
      if is_digit c
      then leading_digits
             (Some (10 * default 0%Z acc + (Z.of_nat (nat_of_ascii c) - 48))%Z) s'
      else acc
  | "" => acc
  end.

(* [parseInt] gives [NaN] where there is no digit; this host has no such
   number and says 0 *)
#[export] Instance services : Services Z Journal (value Z) := {|
  destructure_message := λ null key source,
    "Cannot destructure property '" +:+ key +:+ "' of '" +:+ source
    +:+ "' as it is " +:+ (if null then "null" else "undefined") +:+ ".";
  not_a_function_message := λ callee, callee +:+ " is not a function";
  integration_findFirst := λ userId service journal,
    Normal (if String.eqb userId "user_1" then Some (VStr service) else None);
  decrypt := λ stored,
    if is_string stored "twilio"
    then Some (VObj [("accountSid", VStr "AC1"); ("authToken", VStr "secret");
                     ("phoneNumber", VStr "+15550100")])
    else if is_string stored "gmail"
    then Some (VObj [("email", VStr "owner@gmail.com");
                     ("app_password", VStr "secret")])
    else None;
  createTransport := λ options, Normal options;
  sendMail := λ transporter options journal,
    (Normal (VObj [("messageId", VStr "<1@minizapier.com>")]),
     journal ++ [("mail", options)]);
  mock_message := λ journal,
    (("1762041600000k3j9x2m1a", "2025-11-02T00:00:00.000Z"),
     journal ++ [("twilio", VNull)]);
  parseInt_text := λ s, default 0%Z (leading_digits None (trim_start s));
  sleep := λ ms journal, journal ++ [("timer", VNum ms)];
  exotic_includes := λ v, Normal false;
  exotic_toUpperCase := λ v, js_String v;
|}.

(* upper case for the letters a to z *)
Definition upper_ascii (c : ascii) : ascii :=
  let n := nat_of_ascii c in
  if (97 <=? n)%nat && (n <=? 122)%nat then ascii_of_nat (n - 32) else c.

Fixpoint upper_text (s : string) : string :=
  match s with
  | "" => ""
  | String c s' => String (upper_ascii c) (upper_text s')
  end.

(* the sample bodies are texts, numbers and booleans, for which
   [JSON.stringify] agrees with [String] but for the quotes of a text,
   and a text is never serialised; every request is answered *)
#[export] Instance web : Web Z Journal := {|
  toUpperCase := upper_text;
  JSON_stringify := λ v,
    match js_String v with
    | Normal text => Normal (VStr text)
    | Throw e => Throw e
    end;
  base64 := λ s, "base64:" +:+ s;
  AbortSignal_timeout := λ v,
    match v with
    | VNum n =>
        if (0 <=? n)%Z then Normal ()
        else Throw (ErrorObject "The value of timeout is out of range.")
    | _ => Throw (ErrorObject "The timeout argument must be of type number.")
    end;
  exchange := λ request journal,
    (Answered true (VNum 200%Z) (VStr "OK") (VObj []) (VStr "received"),
     journal ++ [(request_method request, VObj (request_headers request))]);
|}.

(* The database of the sample: a customer becomes a user on the free
   tier; an update of a workflow renames it; the other calls find
   nothing to act on. *)
Definition no_record {A} (st : Store Z Journal) : completion A * Store Z Journal :=
  (Throw (ErrorObject "Record not found"), st).

Definition rename (id name : string) (w : Workflow Z) : Workflow Z :=
  if String.eqb (workflow_id w) id
  then {| workflow_id := workflow_id w;
          workflow_userId := workflow_userId w;
          workflow_name := name;
          workflow_configuration := workflow_configuration w |}
  else w.

#[export] Instance database : Database Z Journal := {|
  prisma_user_create := λ email name st,
    match email with
    | VStr address =>
        (Normal (VObj [("id", VStr address); ("email", email); ("name", name)]),
         routes.with_users
           (users st ++ [{| user_id := address;
                            user_subscriptionId := Some "free";
                            user_currentUsage := 0 |}]) st)
    | _ => (Throw (ErrorObject "Argument email is missing."), st)
    end;
  prisma_execution_log := λ workflowId input output st,
    (Throw (ErrorObject "Foreign key constraint failed"), st);
  prisma_user_update := λ id data st, no_record st;
  prisma_workflow_update := λ id data st,
    match id, get_property data "name" with
    | VStr key, Normal (VStr name) =>
        match find_workflow key (workflows st) with
        | Some w =>
            (Normal (VObj [("id", id); ("name", VStr name)]),
             {| workflows := map (rename key name) (workflows st);
                listings := listings st; users := users st;
                executions := executions st; notifications := notifications st;
                clock := clock st; world := world st; refusals := refusals st |})
        | None => no_record st
        end
    | _, _ => no_record st
    end;
  prisma_user_delete := λ id st, no_record st;
  prisma_workflow_delete := λ id st, no_record st;
  prisma_user_findMany := λ conditions st, (Normal (VArr []), st);
  prisma_workflow_findMany := λ conditions st, (Normal (VArr []), st);
  prisma_execution_findMany := λ conditions st, (Normal (VArr []), st);
  Date_now := λ st, pretty (clock st);
|}.

#[export] Instance handlers : Handlers Z Journal := repository_handlers.

Definition action (type : string) (config : list (string * value Z)) : value Z :=
  VObj [("type", VStr type); ("config", VObj config)].

Definition trigger (type : string) : value Z :=
  VObj [("type", VStr type); ("config", VObj [])].

Definition workflow (triggers actions : list (value Z)) : Workflow Z :=
  {| workflow_id := "wf_1";
     workflow_userId := "user_1";
     workflow_name := "Welcome";
     workflow_configuration :=
       {| triggers := Some triggers; actions := Some actions |} |}.

(* a database holding the workflow, its owner on the free tier, and
   nothing else *)
Definition platform (w : Workflow Z) (usage : Z) : Store Z Journal :=
  {| workflows := [w];
     listings :=
       [("wf_1",
         {| listing_isActive := true;
            listing_triggerType := "webhook";
            listing_executionCount := 7;
            listing_lastExecuted := None |})];
     users :=
       [{| user_id := "user_1";
           user_subscriptionId := Some "free";
           user_currentUsage := usage |}];
     executions := []; notifications := [];
     clock := 1000; world := []; refusals := [] |}.

Definition store (w : Workflow Z) : Store Z Journal := platform w 0.

Definition signup : value Z :=
  VObj [("email", VStr "a@b.com"); ("tags", VArr [VStr "x"; VStr "y"])].

(* a context for the resolver *)
Definition context : value Z := VObj [("trigger", signup)].

(* a mail, then an action of a type nobody handles, then a text message *)
Definition greeting : value Z :=
  action "email" [("provider", VStr "gmail");
                  ("to", VStr "{{variables.trigger.email}}");
                  ("subject", VStr "Hello");
                  ("body", VStr "Welcome aboard")].

(* a text message that quotes the result of the mail before it *)
Definition notice : value Z :=
  action "sms" [("provider", VStr "twilio");
                ("to", VStr "{{variables.action_0_result.to}}");
                ("message", VStr "Welcome {{trigger.email}}")].

Definition with_unknown_action : Workflow Z :=
  workflow [trigger "webhook"] [greeting; action "carrier" []; notice].

Definition with_unknown_trigger : Workflow Z :=
  workflow [trigger "webhook"; trigger "carrier_pigeon"] [greeting].


(* an action list with a hole: the dispatcher raises on it *)
Definition with_null_action : Workflow Z := workflow [trigger "manual"] [VNull].

Definition welcome : Workflow Z :=
  workflow [trigger "webhook"; trigger "manual"] [greeting; notice].

(* a trigger list with a hole *)
Definition with_null_trigger : Workflow Z :=
  workflow [trigger "manual"; VNull; trigger "webhook"] [greeting].

(* a type without a text: an object whose own [toString] is no function *)
Definition untyped : value Z := VObj [("toString", VNull)].


(* a database in which another run has ended *)
Definition earlier_run : Execution Z :=
  {| execution_workflowId := "wf_1";
     execution_status := "completed";
     execution_startTime := 10;
     execution_endTime := Some 11;
     execution_input := VObj [];
     execution_output := VObj [];
     execution_error := None |}.

Definition busy (w : Workflow Z) : Store Z Journal :=
  {| workflows := [w]; listings := listings (store w); users := users (store w);
     executions := [earlier_run]; notifications := [];
     clock := 2000; world := []; refusals := [] |}.

(* a database that does not hold the workflow *)
Definition orphaned : Store Z Journal :=
  {| workflows := []; listings := []; users := [];
     executions := []; notifications := [];
     clock := 1000; world := []; refusals := [] |}.

(* a database that answers the first three calls of a run and refuses
   the fourth *)
Definition faltering (w : Workflow Z) : Store Z Journal :=
  with_refusals [false; false; false; true] (store w).

(* a webhook with headers of its own and a bearer token *)
Definition hook : value Z :=
  VObj [("url", VStr "https://example.com/hook");
        ("headers", VObj [("Authorization", VStr "mine");
                          ("Content-Type", VStr "application/xml")]);
        ("auth_type", VStr "bearer");
        ("auth_token", VStr "t0ken");
        ("body", VStr "hello")].

(* a JSON request that names a method of its own *)
Definition incoming : routes.Incoming Z :=
  {| routes.content_type := Some "application/json; charset=utf-8";
     routes.json_body :=
       Some (VObj [("method", VStr "spoofed"); ("email", VStr "a@b.com")]);
     routes.text_body := Normal "";
     routes.parsed_text := None;
     routes.header_entries :=
       VObj [("content-type", VStr "application/json; charset=utf-8")];
     routes.http_method := "POST";
     routes.query_entries := VObj [] |}.

(* configurations of a mail and of a text message *)
Definition mail : value Z :=
  VObj [("provider", VStr "gmail"); ("to", VArr [VStr "a@b.com"; VStr "c@d.com"]);
        ("subject", VStr "Hello"); ("body", VStr "Welcome aboard")].

Definition text_message : value Z :=
  VObj [("provider", VStr "twilio"); ("to", VStr "+15550123");
        ("message", VStr "Welcome aboard")].

End Fixture.

(** * Properties *)

(** ** The pattern and the replacement loop *)

Lemma append_String (c : ascii) (s t : string) : String c s +:+ t = String c (s +:+ t).
Proof. reflexivity. Qed.

Lemma append_assoc (s t u : string) : (s +:+ t) +:+ u = s +:+ (t +:+ u).
Proof. induction s as [|c s IH]; [done|]. by rewrite !append_String, IH. Qed.

Lemma length_append (s t : string) :
  String.length (s +:+ t) = String.length s + String.length t.
Proof.
  induction s as [|c s IH]; [done|]. rewrite append_String. cbn. by rewrite IH.
Qed.

Lemma span_path_append (path rest : string) :
  no_rbrace path = true →
  span_path (path +:+ String "}" rest) = (path, String "}" rest).
Proof.
  induction path as [|c path IH]; intros Hp; [reflexivity|].
  cbn in Hp. apply andb_true_iff in Hp as [Hc Hp].
  rewrite append_String. cbn. destruct (Ascii.eqb c "}"); [done|]. by rewrite (IH Hp).
Qed.

Lemma span_path_inv (s run rest : string) :
  span_path s = (run, rest) →
  s = run +:+ rest ∧ no_rbrace run = true.
Proof.
  revert run rest. induction s as [|c s IH]; intros run rest; cbn.
  - intros [= <- <-]. done.
  - destruct (Ascii.eqb c "}") eqn:Hc.
    + intros [= <- <-]. done.
    + destruct (span_path s) as [run' rest'] eqn:Hs.
      intros [= <- <-]. destruct (IH _ _ eq_refl) as [-> Hrun].
      rewrite append_String. cbn. by rewrite Hc, Hrun.
Qed.

Lemma strip_prefix_append (p s : string) : strip_prefix p (p +:+ s) = Some s.
Proof.
  induction p as [|a p IH]; [done|].
  rewrite append_String. cbn. by rewrite Ascii.eqb_refl.
Qed.

Lemma strip_prefix_inv (p s r : string) : strip_prefix p s = Some r → s = p +:+ r.
Proof.
  revert s. induction p as [|a p IH]; intros s; cbn.
  - by intros [= ->].
  - destruct s as [|b s]; [done|].
    destruct (Ascii.eqb_spec a b) as [->|]; [|done].
    intros Hs. rewrite append_String. by rewrite (IH _ Hs).
Qed.

Lemma match_placeholder_placeholder (path rest : string) :
  path ≠ "" → no_rbrace path = true →
  match_placeholder (placeholder path +:+ rest) = Some (path, rest).
Proof.
  intros Hne Hp. unfold placeholder, match_placeholder.
  rewrite !append_assoc, strip_prefix_append.
  change ("}}" +:+ rest) with (String "}" ("}" +:+ rest)).
  rewrite (span_path_append _ _ Hp).
  apply String.eqb_neq in Hne. rewrite Hne.
  change (String "}" ("}" +:+ rest)) with ("}}" +:+ rest).
  by rewrite strip_prefix_append.
Qed.

Lemma match_placeholder_inv (s path rest : string) :
  match_placeholder s = Some (path, rest) →
  s = placeholder path +:+ rest ∧ path ≠ "" ∧ no_rbrace path = true.
Proof.
  unfold match_placeholder.
  destruct (strip_prefix "{{" s) as [s'|] eqn:Hopen; [|done].
  apply strip_prefix_inv in Hopen as ->.
  destruct (span_path s') as [run after] eqn:Hspan.
  apply span_path_inv in Hspan as [-> Hrun].
  destruct (String.eqb_spec run "") as [|Hne]; [done|].
  destruct (strip_prefix "}}" after) as [rest'|] eqn:Hclose; [|done].
  apply strip_prefix_inv in Hclose as ->.
  intros [= <- <-]. split_and!; [|done..].
  unfold placeholder. by rewrite !append_assoc.
Qed.

Lemma match_placeholder_shorter (s path rest : string) :
  match_placeholder s = Some (path, rest) →
  (String.length rest < String.length s)%nat.
Proof.
  intros Hm. apply match_placeholder_inv in Hm as (-> & _ & _).
  unfold placeholder. rewrite !length_append. cbn. lia.
Qed.

Section replace.
Context (replacer : string → string → string).

Lemma replace_from_fuel (fuel : nat) (str : string) :
  (String.length str ≤ fuel)%nat →
  replace_from fuel replacer str = replace_placeholders replacer str.
Proof.
  unfold replace_placeholders.
  revert str. induction fuel as [fuel IH] using lt_wf_ind. intros str Hlen.
  destruct fuel as [|fuel].
  { destruct str; [done|]. cbn in Hlen. lia. }
  destruct (String.length str) as [|n] eqn:Hn.
  { destruct str; [|done]. reflexivity. }
  cbn [replace_from].
  destruct (match_placeholder str) as [[path rest]|] eqn:Hm.
  - apply match_placeholder_shorter in Hm.
    rewrite (IH fuel), (IH n); [done|lia..].
  - destruct str as [|c str]; [done|]. cbn in Hn, Hlen.
    rewrite (IH fuel), (IH n); [done|lia..].
Qed.

(* the loop, one iteration at a time *)
Lemma replace_placeholders_match (str path rest : string) :
  match_placeholder str = Some (path, rest) →
  replace_placeholders replacer str =
    replacer (placeholder path) path +:+ replace_placeholders replacer rest.
Proof.
  intros Hm. unfold replace_placeholders at 1.
  pose proof (match_placeholder_shorter _ _ _ Hm) as Hlt.
  destruct (String.length str) as [|n] eqn:Hn; [lia|].
  cbn [replace_from]. rewrite Hm. rewrite replace_from_fuel; [done|lia].
Qed.

Lemma replace_placeholders_other (c : ascii) (str : string) :
  match_placeholder (String c str) = None →
  replace_placeholders replacer (String c str) =
    String c (replace_placeholders replacer str).
Proof.
  intros Hm. unfold replace_placeholders at 1.
  cbn [String.length replace_from]. rewrite Hm. by rewrite replace_from_fuel.
Qed.

Lemma replace_placeholders_empty : replace_placeholders replacer "" = "".
Proof. reflexivity. Qed.

End replace.

(* a replacer that returns the match leaves the text as it is *)
Lemma replace_placeholders_id (replacer : string → string → string) (str : string) :
  (∀ path, replacer (placeholder path) path = placeholder path) →
  replace_placeholders replacer str = str.
Proof.
  intros Hid.
  remember (String.length str) as n eqn:Hn.
  revert str Hn. induction n as [n IH] using lt_wf_ind. intros str ->.
  destruct (match_placeholder str) as [[path rest]|] eqn:Hm.
  - rewrite (replace_placeholders_match _ _ _ _ Hm), Hid.
    pose proof (match_placeholder_shorter _ _ _ Hm) as Hlt.
    rewrite (IH _ Hlt rest eq_refl).
    by apply match_placeholder_inv in Hm as (-> & _ & _).
  - destruct str as [|c str]; [done|].
    rewrite (replace_placeholders_other _ _ _ Hm).
    by rewrite (IH (String.length str) (Nat.lt_succ_diag_r _) str eq_refl).
Qed.

(** ** Path resolution *)


(* a replacer that returns the match at every token of a text leaves the
   text as it is *)
Lemma paths_in_append (p s : string) (path : string) :
  path ∈ paths_in s → path ∈ paths_in (p +:+ s).
Proof.
  intros Hin. induction p as [|c p IH]; [done|].
  change (String c p +:+ s) with (String c (p +:+ s)).
  cbn [paths_in]. apply elem_of_app. by right.
Qed.

Lemma paths_in_match (s path rest : string) :
  match_placeholder s = Some (path, rest) → path ∈ paths_in s.
Proof.
  intros Hm. destruct s as [|c s]; cbn [paths_in]; rewrite Hm;
    apply elem_of_app; left; constructor.
Qed.

Lemma replace_placeholders_inert (replacer : string → string → string)
    (str : string) :
  (∀ path, path ∈ paths_in str → replacer (placeholder path) path = placeholder path) →
  replace_placeholders replacer str = str.
Proof.
  remember (String.length str) as n eqn:Hn.
  revert str Hn. induction n as [n IH] using lt_wf_ind. intros str -> Hid.
  destruct (match_placeholder str) as [[path rest]|] eqn:Hm.
  - rewrite (replace_placeholders_match _ _ _ _ Hm), (Hid _ (paths_in_match _ _ _ Hm)).
    pose proof (match_placeholder_shorter _ _ _ Hm) as Hlt.
    pose proof Hm as (Hstr & _ & _)%match_placeholder_inv.
    rewrite (IH _ Hlt rest eq_refl); [by rewrite Hstr|].
    intros path' Hin. apply Hid. rewrite Hstr. by apply paths_in_append.
  - destruct str as [|c str]; [done|].
    rewrite (replace_placeholders_other _ _ _ Hm).
    rewrite (IH (String.length str) (Nat.lt_succ_diag_r _) str eq_refl); [done|].
    intros path Hin. apply Hid. cbn [paths_in]. apply elem_of_app. by right.
Qed.

(** ** Texts *)


Lemma no_dot_append (s t : string) :
  no_dot (s +:+ t) = no_dot s && no_dot t.
Proof.
  induction s as [|c s IH]; [done|]. rewrite append_String. cbn.
  by rewrite IH, andb_assoc.
Qed.






(** ** Path resolution *)

Section getNestedValue.
Context `{Runtime num}.
Local Abbreviation value := (value num).
Import variableFunctions.

Lemma get_property_normal (current : value) (key : string) :
  is_nullish current = false → ∃ v, get_property current key = Normal v.
Proof.
  destruct current as [| |b|n|s|items|entries|proto entries|name]; try done;
    intros _; cbn; eauto.
  - destruct (string_own key s); [eauto|]. destruct (array_index key); eauto.
  - destruct (array_own key items); [eauto|]. destruct (array_index key); eauto.
  - destruct (obj_get key entries); [eauto|].
    destruct (chain_get key proto); [eauto|].
    destruct (chain_root proto); eauto.
Qed.

Lemma getNestedValue_from_undefined (keys : list string) :
  getNestedValue_from (VUndefined : value) keys = Normal VUndefined.
Proof. by destruct keys. Qed.





Lemma obj_get_has_key (key : string) (entries : list (string * value)) :
  has_key key entries = false → obj_get key entries = None.
Proof.
  induction entries as [|[k v] entries IH]; [done|]. cbn.
  destruct (String.eqb k key); [done|]. apply IH.
Qed.

Lemma object_member_none (key : string) :
  inherited_name key = false → object_member key = (VUndefined : value).
Proof.
  unfold inherited_name, object_member.
  induction Object_prototype as [|member members IH]; [done|]. cbn.
  destruct (String.eqb member.1 key); [done|]. apply IH.
Qed.




Lemma split_dots_cons (path : string) : ∃ key keys, split_dots path = key :: keys.
Proof.
  induction path as [|c path (key & keys & IH)]; cbn; [eauto|].
  destruct (Ascii.eqb c "."); [eauto|]. rewrite IH. eauto.
Qed.

(* in the empty context a path finds what its first segment names among
   the members every object inherits *)
Lemma getNestedValue_empty_context (path : string) :
  inherited_name (first_segment path) = false →
  getNestedValue (VObj [] : value) (trim path) = Normal VUndefined.
Proof.
  unfold first_segment, getNestedValue.
  destruct (split_dots_cons (trim path)) as (key & keys & ->). intros Hkey.
  cbn. destruct (digits_only key); [done|]. cbn.
  rewrite (object_member_none _ Hkey). apply getNestedValue_from_undefined.
Qed.

(** ** The segments of a path *)

Lemma split_dots_no_dot (s : string) : no_dot s = true → split_dots s = [s].
Proof.
  induction s as [|c s IH]; [done|]. cbn. intros [Hc Hs]%andb_true_iff.
  apply negb_true_iff in Hc. by rewrite Hc, (IH Hs).
Qed.

Lemma split_dots_append (p q : string) :
  split_dots (p +:+ "." +:+ q) = split_dots p ++ split_dots q.
Proof.
  induction p as [|c p IH].
  { done. }
  rewrite append_String. cbn. destruct (Ascii.eqb c ".").
  { by rewrite IH. }
  rewrite IH. by destruct (split_dots_cons p) as (key & keys & ->).
Qed.

Lemma fold_left_join (separator p : string) (ps : list string) :
  fold_left (λ acc q, acc +:+ separator +:+ q) ps p =
    p +:+ match ps with
          | [] => ""
          | q :: qs => separator +:+ fold_left (λ acc q, acc +:+ separator +:+ q) qs q
          end.
Proof.
  revert p. induction ps as [|q ps IH]; intros p; cbn [fold_left].
  { clear. induction p as [|c p IH]; [done|]. by rewrite append_String, <- IH. }
  by rewrite (IH (p +:+ separator +:+ q)), (IH q), !append_assoc.
Qed.

Lemma join_texts_cons (separator p q : string) (ps : list string) :
  join_texts separator (p :: q :: ps) =
    p +:+ separator +:+ join_texts separator (q :: ps).
Proof. unfold join_texts. by rewrite fold_left_join. Qed.

Lemma join_texts_String (separator : string) (c : ascii) (p : string)
    (ps : list string) :
  join_texts separator (String c p :: ps) = String c (join_texts separator (p :: ps)).
Proof.
  destruct ps as [|q ps]; [done|]. by rewrite !join_texts_cons, append_String.
Qed.

Lemma join_texts_split_dots (path : string) :
  join_texts "." (split_dots path) = path.
Proof.
  induction path as [|c path IH]; [done|]. cbn [split_dots].
  destruct (split_dots_cons path) as (key & keys & Hpath). rewrite Hpath in IH |- *.
  destruct (Ascii.eqb_spec c ".") as [->|_].
  - by rewrite join_texts_cons, IH.
  - by rewrite join_texts_String, IH.
Qed.

Lemma split_dots_join_texts (key : string) (keys : list string) :
  forallb no_dot (key :: keys) = true →
  split_dots (join_texts "." (key :: keys)) = key :: keys.
Proof.
  revert key. induction keys as [|k keys IH]; intros key Hkeys.
  - cbn in Hkeys. apply andb_true_iff in Hkeys as [Hkey _].
    by apply split_dots_no_dot.
  - cbn [forallb] in Hkeys. apply andb_true_iff in Hkeys as [Hkey Hkeys].
    rewrite join_texts_cons, split_dots_append, (split_dots_no_dot _ Hkey).
    by rewrite (IH _ Hkeys).
Qed.



(** ** Substitution in a string *)

Lemma substituteInString_placeholder (context : value) (path rest : string) :
  path ≠ "" → no_rbrace path = true →
  substituteInString (placeholder path +:+ rest) context =
    resolve_placeholder context (placeholder path) path
    +:+ substituteInString rest context.
Proof.
  intros Hne Hp. unfold substituteInString.
  by apply replace_placeholders_match, match_placeholder_placeholder.
Qed.



Lemma substituteInString_empty_context (str : string) :
  inert_text str = true → substituteInString str (VObj [] : value) = str.
Proof.
  intros Hinert. apply replace_placeholders_inert. intros path Hin.
  unfold resolve_placeholder. rewrite getNestedValue_empty_context; [done|].
  unfold inert_text in Hinert. rewrite forallb_forall in Hinert.
  by apply negb_true_iff, Hinert, list_elem_of_In.
Qed.

End getNestedValue.
(** ** Objects in enumeration order *)

Section objects.
Context `{Runtime num}.
Local Abbreviation value := (value num).

Lemma key_before_trans (k1 k2 k3 : string) :
  key_before k1 k2 = true → key_before k2 k3 = true → key_before k1 k3 = true.
Proof.
  unfold key_before.
  destruct (array_index k1) as [n1|], (array_index k2) as [n2|],
    (array_index k3) as [n3|]; try done.
  rewrite !N.ltb_lt. lia.
Qed.

Lemma enumeration_order_last (k : string) (keys : list string) (last : string) :
  enumeration_order (k :: keys ++ [last]) = true → key_before k last = true.
Proof.
  revert k. induction keys as [|k' keys IH]; intros k; cbn.
  { by rewrite !andb_true_r. }
  intros [Hk Hrest]%andb_true_iff.
  eapply key_before_trans; [done|]. by apply IH.
Qed.

Lemma enumeration_order_tail (k : string) (keys : list string) :
  enumeration_order (k :: keys) = true → enumeration_order keys = true.
Proof. cbn. by intros [_ ?]%andb_true_iff. Qed.

Lemma enumeration_order_init (keys : list string) (last : string) :
  enumeration_order (keys ++ [last]) = true → enumeration_order keys = true.
Proof.
  induction keys as [|k keys IH]; [done|].
  intros Hall. pose proof (enumeration_order_tail _ _ Hall) as Htail.
  cbn in Hall |- *. rewrite (IH Htail), andb_true_r.
  destruct keys as [|k' keys]; [done|].
  cbn in Hall. by apply andb_true_iff in Hall as [? _].
Qed.

Lemma distinct_init (keys : list string) (last : string) :
  distinct (keys ++ [last]) = true →
  distinct keys = true ∧ existsb (λ k, String.eqb k last) keys = false.
Proof.
  induction keys as [|k keys IH]; [done|]. cbn.
  intros [Hk Hrest]%andb_true_iff. destruct (IH Hrest) as [Hd Hlast].
  apply negb_true_iff in Hk. rewrite existsb_app in Hk.
  apply orb_false_iff in Hk as [Hk Hkl]. cbn in Hkl.
  rewrite orb_false_r in Hkl. by rewrite Hk, Hd, Hkl, Hlast.
Qed.

Lemma has_key_existsb (key : string) (o : list (string * value)) :
  has_key key o = existsb (λ k, String.eqb k key) (map fst o).
Proof. induction o as [|[k v] o IH]; [done|]. cbn. by rewrite IH. Qed.

Lemma obj_insert_index_last (n : N) (key : string) (v : value)
    (o : list (string * value)) :
  array_index key = Some n →
  enumeration_order (map fst o ++ [key]) = true →
  obj_insert_index n key v o = o ++ [(key, v)].
Proof.
  intros Hkey. induction o as [|[k w] o IH]; [done|]. intros Horder.
  pose proof (enumeration_order_last _ _ _ Horder) as Hbefore.
  unfold key_before in Hbefore. rewrite Hkey in Hbefore. cbn in Hbefore |- *.
  destruct (array_index k) as [m|]; [|done].
  rewrite Hbefore. f_equal. apply IH. exact (enumeration_order_tail k _ Horder).
Qed.

(* a key that comes next in enumeration order is added at the end *)
Lemma obj_set_last (key : string) (v : value) (o : list (string * value)) :
  distinct (map fst o ++ [key]) = true →
  enumeration_order (map fst o ++ [key]) = true →
  obj_set key v o = o ++ [(key, v)].
Proof.
  intros [_ Hfresh]%distinct_init Horder. unfold obj_set.
  rewrite has_key_existsb, Hfresh.
  destruct (array_index key) as [n|] eqn:Hkey; [|done].
  by apply obj_insert_index_last.
Qed.


(* every later key of an enumeration comes after an earlier one *)
Lemma enumeration_order_later (k : string) (keys : list string) :
  enumeration_order (k :: keys) = true →
  Forall (λ k', key_before k k' = true) keys.
Proof.
  revert k. induction keys as [|k' keys IH]; intros k; [by constructor|].
  intros Hall. pose proof Hall as Htail%enumeration_order_tail.
  cbn in Hall. apply andb_true_iff in Hall as [Hk _].
  constructor; [done|].
  eapply Forall_impl; [by apply IH|]. cbn. intros k'' Hk''.
  by eapply key_before_trans.
Qed.

(* an enumeration without some of its keys is an enumeration *)
Lemma enumeration_order_filter (p : string → bool) (keys : list string) :
  enumeration_order keys = true → enumeration_order (List.filter p keys) = true.
Proof.
  induction keys as [|k keys IH]; [done|]. intros Hall.
  pose proof (enumeration_order_later _ _ Hall) as Hlater.
  pose proof (IH (enumeration_order_tail _ _ Hall)) as Hrest.
  cbn [List.filter]. destruct (p k); [|done].
  cbn [enumeration_order]. rewrite Hrest, andb_true_r.
  destruct (List.filter p keys) as [|k' keys'] eqn:Hfilter; [done|].
  rewrite Forall_forall in Hlater. apply Hlater.
  apply list_elem_of_In, (proj1 (List.filter_In p k' keys)).
  rewrite Hfilter. by left.
Qed.

Lemma existsb_filter (p q : string → bool) (keys : list string) :
  existsb q keys = false → existsb q (List.filter p keys) = false.
Proof.
  induction keys as [|k keys IH]; [done|]. cbn.
  intros [Hk Hkeys]%orb_false_iff. destruct (p k); cbn; [rewrite Hk|]; auto.
Qed.

Lemma distinct_filter (p : string → bool) (keys : list string) :
  distinct keys = true → distinct (List.filter p keys) = true.
Proof.
  induction keys as [|k keys IH]; [done|]. cbn.
  intros [Hk Hkeys]%andb_true_iff. destruct (p k); [|auto].
  cbn. rewrite (IH Hkeys), andb_true_r.
  apply negb_true_iff, existsb_filter. by apply negb_true_iff.
Qed.

Lemma map_fst_kept (entries : list (string * value)) :
  map fst (kept entries) =
    List.filter (λ k, negb (String.eqb k "__proto__")) (map fst entries).
Proof.
  induction entries as [|[k v] entries IH]; [done|]. unfold kept in *. cbn.
  destruct (String.eqb k "__proto__"); cbn; by rewrite IH.
Qed.

Lemma kept_app (entries entries' : list (string * value)) :
  kept (entries ++ entries') = kept entries ++ kept entries'.
Proof. unfold kept. apply List.filter_app. Qed.

Lemma has_key_kept (entries : list (string * value)) :
  has_key "__proto__" (kept entries) = false.
Proof.
  induction entries as [|[k v] entries IH]; [done|]. unfold kept in *. cbn.
  destruct (String.eqb k "__proto__") eqn:Hk; cbn; [done|]. by rewrite Hk.
Qed.

Lemma kept_without (entries : list (string * value)) :
  has_key "__proto__" entries = false → kept entries = entries.
Proof.
  induction entries as [|[k v] entries IH]; [done|]. unfold kept in *. cbn.
  intros [Hk Hrest]%orb_false_iff. rewrite Hk. cbn. by rewrite (IH Hrest).
Qed.

Lemma obj_get_app (key : string) (o o' : list (string * value)) :
  obj_get key (o ++ o') =
    match obj_get key o with
    | Some v => Some v
    | None => obj_get key o'
    end.
Proof.
  induction o as [|[k v] o IH]; [done|]. cbn. by destruct (String.eqb k key).
Qed.

Section rebuild.
Context (f : value → value).

Lemma rebuild_entries_keys (entries : list (string * value)) :
  map fst (map (λ entry, (entry.1, f entry.2)) entries) = map fst entries.
Proof. rewrite map_map. by apply map_ext. Qed.

Lemma has_key_rebuilt (key : string) (entries : list (string * value)) :
  has_key key (map (λ entry, (entry.1, f entry.2)) entries) = has_key key entries.
Proof. by rewrite !has_key_existsb, rebuild_entries_keys. Qed.

(* the loop [for (const [key, value] of Object.entries(obj))
   result[key] = f(value)] rebuilds the entries one by one, but for the
   one under [__proto__] *)
Lemma rebuild_entries (entries : list (string * value)) :
  is_object entries = true →
  fold_left (λ result entry, assign entry.1 (f entry.2) result) entries (None, []) =
    (match obj_get "__proto__" entries with
     | Some v => if is_prototype (f v) then Some (f v) else None
     | None => None
     end,
     map (λ entry, (entry.1, f entry.2)) (kept entries)).
Proof.
  unfold is_object.
  induction entries as [|[k v] entries IH] using rev_ind.
  { done. }
  rewrite map_app. cbn [map fst]. intros [Hd Ho]%andb_true_iff.
  rewrite fold_left_app, kept_app, map_app, obj_get_app. cbn [fold_left fst snd].
  pose proof Hd as [Hdistinct Hfresh]%distinct_init.
  rewrite IH; cycle 1.
  { by rewrite Hdistinct, (enumeration_order_init _ _ Ho). }
  unfold assign.
  destruct (String.eqb k "__proto__") eqn:Hk.
  - apply String.eqb_eq in Hk as ->.
    rewrite <- has_key_existsb in Hfresh.
    rewrite (obj_get_has_key _ _ Hfresh), has_key_rebuilt, has_key_kept.
    cbn. rewrite app_nil_r. by destruct (is_prototype (f v)).
  - cbn [andb]. unfold kept at 3. cbn [List.filter fst]. rewrite Hk. cbn [negb map app].
    assert (obj_get "__proto__" [(k, v)] = None) as Hlast by (cbn; by rewrite Hk).
    assert (match obj_get "__proto__" entries with
            | Some v0 => Some v0
            | None => obj_get "__proto__" [(k, v)]
            end = obj_get "__proto__" entries) as ->.
    { rewrite Hlast. by destruct (obj_get "__proto__" entries). }
    f_equal. apply obj_set_last.
    + rewrite rebuild_entries_keys, map_fst_kept.
      replace (List.filter _ (map fst entries) ++ [k])
        with (List.filter (λ k, negb (String.eqb k "__proto__")) (map fst entries ++ [k])).
      { by apply distinct_filter. }
      rewrite List.filter_app. cbn. by rewrite Hk.
    + rewrite rebuild_entries_keys, map_fst_kept.
      replace (List.filter _ (map fst entries) ++ [k])
        with (List.filter (λ k, negb (String.eqb k "__proto__")) (map fst entries ++ [k])).
      { by apply enumeration_order_filter. }
      rewrite List.filter_app. cbn. by rewrite Hk.
Qed.

End rebuild.

(* the object branch of [substituteVariables] on the entries of an
   object *)
Lemma substituteVariables_entries (context : value)
    (entries : list (string * value)) :
  is_object entries = true →
  substituteVariables (VObj entries) context =
    match obj_get "__proto__" entries with
    | Some v =>
        if is_prototype (substituteVariables v context)
        then VProto (substituteVariables v context)
               (map (λ entry, (entry.1, substituteVariables entry.2 context))
                  (kept entries))
        else VObj (map (λ entry, (entry.1, substituteVariables entry.2 context))
                     (kept entries))
    | None =>
        VObj (map (λ entry, (entry.1, substituteVariables entry.2 context)) entries)
    end.
Proof.
  intros Hobj. cbn [substituteVariables].
  rewrite (rebuild_entries (λ v, substituteVariables v context) _ Hobj).
  destruct (obj_get "__proto__" entries) as [v|] eqn:Hproto.
  - by destruct (is_prototype (substituteVariables v context)).
  - cbn. rewrite kept_without; [done|].
    destruct (has_key "__proto__" entries) eqn:Hkey; [|done].
    clear -Hproto Hkey. induction entries as [|[k w] entries IH]; [done|].
    cbn in *. destruct (String.eqb k "__proto__"); [done|]. auto.
Qed.

(** C8, as the code has it.  A sequence is resolved element by element,
    in order; a mapping is resolved value by value, under its keys other
    than [__proto__], in the same order; numbers, booleans, null and
    undefined are returned as they are.  What a mapping holds under
    [__proto__] is resolved too, but not kept as an entry: it becomes the
    prototype of the result when it is an object or null, and is dropped
    otherwise. *)
Theorem substituteVariables_structure (context : value)
    (items : list value) (entries : list (string * value)) :
  is_object entries = true →
  substituteVariables (VArr items) context =
    VArr (map (λ item, substituteVariables item context) items)
  ∧ substituteVariables (VObj entries) context =
      match obj_get "__proto__" entries with
      | Some v =>
          if is_prototype (substituteVariables v context)
          then VProto (substituteVariables v context)
                 (map (λ entry, (entry.1, substituteVariables entry.2 context))
                    (kept entries))
          else VObj (map (λ entry, (entry.1, substituteVariables entry.2 context))
                       (kept entries))
      | None =>
          VObj (map (λ entry, (entry.1, substituteVariables entry.2 context)) entries)
      end
  ∧ (∀ n, substituteVariables (VNum n) context = VNum n)
  ∧ (∀ b, substituteVariables (VBool b) context = VBool b)
  ∧ substituteVariables VNull context = VNull
  ∧ substituteVariables VUndefined context = VUndefined.
Proof.
  intros Hobj. split_and!; try done.
  by apply substituteVariables_entries.
Qed.

Lemma substituteVariables_object (context : value)
    (entries : list (string * value)) :
  is_object entries = true → has_key "__proto__" entries = false →
  substituteVariables (VObj entries) context =
    VObj (map (λ entry, (entry.1, substituteVariables entry.2 context)) entries).
Proof.
  intros Hobj Hkey.
  rewrite (substituteVariables_entries context entries Hobj).
  by rewrite (obj_get_has_key _ _ Hkey).
Qed.

(** C9, as the code has it.  Resolved against the empty context, a value
    comes back as it is, provided it is made of ordinary objects, none
    with a key [__proto__], and none of its tokens starts with a name
    every object inherits. *)
Theorem substituteVariables_empty_context (v : value) :
  well_formed v = true → ordinary v = true → inert v = true →
  substituteVariables v (VObj []) = v.
Proof.
  induction v as [| | | |s|items IH|entries IH|proto entries _ _|name]
    using value_ind; try done.
  - intros _ _ Hinert. cbn in Hinert |- *.
    by rewrite substituteInString_empty_context.
  - cbn [well_formed ordinary inert substituteVariables].
    intros Hwf Hord Hinert. f_equal.
    rewrite <- (map_id items) at 2. apply map_ext_in. intros item Hin.
    rewrite Forall_forall in IH. rewrite forallb_forall in Hwf, Hord, Hinert.
    apply IH; [by apply list_elem_of_In|auto..].
  - cbn [well_formed ordinary inert].
    intros [Hobj Hwf]%andb_true_iff [Hkey Hord]%andb_true_iff Hinert.
    apply negb_true_iff in Hkey.
    rewrite (substituteVariables_object _ _ Hobj Hkey).
    f_equal. rewrite <- (map_id entries) at 2. apply map_ext_in.
    intros [k w] Hin. cbn. f_equal.
    rewrite Forall_forall in IH. rewrite forallb_forall in Hwf, Hord, Hinert.
    apply (IH (k, w)); [by apply list_elem_of_In|..].
    + by apply (Hwf (k, w)).
    + by apply (Hord (k, w)).
    + by apply (Hinert (k, w)).
Qed.

End objects.

(** * Further properties of the resolver *)

Section resolver_more.
Context `{Runtime num}.
Local Abbreviation value := (value num).

Lemma no_open_tail (c : ascii) (s : string) :
  no_open (String c s) = true → no_open s = true.
Proof.
  intros Hs. change (no_open (String c s)) with
    (match s with
     | String c' _ => negb (Ascii.eqb c "{" && Ascii.eqb c' "{")
     | "" => true
     end && no_open s) in Hs.
  by apply andb_true_iff in Hs as [_ ?].
Qed.

Lemma no_open_no_match (s : string) :
  no_open s = true → match_placeholder s = None.
Proof.
  intros Hs. destruct (match_placeholder s) as [[path rest]|] eqn:Hm; [|done].
  apply match_placeholder_inv in Hm as [-> _]. unfold placeholder in Hs.
  change ("{{" +:+ path +:+ "}}") with (String "{" (String "{" (path +:+ "}}"))) in Hs.
  rewrite !append_String in Hs. done.
Qed.

Lemma replace_placeholders_no_open (replacer : string → string → string)
    (s : string) :
  no_open s = true → replace_placeholders replacer s = s.
Proof.
  induction s as [|c s IH]; [done|]. intros Hs.
  rewrite (replace_placeholders_other _ _ _ (no_open_no_match _ Hs)).
  by rewrite (IH (no_open_tail _ _ Hs)).
Qed.

(** X1.  A value made of ordinary objects, none with a key [__proto__],
    and none of whose texts holds two opening braces in a row, comes back
    from [substituteVariables] as it is, whatever the context: without an
    opening pair the pattern matches nowhere. *)
Theorem substituteVariables_plain (v context : value) :
  well_formed v = true → ordinary v = true → plain v = true →
  substituteVariables v context = v.
Proof.
  induction v as [| | | |s|items IH|entries IH|proto entries _ _|name]
    using value_ind; try done.
  - intros _ _ Hs. cbn in Hs |- *. unfold substituteInString.
    by rewrite replace_placeholders_no_open.
  - cbn [well_formed ordinary plain substituteVariables].
    intros Hwf Hord Hplain. f_equal.
    rewrite <- (map_id items) at 2. apply map_ext_in. intros item Hin.
    rewrite Forall_forall in IH. rewrite forallb_forall in Hwf, Hord, Hplain.
    apply IH; [by apply list_elem_of_In|auto..].
  - cbn [well_formed ordinary plain].
    intros [Hobj Hwf]%andb_true_iff [Hkey Hord]%andb_true_iff Hplain.
    apply negb_true_iff in Hkey.
    rewrite (substituteVariables_object _ _ Hobj Hkey).
    f_equal. rewrite <- (map_id entries) at 2. apply map_ext_in.
    intros [k w] Hin. cbn. f_equal.
    rewrite Forall_forall in IH. rewrite forallb_forall in Hwf, Hord, Hplain.
    apply (IH (k, w)); [by apply list_elem_of_In|by apply (Hwf (k, w))
                       |by apply (Hord (k, w))|by apply (Hplain (k, w))].
Qed.

Lemma is_object_keys (entries entries' : list (string * value)) :
  map fst entries' = map fst entries →
  is_object entries = true → is_object entries' = true.
Proof. unfold is_object. by intros ->. Qed.

(** X2.  On a value made of ordinary objects, none with a key
    [__proto__], substitution keeps the shape, at every depth: scalars
    stay, a text gives a text, an array an array of the same length, an
    object an object with the same keys in the same order; and what comes
    back is again made of such objects, in enumeration order. *)
Theorem substituteVariables_same_shape (v context : value) :
  well_formed v = true → ordinary v = true →
  same_shape v (substituteVariables v context)
  ∧ well_formed (substituteVariables v context) = true
  ∧ ordinary (substituteVariables v context) = true.
Proof.
  induction v as [| | | |s|items IH|entries IH|proto entries _ _|name]
    using value_ind; try done;
    try (intros _ _; split; [constructor|done]).
  - cbn [well_formed ordinary substituteVariables]. intros Hwf Hord.
    rewrite forallb_forall in Hwf, Hord. rewrite Forall_forall in IH.
    split_and!.
    + constructor. apply Forall2_fmap_r, Forall_Forall2_diag, Forall_forall.
      intros item Hin. apply IH; [done|by apply Hwf, list_elem_of_In
                                 |by apply Hord, list_elem_of_In].
    + apply forallb_forall. intros item' [item [<- Hin]]%in_map_iff.
      apply IH; [by apply list_elem_of_In|by apply Hwf|by apply Hord].
    + apply forallb_forall. intros item' [item [<- Hin]]%in_map_iff.
      apply IH; [by apply list_elem_of_In|by apply Hwf|by apply Hord].
  - cbn [well_formed ordinary].
    intros [Hobj Hwf]%andb_true_iff [Hkey Hord]%andb_true_iff.
    apply negb_true_iff in Hkey.
    rewrite (substituteVariables_object _ _ Hobj Hkey).
    rewrite forallb_forall in Hwf, Hord. rewrite Forall_forall in IH.
    split_and!.
    + constructor. apply Forall2_fmap_r, Forall_Forall2_diag, Forall_forall.
      intros entry Hin. split; [done|]. cbn.
      apply IH; [done|by apply Hwf, list_elem_of_In|by apply Hord, list_elem_of_In].
    + cbn [well_formed]. apply andb_true_iff. split.
      * eapply is_object_keys; [|done].
        apply (rebuild_entries_keys (λ v, substituteVariables v context)).
      * apply forallb_forall. intros entry' [entry [<- Hin]]%in_map_iff. cbn.
        apply IH; [by apply list_elem_of_In|by apply Hwf|by apply Hord].
    + cbn [ordinary]. apply andb_true_iff. split.
      * by rewrite (has_key_rebuilt (λ v, substituteVariables v context)), Hkey.
      * apply forallb_forall. intros entry' [entry [<- Hin]]%in_map_iff. cbn.
        apply IH; [by apply list_elem_of_In|by apply Hwf|by apply Hord].
Qed.

End resolver_more.

Lemma pretty_N_char_no_dot (x : N) : Ascii.eqb (pretty_N_char x) "." = false.
Proof. unfold pretty_N_char. by repeat case_match. Qed.

Lemma pretty_N_go_no_dot (x : N) (s : string) :
  no_dot s = true → no_dot (pretty_N_go x s) = true.
Proof.
  revert s. induction (N.lt_wf_0 x) as [x _ IH]. intros s Hs.
  destruct (decide (x = 0)%N) as [->|Hx].
  { by rewrite pretty_N_go_0. }
  rewrite pretty_N_go_step by lia. apply IH.
  - apply N.div_lt; lia.
  - cbn. by rewrite pretty_N_char_no_dot.
Qed.

Lemma pretty_nat_no_dot (i : nat) : no_dot (pretty i) = true.
Proof.
  unfold pretty, pretty_nat, pretty, pretty_N. case_decide; [done|].
  by apply pretty_N_go_no_dot.
Qed.

Section paths.
Context `{Runtime num}.
Local Abbreviation value := (value num).


Lemma obj_get_app_fresh (key : string) (v : value) (o o' : list (string * value)) :
  has_key key o = false → obj_get key (o ++ (key, v) :: o') = Some v.
Proof.
  induction o as [|[k u] o IH]; cbn.
  - by rewrite String.eqb_refl.
  - intros [Hk Ho]%orb_false_iff. rewrite Hk. by apply IH.
Qed.

Lemma obj_get_app_l (key : string) (v : value) (o o' : list (string * value)) :
  obj_get key o = Some v → obj_get key (o ++ o') = Some v.
Proof.
  induction o as [|[k u] o IH]; cbn; [done|]. destruct (String.eqb k key); auto.
Qed.

Lemma digits_only_letter (c : ascii) (s : string) :
  is_digit c = false → digits_only (String c s) = false.
Proof. intros Hc. unfold digits_only. cbn. by rewrite Hc. Qed.

(* one step of the loop of [getNestedValue] on an object *)
Lemma getNestedValue_from_object (entries : list (string * value)) (c : ascii)
    (key : string) (keys : list string) (v : value) :
  is_digit c = false → obj_get (String c key) entries = Some v →
  getNestedValue_from (VObj entries) (String c key :: keys) =
    getNestedValue_from v keys.
Proof.
  intros Hc Hget. cbn [getNestedValue_from is_nullish].
  rewrite (digits_only_letter _ _ Hc). cbn. by rewrite Hget.
Qed.

Lemma getNestedValue_from_absent (entries : list (string * value)) (c : ascii)
    (key : string) (keys : list string) :
  is_digit c = false → obj_get (String c key) entries = None →
  inherited_name (String c key) = false →
  getNestedValue_from (VObj entries) (String c key :: keys) = Normal VUndefined.
Proof.
  intros Hc Hget Hname. cbn [getNestedValue_from is_nullish].
  rewrite (digits_only_letter _ _ Hc). cbn. rewrite Hget, (object_member_none _ Hname).
  apply getNestedValue_from_undefined.
Qed.

End paths.

(** ** The transformation functions *)

Section functions.
Context `{Runtime num}.
Local Abbreviation value := (value num).
Import variableFunctions.

Lemma traverse_element_text (texts : list string) :
  traverse element_text (map VStr texts : list value) = Normal texts.
Proof. induction texts as [|t texts IH]; [done|]. cbn. by rewrite IH. Qed.

(** X13.  [join] with a dot undoes the [split('.')] of [getNestedValue]:
    the segments of a path joined give the path back, and keys without a
    dot, joined and split, give the keys back. *)
Theorem join_split_round_trip (path : string) (keys : list string) :
  join (VArr (map VStr (split_dots path))) (Some ".") = Normal path
  ∧ (keys ≠ [] → forallb no_dot keys = true →
     ∃ joined, join (VArr (map VStr keys)) (Some ".") = Normal joined
               ∧ split_dots joined = keys).
Proof.
  unfold join. cbn [default]. rewrite !traverse_element_text. cbn [then_]. split.
  - by rewrite join_texts_split_dots.
  - destruct keys as [|key keys]; [done|]. intros _ Hkeys.
    eexists. split; [done|]. by apply split_dots_join_texts.
Qed.

Lemma truthy_is_given (v : value) : truthy v = true → is_given v = true.
Proof. by destruct v. Qed.

(** X14.  [default] keeps every value that is truthy, and also every
    boolean and every number; what it returns is neither undefined, null
    nor the empty text exactly when one of its arguments is not; and
    fallbacks chain: [default(default(v, d), d') = default(v, default(d,
    d'))]. *)
Theorem default_chain (v d d' : value) :
  (truthy v = true → default v d = v)
  ∧ (∀ b, default (VBool b) d = VBool b)
  ∧ (∀ n, default (VNum n) d = VNum n)
  ∧ is_given (default v d) = is_given v || is_given d
  ∧ default (default v d) d' = default v (default d d').
Proof.
  unfold default. split_and!.
  - intros Hv. by rewrite (truthy_is_given _ Hv).
  - done.
  - done.
  - by destruct (is_given v) eqn:Hv.
  - destruct (is_given v) eqn:Hv; [by rewrite Hv|done].
Qed.

(** X15.  [first] and [last] give the two ends of an array that is not
    empty, [last] being [first] of the reversed array; the empty array
    comes back itself. *)
Theorem first_last_ends (items : list value) (item : value) :
  first (VArr (item :: items)) = item
  ∧ last (VArr (items ++ [item])) = item
  ∧ last (VArr (rev (item :: items))) = first (VArr (item :: items))
  ∧ count (VArr (item :: items)) = num_of_nat (S (length items))
  ∧ first (VArr [] : value) = VArr [] ∧ last (VArr [] : value) = VArr [].
Proof.
  assert (last (VArr (items ++ [item])) = item) as Hlast.
  { clear. unfold last. destruct (items ++ [item]) as [|x xs] eqn:Heq.
    { by destruct items. }
    rewrite <- Heq, length_app. cbn.
    rewrite lookup_app_r by lia.
    by replace (length items + 1 - 1 - length items)%nat with 0%nat by lia. }
  split_and!; try done.
  cbn [rev]. clear Hlast. unfold last.
  destruct (rev items ++ [item]) as [|x xs] eqn:Heq.
  { by destruct (rev items). }
  rewrite <- Heq, length_app. cbn.
  rewrite lookup_app_r by lia.
  by replace (length (rev items) + 1 - 1 - length (rev items))%nat with 0%nat by lia.
Qed.

End functions.

(** ** Running the monad *)

Section monad_lemmas.
Context {num World : Type}.
Local Abbreviation M := (@M num World).

Lemma bind_normal {A B} (m : M A) (k : A → M B) st a st' :
  m st = (Normal a, st') → bind m k st = k a st'.
Proof. unfold bind. by intros ->. Qed.

Lemma bind_throw {A B} (m : M A) (k : A → M B) st e st' :
  m st = (Throw e, st') → bind m k st = (Throw e, st').
Proof. unfold bind. by intros ->. Qed.

Lemma try_catch_normal {A} (m : M A) (handler : exn → M A) st a st' :
  m st = (Normal a, st') → try_catch m handler st = (Normal a, st').
Proof. unfold try_catch. by intros ->. Qed.

Lemma try_catch_throw {A} (m : M A) (handler : exn → M A) st e st' :
  m st = (Throw e, st') → try_catch m handler st = handler e st'.
Proof. unfold try_catch. by intros ->. Qed.

End monad_lemmas.

(** ** The terminal write *)

Section engine.
Context `{Runtime num} `{Handlers num World}.
Local Abbreviation value := (value num).
Local Abbreviation Store := (Store num World).
Local Abbreviation M := (@M num World).

Local Arguments find_workflow : simpl never.

(* a database that answers lets a call happen *)
Lemma attempt_answered {A} (query : M A) (st : Store) :
  refusals st = [] → attempt query st = query st.
Proof. unfold attempt. by intros ->. Qed.

Lemma joined_inv (execution_id : nat) (st : Store) row w :
  joined execution_id st = Some (row, w) →
  executions st !! execution_id = Some row
  ∧ find_workflow (execution_workflowId row) (workflows st) = Some w.
Proof.
  unfold joined. intros Hj.
  destruct (executions st !! execution_id) as [row'|]; [|done].
  cbn in Hj. destruct (find_workflow _ _) as [w'|] eqn:Hw; [|done].
  cbn in Hj. by injection Hj as [= <- <-].
Qed.

Lemma updateExecutionStatus_run (execution_id : nat) (status : string)
    (error : option string) (output : value) (st : Store) row w :
  refusals st = [] →
  joined execution_id st = Some (row, w) →
  updateExecutionStatus execution_id status error output st =
    (Normal (),
     written execution_id status error
       (if is_undefined output then VNull else output) row w st).
Proof.
  intros Hanswers [Hrow Hw]%joined_inv.
  unfold updateExecutionStatus, written, bind, new_Date, prisma_execution_update.
  rewrite attempt_answered by done.
  cbn [executions with_clock]. rewrite Hrow.
  destruct (String.eqb status "failed"); cbn.
  - unfold prisma_execution_findUnique. rewrite attempt_answered by done.
    cbn. rewrite list_lookup_insert_eq by (by eapply lookup_lt_Some).
    cbn. rewrite Hw. unfold prisma_notification_create.
    rewrite attempt_answered by done. cbn.
    by destruct error.
  - by rewrite app_nil_r.
Qed.

Lemma written_refusals (execution_id : nat) (status : string)
    (error : option string) (output : value) row w (st : Store) :
  refusals (written execution_id status error output row w st) = refusals st.
Proof. done. Qed.

(** ** What an action does to the database *)

Lemma call_refusals (handler : Store → completion (ActionResult num) * Store)
    (st : Store) :
  refusals (call handler st).2 = refusals st.
Proof. unfold call. by destruct (handler st). Qed.

Lemma executeNotificationAction_run (config : value)
    (context : WorkflowContext num) (st : Store) :
  refusals st = [] →
  ∃ r st', executeNotificationAction config context st = (Normal r, st')
           ∧ refusals st' = []
           ∧ workflows st' = workflows st ∧ executions st' = executions st
           ∧ (success r = false → is_Some (error r)).
Proof.
  intros Hanswers. unfold executeNotificationAction, try_catch, bind, lift.
  destruct (get_property config "message") as [message|e]; cbn.
  - unfold prisma_notification_create. rewrite attempt_answered by done. cbn.
    eexists _, _. by split_and!.
  - eexists _, _. split_and!; by eauto.
Qed.

(* a dispatch leaves the database answering *)
Lemma executeAction_refusals (action : value) (context : WorkflowContext num)
    (st : Store) :
  refusals st = [] → refusals (executeAction action context st).2 = [].
Proof.
  intros Hanswers. unfold executeAction, bind, lift.
  destruct (destructure_action action) as [[type config]|e]; cbn; [|done].
  repeat match goal with
  | |- context [if is_string type ?s then _ else _] => destruct (is_string type s)
  | |- refusals (call ?h st).2 = _ => by rewrite call_refusals
  end.
  - by destruct (executeNotificationAction_run config context st Hanswers)
      as (r & st1 & -> & ? & _).
  - by destruct (js_String type).
Qed.

Lemma executeAction_dispatch (action : value) (context : WorkflowContext num)
    (st : Store) c st' :
  executeAction action context st = (c, st') → dispatch st st'.
Proof. intros Hrun. exists action, context. by rewrite Hrun. Qed.

Lemma dispatches_step (st st' st'' : Store) :
  dispatch st st' → dispatches st' st'' → dispatches st st''.
Proof. intros. by eapply rtc_l. Qed.

Lemma call_reports_error (handler : value → WorkflowContext num → Store
                                    → completion (ActionResult num) * Store)
    (config : value) (context : WorkflowContext num) (st : Store) r st' :
  reports_error handler →
  call (handler config context) st = (Normal r, st') →
  success r = false → is_Some (error r).
Proof.
  intros Hreports. unfold call.
  destruct (handler config context st) as [c st1] eqn:Hrun.
  intros [= -> _]. apply (Hreports config context st). by rewrite Hrun.
Qed.

Lemma executeAction_reports_error (action : value)
    (context : WorkflowContext num) (st : Store) r st' :
  handlers_report_errors →
  refusals st = [] →
  executeAction action context st = (Normal r, st') →
  success r = false → is_Some (error r).
Proof.
  intros (Hemail & Hwebhook & Hdatabase & Hsms & Hdelay) Hanswers.
  unfold executeAction, bind, lift.
  destruct (destructure_action action) as [[type config]|e]; cbn; [|done].
  repeat match goal with
  | |- context [if is_string type ?s then _ else _] => destruct (is_string type s)
  | |- call (?h config context) st = _ → _ =>
      by apply (call_reports_error h)
  end.
  - destruct (executeNotificationAction_run config context st Hanswers)
      as (r1 & st1 & -> & _ & _ & _ & Herr).
    by intros [= <- <-].
  - destruct (js_String type); [|done]. intros [= <- <-]. by eauto.
Qed.
Lemma array_index_not_digit (c : ascii) (s : string) :
  is_digit c = false → array_index (String c s : string) = None.
Proof. intros Hc. unfold array_index. cbn [all_digits]. by rewrite Hc. Qed.

Lemma obj_set_fresh (key : string) (v : value) (o : list (string * value)) :
  has_key key o = false → array_index key = None →
  obj_set key v o = o ++ [(key, v)].
Proof. intros Hfresh Hindex. unfold obj_set. by rewrite Hfresh, Hindex. Qed.

Lemma obj_replace_same (key : string) (v : value) (o : list (string * value)) :
  (∀ w, obj_get key o = Some w → w = v) → obj_replace key v o = o.
Proof.
  induction o as [|[k w] o IH]; [done|]. cbn.
  destruct (String.eqb k key).
  - intros Hv. by rewrite (Hv w).
  - intros Hv. by rewrite IH.
Qed.

Lemma obj_set_same (key : string) (v : value) (o : list (string * value)) :
  has_key key o = true → (∀ w, obj_get key o = Some w → w = v) →
  obj_set key v o = o.
Proof. intros Hkey Hv. unfold obj_set. rewrite Hkey. by apply obj_replace_same. Qed.

Lemma has_key_app (key : string) (o o' : list (string * value)) :
  has_key key (o ++ o') = has_key key o || has_key key o'.
Proof.
  induction o as [|[k w] o IH]; [done|]. cbn. by rewrite IH, orb_assoc.
Qed.

Lemma append_inj_l (p s t : string) : p +:+ s = p +:+ t → s = t.
Proof.
  induction p as [|c p IH]; [done|]. rewrite !append_String.
  intros [= Heq]. by apply IH.
Qed.

Lemma append_length_inj (s s' t t' : string) :
  String.length s = String.length s' → s +:+ t = s' +:+ t' → s = s' ∧ t = t'.
Proof.
  revert s'. induction s as [|c s IH]; intros [|c' s']; try done.
  rewrite !append_String. cbn. intros [= Hlen] [= -> Heq].
  destruct (IH _ Hlen Heq) as [-> ->]. done.
Qed.

Lemma append_inj_r (s s' t : string) : s +:+ t = s' +:+ t → s = s'.
Proof.
  intros Heq. apply (append_length_inj s s' t t); [|done].
  apply (f_equal String.length) in Heq. rewrite !length_append in Heq. lia.
Qed.

Lemma action_key_inj (i j : nat) : action_key i = action_key j → i = j.
Proof. intros Heq%append_inj_l. by apply (inj pretty). Qed.

Lemma result_key_inj (i j : nat) : result_key i = result_key j → i = j.
Proof. intros Heq%append_inj_l%append_inj_r. by apply (inj pretty). Qed.

Lemma action_key_index (i : nat) : array_index (action_key i) = None.
Proof. by apply array_index_not_digit. Qed.

Lemma result_key_index (i : nat) : array_index (result_key i) = None.
Proof. by apply array_index_not_digit. Qed.


(** ** The trigger loop *)

Local Arguments updateExecutionStatus : simpl never.
Local Arguments executeAction : simpl never.
Local Arguments substituteVariables : simpl never.
Local Arguments written : simpl never.

Lemma recognised_text (type : value) :
  recognised type = true → ∃ name, type = VStr name.
Proof. destruct type; try done. by eauto. Qed.

Lemma validateTrigger_valid (trigger : value) (context : WorkflowContext num) :
  valid_trigger trigger = true →
  get_property trigger "type" = Normal (trigger_type trigger)
  ∧ (∃ name, js_String (trigger_type trigger) = Normal name
             ∧ trigger_key trigger = "trigger_" +:+ name)
  ∧ validateTrigger trigger context =
      Normal {| success := true; data := triggerData context; error := None |}.
Proof.
  unfold valid_trigger, validateTrigger, trigger_key, trigger_type, recognised.
  intros [Hnull Htype]%andb_true_iff. apply negb_true_iff in Hnull.
  destruct (get_property_normal trigger "type" Hnull) as [type Hget].
  rewrite Hget in Htype |- *. split; [done|]. split.
  { destruct (recognised_text type Htype) as [name ->]. by exists name. }
  cbn [then_].
  destruct (is_string type "webhook"); [done|].
  destruct (is_string type "manual"); [done|].
  destruct (is_string type "email"); [done|].
  by destruct (is_string type "schedule").
Qed.

Lemma validateTrigger_unknown (trigger type : value) (name : string)
    (context : WorkflowContext num) :
  get_property trigger "type" = Normal type → recognised type = false →
  js_String type = Normal name →
  validateTrigger trigger context =
    Normal {| success := false;
              data := VUndefined;
              error := Some ("Unknown trigger type: " +:+ name) |}.
Proof.
  unfold validateTrigger, recognised. intros -> Htype Hname. cbn [then_].
  repeat apply orb_false_iff in Htype as [Htype ?].
  repeat match goal with Hs : is_string _ _ = false |- _ => rewrite Hs; clear Hs end.
  by rewrite Hname.
Qed.

(* a type without a text makes the validation raise *)
Lemma validateTrigger_untyped (trigger type : value) (e : exn)
    (context : WorkflowContext num) :
  get_property trigger "type" = Normal type → recognised type = false →
  js_String type = Throw e →
  validateTrigger trigger context = Throw e.
Proof.
  unfold validateTrigger, recognised. intros -> Htype Hname. cbn [then_].
  repeat apply orb_false_iff in Htype as [Htype ?].
  repeat match goal with Hs : is_string _ _ = false |- _ => rewrite Hs; clear Hs end.
  by rewrite Hname.
Qed.

Lemma run_triggers_valid (execution_id : nat) (done rest : list value)
    (context : WorkflowContext num) (st : Store) :
  forallb valid_trigger done = true →
  run_triggers execution_id (done ++ rest) context st =
    run_triggers execution_id rest (after_triggers done context) st.
Proof.
  revert context. induction done as [|trigger done IH]; intros context; [done|].
  cbn [forallb]. intros [Hvalid Hdone]%andb_true_iff.
  destruct (validateTrigger_valid trigger context Hvalid)
    as (Htype & (name & Hname & Hkey) & Hresult).
  cbn [app run_triggers]. unfold bind, lift. rewrite Hresult. cbn.
  rewrite Htype, Hname. cbn. rewrite <- Hkey. by apply IH.
Qed.

Lemma run_triggers_unknown (execution_id : nat) (trigger type : value)
    (name : string) (rest : list value) (context : WorkflowContext num)
    (st : Store) row w :
  get_property trigger "type" = Normal type → recognised type = false →
  js_String type = Normal name →
  refusals st = [] → joined execution_id st = Some (row, w) →
  let message := "Unknown trigger type: " +:+ name in
  run_triggers execution_id (trigger :: rest) context st =
    (Normal (Return context
               {| result := {| success := false; data := VUndefined;
                               error := Some message |};
                  executionId := execution_id |}),
     written execution_id "failed" (Some message) VNull row w st).
Proof.
  intros Htype Hunknown Hname Hanswers Hrow message.
  cbn [run_triggers]. unfold bind, lift.
  rewrite (validateTrigger_unknown _ _ _ _ Htype Hunknown Hname). cbn.
  by rewrite (updateExecutionStatus_run _ _ _ _ _ _ _ Hanswers Hrow).
Qed.

(* a trigger loop ends in one of three ways *)
Lemma run_triggers_shape (execution_id : nat) (triggers : list value)
    (context : WorkflowContext num) (st : Store) row w :
  refusals st = [] → joined execution_id st = Some (row, w) →
  (forallb valid_trigger triggers = true
   ∧ run_triggers execution_id triggers context st =
       (Normal (Continue (after_triggers triggers context)), st))
  ∨ (∃ context' message,
       run_triggers execution_id triggers context st =
         (Normal (Return context'
                    {| result := {| success := false; data := VUndefined;
                                    error := Some message |};
                       executionId := execution_id |}),
          written execution_id "failed" (Some message) VNull row w st))
  ∨ (∃ e, run_triggers execution_id triggers context st = (Throw e, st)).
Proof.
  intros Hanswers Hrow. revert context.
  induction triggers as [|trigger triggers IH]; intros context.
  { by left. }
  destruct (is_nullish trigger) eqn:Hnull.
  { right; right. cbn [run_triggers]. unfold bind, lift, validateTrigger.
    destruct trigger; try done; cbn; eauto. }
  destruct (get_property_normal trigger "type" Hnull) as [type Htype].
  destruct (recognised type) eqn:Hknown.
  - assert (valid_trigger trigger = true) as Hvalid.
    { unfold valid_trigger, trigger_type. by rewrite Hnull, Htype. }
    pose proof (run_triggers_valid execution_id [trigger] triggers context st) as Hstep.
    cbn [forallb app] in Hstep. rewrite Hvalid in Hstep. rewrite (Hstep eq_refl).
    destruct (IH (after_triggers [trigger] context))
      as [[Hall Hrun]|[(c & m & Hrun)|(e & Hrun)]].
    + left. cbn [forallb]. by rewrite Hvalid, Hall.
    + right; left. eauto.
    + right; right. eauto.
  - destruct (js_String type) as [name|e] eqn:Hname.
    + right; left. eexists _, _.
      by apply (run_triggers_unknown _ _ type name _ _ _ row w).
    + right; right. exists e. cbn [run_triggers]. unfold bind, lift.
      by rewrite (validateTrigger_untyped _ _ _ _ Htype Hknown Hname).
Qed.

Lemma after_triggers_cons (t : value) (done : list value)
    (context : WorkflowContext num) :
  after_triggers (t :: done) context =
    after_triggers done (set_stepResult (trigger_key t) (triggerData context) context).
Proof. reflexivity. Qed.

Lemma after_triggers_fields (done : list value) (context : WorkflowContext num) :
  workflowId (after_triggers done context) = workflowId context
  ∧ userId (after_triggers done context) = userId context
  ∧ triggerData (after_triggers done context) = triggerData context
  ∧ variables (after_triggers done context) = variables context.
Proof.
  revert context. induction done as [|t done IH]; intros context; [done|].
  rewrite after_triggers_cons.
  destruct (IH (set_stepResult (trigger_key t) (triggerData context) context))
    as (-> & -> & -> & ->). done.
Qed.

Lemma trigger_key_index (trigger : value) : array_index (trigger_key trigger) = None.
Proof. by apply array_index_not_digit. Qed.

Lemma obj_get_constant (key : string) (keys : list string) (v w : value) :
  obj_get key (map (λ k, (k, v)) keys) = Some w → w = v.
Proof.
  induction keys as [|k keys IH]; [done|]. cbn.
  destruct (String.eqb k key); [by intros [= <-]|done].
Qed.

Lemma after_triggers_stepResults (done : list value)
    (context : WorkflowContext num) (seen : list string) :
  stepResults context = map (λ k, (k, triggerData context)) seen →
  stepResults (after_triggers done context) =
    map (λ k, (k, triggerData context))
      (fold_left
         (λ seen k, if existsb (λ k', String.eqb k' k) seen then seen else seen ++ [k])
         (map trigger_key done) seen).
Proof.
  revert context seen. induction done as [|t done IH]; intros context seen Hseen.
  { done. }
  rewrite after_triggers_cons. cbn [fold_left map].
  rewrite (IH _ (if existsb (λ k', String.eqb k' (trigger_key t)) seen
                 then seen else seen ++ [trigger_key t])); [done|].
  cbn [set_stepResult stepResults triggerData]. rewrite Hseen.
  destruct (existsb _ seen) eqn:Hin.
  - apply obj_set_same.
    + rewrite has_key_existsb, map_map. cbn. by rewrite map_id.
    + intros w. apply obj_get_constant.
  - rewrite obj_set_fresh, map_app; [done| |apply trigger_key_index].
    rewrite has_key_existsb, map_map. cbn. by rewrite map_id.
Qed.

Lemma seed_after_triggers (workflow : Workflow num) (triggerData : value)
    (done : list value) :
  stepResults (after_triggers done (seed workflow triggerData)) =
    trigger_entries done triggerData.
Proof. by apply (after_triggers_stepResults done (seed workflow triggerData) []). Qed.


(** ** The action loop *)

Section run_action.
Context (execution_id i : nat) (action : value) (context : WorkflowContext num).
Context (st st1 : Store).

Lemma run_action_success (r : ActionResult num) :
  executeAction (substituteVariables action (context_value context)) context st
    = (Normal r, st1) →
  success r = true →
  run_action execution_id i action context st =
    (Normal (Continue (after_action i (data r) context)), st1).
Proof.
  intros Hrun Hok. unfold run_action.
  apply try_catch_normal. rewrite (bind_normal _ _ _ _ _ Hrun). by rewrite Hok.
Qed.

Lemma run_action_failure (r : ActionResult num) row w :
  executeAction (substituteVariables action (context_value context)) context st
    = (Normal r, st1) →
  success r = false →
  refusals st1 = [] → joined execution_id st1 = Some (row, w) →
  run_action execution_id i action context st =
    (Normal (Return context
               {| result := {| success := false; data := VUndefined;
                               error := Some (failed_text i (error r)) |};
                  executionId := execution_id |}),
     written execution_id "failed" (error r) VNull row w st1).
Proof.
  intros Hrun Hfail Hanswers Hrow. unfold run_action.
  apply try_catch_normal. rewrite (bind_normal _ _ _ _ _ Hrun), Hfail. cbn [negb].
  unfold bind at 1. rewrite (updateExecutionStatus_run _ _ _ _ _ _ _ Hanswers Hrow).
  unfold failed_text, show_error. by destruct (error r).
Qed.

Lemma run_action_fault (e : exn) row w :
  executeAction (substituteVariables action (context_value context)) context st
    = (Throw e, st1) →
  refusals st1 = [] → joined execution_id st1 = Some (row, w) →
  run_action execution_id i action context st =
    (Normal (Return context
               {| result := {| success := false; data := VUndefined;
                               error := Some (fault_text i e) |};
                  executionId := execution_id |}),
     written execution_id "failed" (Some (fault_text i e)) VNull row w st1).
Proof.
  intros Hrun Hanswers Hrow. unfold run_action.
  erewrite try_catch_throw; [|by apply bind_throw].
  unfold bind at 1.
  replace ("Action " +:+ pretty (i + 1) +:+ " error: "
           +:+ error_message e "Unknown error") with (fault_text i e)
    by (by destruct e).
  by rewrite (updateExecutionStatus_run _ _ _ _ _ _ _ Hanswers Hrow).
Qed.

(* a step that returns from the run leaves the context as it was and
   reports a failure *)
Lemma run_action_returns (context' : WorkflowContext num) (r : RunResult num)
    (st' : Store) :
  run_action execution_id i action context st = (Normal (Return context' r), st') →
  context' = context ∧ success (result r) = false.
Proof.
  unfold run_action, try_catch, bind.
  destruct (executeAction _ context st) as [[res|e] st2].
  - destruct (success res) eqn:Hok; cbn [negb]; [done|].
    destruct (updateExecutionStatus execution_id "failed" (error res) VUndefined st2)
      as [[[]|e] st3].
    { by intros [= <- <- <-]. }
    destruct (updateExecutionStatus execution_id "failed" _ VUndefined st3)
      as [[[]|e'] st4]; [|done].
    by intros [= <- <- <-].
  - destruct (updateExecutionStatus execution_id "failed" _ VUndefined st2)
      as [[[]|e'] st3]; [|done].
    by intros [= <- <- <-].
Qed.

End run_action.

Lemma run_actions_cons (execution_id i : nat) (action : value)
    (rest : list value) (context : WorkflowContext num) (st : Store) :
  run_actions execution_id i (action :: rest) context st =
    match run_action execution_id i action context st with
    | (Normal (Continue context'), st') =>
        run_actions execution_id (S i) rest context' st'
    | (Normal (Return context' r), st') => (Normal (Return context' r), st')
    | (Throw e, st') => (Throw e, st')
    end.
Proof.
  cbn [run_actions]. unfold bind.
  destruct (run_action execution_id i action context st) as [[[c|c r]|e] st']; done.
Qed.

Lemma run_actions_app (execution_id i : nat) (done rest : list value)
    (context : WorkflowContext num) (st : Store) :
  run_actions execution_id i (done ++ rest) context st =
    match run_actions execution_id i done context st with
    | (Normal (Continue context'), st') =>
        run_actions execution_id (i + length done) rest context' st'
    | other => other
    end.
Proof.
  revert i context st. induction done as [|action done IH]; intros i context st.
  { cbn. by rewrite Nat.add_0_r. }
  cbn [app length]. rewrite !run_actions_cons.
  destruct (run_action execution_id i action context st) as [[[c|c r]|e] st'];
    [|done..].
  rewrite IH. by replace (i + S (length done)) with (S i + length done) by lia.
Qed.

Lemma run_action_continue (execution_id i : nat) (action : value)
    (context context' : WorkflowContext num) (st st' : Store) :
  run_action execution_id i action context st = (Normal (Continue context'), st') →
  ∃ r, executeAction (substituteVariables action (context_value context)) context st
         = (Normal r, st')
       ∧ success r = true
       ∧ context' = after_action i (data r) context.
Proof.
  unfold run_action, try_catch, bind.
  destruct (executeAction _ context st) as [[r|e] st1].
  - destruct (success r) eqn:Hok; cbn [negb].
    { intros [= <- <-]. by exists r. }
    destruct (updateExecutionStatus execution_id "failed" (error r) VUndefined st1)
      as [[[]|e] st2]; [done|].
    by destruct (updateExecutionStatus execution_id "failed" _ VUndefined st2)
      as [[[]|e'] st3].
  - by destruct (updateExecutionStatus execution_id "failed" _ VUndefined st1)
      as [[[]|e'] st2].
Qed.

(* a stretch of actions that all succeed is a stretch of dispatches *)
Lemma run_actions_continue (execution_id i : nat) (done : list value)
    (context context' : WorkflowContext num) (st st' : Store) :
  run_actions execution_id i done context st = (Normal (Continue context'), st') →
  dispatches st st' ∧ (refusals st = [] → refusals st' = []).
Proof.
  revert i context st. induction done as [|action done IH]; intros i context st.
  { intros [= <- <-]. split; [apply rtc_refl|done]. }
  rewrite run_actions_cons.
  destruct (run_action execution_id i action context st) as [[[c|c r]|e] st1] eqn:Hstep;
    [|done..].
  intros Hrest. apply run_action_continue in Hstep as (r & Hrun & _ & ->).
  destruct (IH _ _ _ Hrest) as [Hd Hr]. split.
  - eapply dispatches_step; [by eapply executeAction_dispatch|done].
  - intros Hanswers. apply Hr.
    pose proof (executeAction_refusals
                  (substituteVariables action (context_value context)) context st
                  Hanswers) as Hkept.
    by rewrite Hrun in Hkept.
Qed.

Lemma run_stays_step (execution_id : nat) (st st' : Store) :
  run_stays execution_id → dispatch st st' →
  is_Some (joined execution_id st) → is_Some (joined execution_id st').
Proof.
  intros Hstays Hstep [[row w] Hrow].
  destruct (Hstays _ _ _ _ Hstep Hrow) as [w' Hrow']. by eexists.
Qed.

Lemma dispatches_row (execution_id : nat) (st st' : Store) row w :
  run_stays execution_id → dispatches st st' →
  joined execution_id st = Some (row, w) →
  ∃ w', joined execution_id st' = Some (row, w').
Proof.
  intros Hstays Hd. revert w. induction Hd as [st|st st1 st' Hstep _ IH]; intros w Hrow.
  { by exists w. }
  destruct (Hstays _ _ _ _ Hstep Hrow) as [w1 Hrow1]. by eapply IH.
Qed.

(* an action loop on a database that answers, whose row stays in place,
   ends in one of two ways and does not raise *)
Lemma run_actions_shape (execution_id i : nat) (actions : list value)
    (context : WorkflowContext num) (st : Store) :
  run_stays execution_id →
  refusals st = [] → is_Some (joined execution_id st) →
  ∃ f st', run_actions execution_id i actions context st = (Normal f, st')
    ∧ match f with
      | Continue _ =>
          dispatches st st' ∧ refusals st' = [] ∧ is_Some (joined execution_id st')
      | Return _ r =>
          ∃ before row w cause,
            dispatches st before
            ∧ refusals before = []
            ∧ joined execution_id before = Some (row, w)
            ∧ st' = written execution_id "failed" cause VNull row w before
            ∧ success (result r) = false
            ∧ data (result r) = VUndefined
            ∧ is_Some (error (result r))
            ∧ executionId r = execution_id
            ∧ (handlers_report_errors → is_Some cause)
      end.
Proof.
  intros Hstays. revert i context st.
  induction actions as [|action actions IH]; intros i context st Hanswers Hrow.
  { eexists _, _. split; [done|]. split_and!; [apply rtc_refl|done..]. }
  rewrite run_actions_cons.
  destruct (executeAction (substituteVariables action (context_value context))
              context st) as [[r|e] st1] eqn:Hrun.
  - pose proof (executeAction_dispatch _ _ _ _ _ Hrun) as Hstep.
    pose proof (executeAction_refusals
                  (substituteVariables action (context_value context)) context st
                  Hanswers) as Hanswers1.
    rewrite Hrun in Hanswers1. cbn in Hanswers1.
    pose proof (run_stays_step _ _ _ Hstays Hstep Hrow) as [[row1 w1] Hrow1].
    destruct (success r) eqn:Hok.
    + rewrite (run_action_success _ _ _ _ _ _ _ Hrun Hok).
      destruct (IH (S i) (after_action i (data r) context) st1 Hanswers1)
        as (f & st' & -> & Hf); [by eauto|].
      eexists _, _. split; [done|]. destruct f as [c|c r'].
      * destruct Hf as (Hd & ? & ?). split_and!; [|done..].
        by eapply dispatches_step.
      * destruct Hf as (before & row' & w' & cause & Hd & Hrest).
        exists before, row', w', cause. split; [by eapply dispatches_step|done].
    + rewrite (run_action_failure _ _ _ _ _ _ _ _ _ Hrun Hok Hanswers1 Hrow1).
      eexists _, _. split; [done|]. exists st1, row1, w1, (error r).
      split_and!; [by apply rtc_once|done..|by eexists|done|].
      intros Hcontract.
      exact (executeAction_reports_error _ _ _ _ _ Hcontract Hanswers Hrun Hok).
  - pose proof (executeAction_dispatch _ _ _ _ _ Hrun) as Hstep.
    pose proof (executeAction_refusals
                  (substituteVariables action (context_value context)) context st
                  Hanswers) as Hanswers1.
    rewrite Hrun in Hanswers1. cbn in Hanswers1.
    pose proof (run_stays_step _ _ _ Hstays Hstep Hrow) as [[row1 w1] Hrow1].
    rewrite (run_action_fault _ _ _ _ _ _ _ _ _ Hrun Hanswers1 Hrow1).
    eexists _, _. split; [done|]. exists st1, row1, w1, (Some (fault_text i e)).
    split_and!; [by apply rtc_once|done..|by eexists|done|by eexists].
Qed.

Lemma has_key_obj_replace (key key' : string) (v : value)
    (o : list (string * value)) :
  has_key key' (obj_replace key v o) = has_key key' o.
Proof.
  induction o as [|[k w] o IH]; [done|]. cbn.
  destruct (String.eqb k key); cbn; [done|]. by rewrite IH.
Qed.

Lemma has_key_obj_insert_index (n : N) (key key' : string) (v : value)
    (o : list (string * value)) :
  has_key key' (obj_insert_index n key v o) = String.eqb key key' || has_key key' o.
Proof.
  induction o as [|[k w] o IH]; [done|]. cbn.
  destruct (array_index k) as [m|]; [|done].
  destruct (m <? n)%N; [|done]. cbn. rewrite IH.
  by destruct (String.eqb k key'), (String.eqb key key').
Qed.

Lemma has_key_obj_set (key key' : string) (v : value) (o : list (string * value)) :
  has_key key' (obj_set key v o) = String.eqb key key' || has_key key' o.
Proof.
  unfold obj_set. destruct (has_key key o) eqn:Hkey.
  - rewrite has_key_obj_replace.
    destruct (String.eqb_spec key key') as [<-|]; [by rewrite Hkey|done].
  - destruct (array_index key) as [n|].
    + apply has_key_obj_insert_index.
    + rewrite has_key_app. cbn. rewrite orb_false_r. apply orb_comm.
Qed.

Lemma after_action_fresh (i : nat) (d : value) (context : WorkflowContext num) :
  fresh_from i context →
  stepResults (after_action i d context) = stepResults context ++ [(action_key i, d)]
  ∧ variables (after_action i d context) = variables context ++ [(result_key i, d)]
  ∧ triggerData (after_action i d context) = triggerData context
  ∧ fresh_from (S i) (after_action i d context).
Proof.
  intros Hfresh. destruct (Hfresh i (Nat.le_refl i)) as [Hstep Hvar].
  assert (stepResults (after_action i d context)
          = stepResults context ++ [(action_key i, d)]) as Hs.
  { cbn. by rewrite obj_set_fresh; [| |apply action_key_index]. }
  assert (variables (after_action i d context)
          = variables context ++ [(result_key i, d)]) as Hv.
  { cbn. by rewrite obj_set_fresh; [| |apply result_key_index]. }
  split_and!; [done..|]. intros j Hj. rewrite Hs, Hv, !has_key_app.
  destruct (Hfresh j ltac:(lia)) as [-> ->]. cbn. rewrite !orb_false_r. split.
  - apply String.eqb_neq. intros Heq%action_key_inj. lia.
  - apply String.eqb_neq. intros Heq%result_key_inj. lia.
Qed.

(* what a stretch of successful actions leaves in the context *)
Lemma run_actions_succeeded (execution_id i : nat) (done : list value)
    (context context' : WorkflowContext num) (st st' : Store) :
  run_actions execution_id i done context st = (Normal (Continue context'), st') →
  fresh_from i context →
  ∃ results,
    length results = length done
    ∧ stepResults context' =
        stepResults context ++ imap (λ j d, (action_key (i + j), d)) results
    ∧ variables context' =
        variables context ++ imap (λ j d, (result_key (i + j), d)) results
    ∧ triggerData context' = triggerData context
    ∧ fresh_from (i + length done) context'.
Proof.
  revert i context st. induction done as [|action done IH]; intros i context st.
  { intros [= <- <-] Hfresh. exists []. cbn. rewrite !app_nil_r, Nat.add_0_r. done. }
  rewrite run_actions_cons.
  destruct (run_action execution_id i action context st) as [[[c|c r]|e] st1] eqn:Hstep;
    [|done..].
  intros Hrest Hfresh.
  apply run_action_continue in Hstep as (r & _ & _ & ->).
  destruct (after_action_fresh i (data r) context Hfresh) as (Hs & Hv & Ht & Hfresh').
  destruct (IH _ _ _ Hrest Hfresh') as (results & Hlen & Hs' & Hv' & Ht' & Hfresh'').
  exists (data r :: results). cbn [length imap].
  rewrite Hs', Hv', Ht', Hs, Hv, <- !app_assoc, Nat.add_0_r. cbn [app].
  split_and!; try done; try by rewrite Hlen.
  - do 2 f_equal. apply imap_ext. intros j d _. cbn. by rewrite Nat.add_succ_r.
  - do 2 f_equal. apply imap_ext. intros j d _. cbn. by rewrite Nat.add_succ_r.
  - by replace (i + S (length done)) with (S i + length done) by lia.
Qed.

Lemma after_triggers_has_key (key : string) (done : list value)
    (context : WorkflowContext num) :
  (∀ t, String.eqb (trigger_key t) key = false) →
  has_key key (stepResults (after_triggers done context))
    = has_key key (stepResults context).
Proof.
  intros Hkey. revert context. induction done as [|t done IH]; intros context.
  { done. }
  rewrite after_triggers_cons, IH. cbn. by rewrite has_key_obj_set, Hkey.
Qed.

Lemma seed_fresh (workflow : Workflow num) (triggerData : value)
    (done : list value) :
  fresh_from 0 (after_triggers done (seed workflow triggerData)).
Proof.
  intros j _. split.
  - by rewrite after_triggers_has_key.
  - by destruct (after_triggers_fields done (seed workflow triggerData))
      as (_ & _ & _ & ->).
Qed.

Lemma trigger_phase_run (workflow : Workflow num) (execution_id : nat)
    (context : WorkflowContext num) (st : Store) :
  trigger_phase (workflow_configuration workflow) execution_id context st =
    run_triggers execution_id (triggers_of workflow) context st.
Proof.
  unfold trigger_phase, triggers_of.
  by destruct (triggers (workflow_configuration workflow)) as [[|t ts]|].
Qed.

Lemma action_phase_run (workflow : Workflow num) (execution_id : nat)
    (context : WorkflowContext num) (st : Store) :
  action_phase (workflow_configuration workflow) execution_id context st =
    run_actions execution_id 0 (actions_of workflow) context st.
Proof.
  unfold action_phase, actions_of.
  by destruct (actions (workflow_configuration workflow)) as [[|a l]|].
Qed.

Lemma find_workflow_id (key : string) (table : list (Workflow num)) w :
  find_workflow key table = Some w → workflow_id w = key.
Proof.
  unfold find_workflow. induction table as [|w' table IH]; [done|]. cbn.
  destruct (String.eqb_spec (workflow_id w') key); [by intros [= <-]|done].
Qed.

Lemma run_workflow_unfold (workflow : Workflow num) (triggerData : value)
    (execution_id : nat) (st : Store) :
  run_workflow workflow triggerData execution_id st =
    match run_triggers execution_id (triggers_of workflow)
            (seed workflow triggerData) st with
    | (Normal (Continue c), st1) =>
        match run_actions execution_id 0 (actions_of workflow) c st1 with
        | (Normal (Continue c'), st2) =>
            (updateExecutionStatus execution_id "completed" None
               (VObj (stepResults c'));;
             ret (c', completed execution_id c')) st2
        | (Normal (Return c' r), st2) => (Normal (c', r), st2)
        | (Throw e, st2) => (Throw e, st2)
        end
    | (Normal (Return c r), st1) => (Normal (c, r), st1)
    | (Throw e, st1) => (Throw e, st1)
    end.
Proof.
  unfold run_workflow, bind. rewrite trigger_phase_run.
  destruct (run_triggers _ _ _ st) as [[[c|c r]|e] st1]; [|done..].
  rewrite action_phase_run.
  by destruct (run_actions _ _ _ c st1) as [[[c'|c' r]|e] st2].
Qed.

Lemma run_prefix_unfold (workflow : Workflow num) (triggerData : value)
    (execution_id : nat) (done : list value) (st : Store) :
  run_prefix workflow triggerData execution_id done st =
    match run_triggers execution_id (triggers_of workflow)
            (seed workflow triggerData) st with
    | (Normal (Continue c), st1) => run_actions execution_id 0 done c st1
    | (Normal (Return c r), st1) => (Normal (Return c r), st1)
    | (Throw e, st1) => (Throw e, st1)
    end.
Proof.
  unfold run_prefix, bind. rewrite trigger_phase_run.
  by destruct (run_triggers _ _ _ st) as [[[c|c r]|e] st1].
Qed.


(* a trigger loop that hands the run on has validated every trigger and
   written nothing *)
Lemma run_triggers_continue (execution_id : nat) (triggers : list value)
    (context context' : WorkflowContext num) (st st' : Store) :
  run_triggers execution_id triggers context st = (Normal (Continue context'), st') →
  forallb valid_trigger triggers = true
  ∧ context' = after_triggers triggers context
  ∧ st' = st.
Proof.
  revert context. induction triggers as [|trigger triggers IH]; intros context.
  { by intros [= <- <-]. }
  destruct (is_nullish trigger) eqn:Hnull.
  { cbn [run_triggers]. unfold bind, lift, validateTrigger.
    by destruct trigger. }
  destruct (get_property_normal trigger "type" Hnull) as [type Htype].
  destruct (recognised type) eqn:Hknown.
  - assert (valid_trigger trigger = true) as Hvalid.
    { unfold valid_trigger, trigger_type. by rewrite Hnull, Htype. }
    pose proof (run_triggers_valid execution_id [trigger] triggers context st) as Hstep.
    cbn [forallb app] in Hstep. rewrite Hvalid in Hstep. rewrite (Hstep eq_refl).
    intros Hrest. destruct (IH _ Hrest) as (Hall & -> & ->).
    cbn [forallb]. by rewrite Hvalid, Hall.
  - cbn [run_triggers]. unfold bind, lift.
    destruct (js_String type) as [name|e] eqn:Hname.
    + rewrite (validateTrigger_unknown _ _ _ _ Htype Hknown Hname). cbn.
      by destruct (updateExecutionStatus execution_id "failed" _ VUndefined st)
        as [[[]|e] st1].
    + by rewrite (validateTrigger_untyped _ _ _ _ Htype Hknown Hname).
Qed.

(* the run from the action that follows [done] on, whatever the database *)
Lemma run_prefix_continue (workflow : Workflow num) (triggerData : value)
    (execution_id : nat) (done rest : list value)
    (context : WorkflowContext num) (st st1 : Store) :
  actions_of workflow = done ++ rest →
  run_prefix workflow triggerData execution_id done st
    = (Normal (Continue context), st1) →
  forallb valid_trigger (triggers_of workflow) = true
  ∧ fresh_from 0 (after_triggers (triggers_of workflow) (seed workflow triggerData))
  ∧ run_actions execution_id 0 done
      (after_triggers (triggers_of workflow) (seed workflow triggerData)) st
      = (Normal (Continue context), st1)
  ∧ run_workflow workflow triggerData execution_id st =
      match run_actions execution_id (length done) rest context st1 with
      | (Normal (Continue context'), st2) =>
          (updateExecutionStatus execution_id "completed" None
             (VObj (stepResults context'));;
           ret (context', completed execution_id context')) st2
      | (Normal (Return context' r), st2) => (Normal (context', r), st2)
      | (Throw e, st2) => (Throw e, st2)
      end.
Proof.
  intros Hactions. rewrite run_prefix_unfold, run_workflow_unfold.
  destruct (run_triggers execution_id (triggers_of workflow)
              (seed workflow triggerData) st) as [[[c|c r]|e] st0] eqn:Htriggers;
    [|done..].
  apply run_triggers_continue in Htriggers as (Hall & -> & ->).
  intros Hdone. split_and!; [done|apply seed_fresh|done|].
  rewrite Hactions, run_actions_app, Hdone. cbn [Nat.add].
  by destruct (run_actions execution_id (length done) rest context st1)
    as [[[c|c r]|e] st2].
Qed.

(* a database that answers the creation of the row of a run *)
Lemma attempt_created {A} (query : M A) (st : Store) :
  hd false (refusals st) = false →
  attempt query st = query (with_refusals (tail (refusals st)) st).
Proof.
  unfold attempt. destruct st as [ws ls us es ns c wd rs]. cbn.
  by destruct rs as [|[] rs].
Qed.

Section created.
Context (workflow : Workflow num) (triggerData : value) (st : Store).
Context (w : Workflow num).
Hypothesis Hworkflow : find_workflow (workflow_id workflow) (workflows st) = Some w.
Hypothesis Hcreate : hd false (refusals st) = false.

Lemma executeWorkflow_created :
  executeWorkflow workflow triggerData st =
    try_catch
      (let* r := run_workflow workflow (input triggerData)
                   (length (executions st)) in
       ret r.2)
      (λ e,
         updateExecutionStatus (length (executions st)) "failed"
           (Some (error_message e "Unknown workflow error")) VUndefined;;
         ret (failure (length (executions st))
                (Some (error_message e "Unknown workflow error"))))
      (start workflow triggerData st).
Proof.
  unfold executeWorkflow, bind at 1, new_Date. unfold bind at 1.
  unfold prisma_execution_create. rewrite attempt_created by done.
  cbn [clock workflows executions created execution_workflowId with_clock
       with_refusals refusals].
  by rewrite Hworkflow.
Qed.

Lemma run_workflow_created (context : WorkflowContext num) (r : RunResult num)
    (st' : Store) :
  run_workflow workflow (input triggerData) (length (executions st))
    (start workflow triggerData st) = (Normal (context, r), st') →
  executeWorkflow workflow triggerData st = (Normal r, st').
Proof.
  intros Hrun. rewrite executeWorkflow_created.
  apply try_catch_normal. by rewrite (bind_normal _ _ _ _ _ Hrun).
Qed.

End created.

Section run.
Context (workflow : Workflow num) (triggerData : value) (st : Store).
Context (w : Workflow num).
Hypothesis Hworkflow : find_workflow (workflow_id workflow) (workflows st) = Some w.
Hypothesis Hanswers : refusals st = [].

Let execution_id : nat := length (executions st).
Let st0 : Store := start workflow triggerData st.

Lemma start_refusals : refusals st0 = [].
Proof. unfold st0, start. cbn. by rewrite Hanswers. Qed.

Lemma start_joined :
  joined execution_id st0
    = Some ({| execution_workflowId := workflow_id workflow;
               execution_status := "running";
               execution_startTime := clock st;
               execution_endTime := None;
               execution_input := input triggerData;
               execution_output := VNull;
               execution_error := None |}, w).
Proof.
  unfold joined, st0, start, execution_id. cbn.
  rewrite lookup_app_r, Nat.sub_diag; [|done]. cbn. by rewrite Hworkflow.
Qed.

Lemma executeWorkflow_start :
  executeWorkflow workflow triggerData st =
    try_catch
      (let* r := run_workflow workflow (input triggerData) execution_id in ret r.2)
      (λ e,
         updateExecutionStatus execution_id "failed"
           (Some (error_message e "Unknown workflow error")) VUndefined;;
         ret (failure execution_id (Some (error_message e "Unknown workflow error"))))
      st0.
Proof.
  unfold executeWorkflow, bind at 1, new_Date. unfold bind at 1.
  unfold prisma_execution_create. rewrite attempt_answered by done.
  cbn [clock workflows executions created execution_workflowId with_clock].
  rewrite Hworkflow. unfold st0, start, with_executions, with_clock, created.
  cbn. by rewrite Hanswers.
Qed.

Lemma run_workflow_returns (context : WorkflowContext num) (r : RunResult num)
    (st' : Store) :
  run_workflow workflow (input triggerData) execution_id st0
    = (Normal (context, r), st') →
  executeWorkflow workflow triggerData st = (Normal r, st').
Proof.
  intros Hrun. rewrite executeWorkflow_start.
  apply try_catch_normal. by rewrite (bind_normal _ _ _ _ _ Hrun).
Qed.

(* the run from the action that follows [done] on *)
Lemma run_workflow_prefix (done rest : list value)
    (context : WorkflowContext num) (st1 : Store) :
  actions_of workflow = done ++ rest →
  run_prefix workflow (input triggerData) execution_id done st0
    = (Normal (Continue context), st1) →
  dispatches st0 st1
  ∧ refusals st1 = []
  ∧ fresh_from 0 (after_triggers (triggers_of workflow)
                    (seed workflow (input triggerData)))
  ∧ run_actions execution_id 0 done
      (after_triggers (triggers_of workflow) (seed workflow (input triggerData)))
      st0 = (Normal (Continue context), st1)
  ∧ run_workflow workflow (input triggerData) execution_id st0 =
      match run_actions execution_id (length done) rest context st1 with
      | (Normal (Continue context'), st2) =>
          (updateExecutionStatus execution_id "completed" None
             (VObj (stepResults context'));;
           ret (context', completed execution_id context')) st2
      | (Normal (Return context' r), st2) => (Normal (context', r), st2)
      | (Throw e, st2) => (Throw e, st2)
      end.
Proof.
  intros Hactions. rewrite run_prefix_unfold, run_workflow_unfold.
  destruct (run_triggers_shape execution_id (triggers_of workflow)
              (seed workflow (input triggerData)) st0 _ _ start_refusals start_joined)
    as [[_ ->]|[(c & m & ->)|(e & ->)]]; [|done..].
  intros Hdone.
  destruct (run_actions_continue _ _ _ _ _ _ _ Hdone) as [Hd Hr].
  split_and!; [done|by apply Hr, start_refusals|apply seed_fresh|done|].
  rewrite Hactions, run_actions_app, Hdone. cbn [Nat.add].
  by destruct (run_actions execution_id (length done) rest context st1)
    as [[[c|c r]|e] st2].
Qed.

(* On a database that answers, a run whose actions leave its row in
   place comes to its terminal write, and that is the last thing it
   does; before it, nothing happened to the database but the dispatches
   of actions. *)
Lemma executeWorkflow_shape :
  run_stays execution_id →
  ∃ r before row w1 status cause output,
    dispatches st0 before
    ∧ refusals before = []
    ∧ joined execution_id before = Some (row, w1)
    ∧ executeWorkflow workflow triggerData st =
        (Normal r, written execution_id status cause output row w1 before)
    ∧ executionId r = execution_id
    ∧ ((status = "completed" ∧ cause = None
        ∧ ∃ context,
            run_workflow workflow (input triggerData) execution_id st0 =
              (Normal (context, r),
               written execution_id status cause output row w1 before)
            ∧ output = VObj (stepResults context)
            ∧ result r = {| success := true;
                            data := VObj (stepResults context);
                            error := None |})
       ∨ (status = "failed" ∧ output = VNull ∧ success (result r) = false
          ∧ data (result r) = VUndefined
          ∧ is_Some (error (result r))
          ∧ (handlers_report_errors → is_Some cause))).
Proof.
  intros Hstays.
  pose proof start_joined as Hjoined. pose proof start_refusals as Hquiet.
  destruct (run_triggers_shape execution_id (triggers_of workflow)
              (seed workflow (input triggerData)) st0 _ _ Hquiet Hjoined)
    as [[_ Htriggers]|[(c & m & Htriggers)|(e & Htriggers)]].
  - destruct (run_actions_shape execution_id 0 (actions_of workflow)
                (after_triggers (triggers_of workflow)
                   (seed workflow (input triggerData))) st0 Hstays Hquiet)
      as (f & st1 & Hactions & Hf); [by eauto|].
    destruct f as [c|c r].
    + destruct Hf as (Hd & Hanswers1 & [[row1 w1] Hrow1]).
      assert (run_workflow workflow (input triggerData) execution_id st0 =
              (Normal (c, completed execution_id c),
               written execution_id "completed" None (VObj (stepResults c))
                 row1 w1 st1)) as Hrun.
      { rewrite run_workflow_unfold, Htriggers, Hactions. unfold bind.
        by rewrite (updateExecutionStatus_run _ _ _ _ _ _ _ Hanswers1 Hrow1). }
      exists (completed execution_id c), st1, row1, w1, "completed", None,
        (VObj (stepResults c)).
      split_and!; [done..|by eapply run_workflow_returns|done|].
      left. split_and!; try done. by exists c.
    + destruct Hf as (before & row1 & w1 & cause & Hd & Hanswers1 & Hrow1 & ->
                      & Hfail & Hdata & Herr & Hid & Herror).
      exists r, before, row1, w1, "failed", cause, VNull.
      split_and!; [done..| |done|by right].
      eapply run_workflow_returns. by rewrite run_workflow_unfold, Htriggers, Hactions.
  - eexists {| result := {| success := false; data := VUndefined; error := Some m |};
               executionId := execution_id |}, st0, _, w, "failed", (Some m), VNull.
    split_and!; [apply rtc_refl|exact Hquiet|exact Hjoined| |done|].
    + eapply run_workflow_returns. by rewrite run_workflow_unfold, Htriggers.
    + right. split_and!; by eauto.
  - eexists (failure execution_id (Some (error_message e "Unknown workflow error"))),
      st0, _, w, "failed", (Some (error_message e "Unknown workflow error")), VNull.
    split_and!; [apply rtc_refl|exact Hquiet|exact Hjoined| |done|].
    + rewrite executeWorkflow_start.
      erewrite try_catch_throw; cycle 1.
      { apply bind_throw. by rewrite run_workflow_unfold, Htriggers. }
      unfold bind. by rewrite (updateExecutionStatus_run _ _ _ _ _ _ _ Hquiet Hjoined).
    + right. split_and!; by eauto.
Qed.

End run.

(** ** The properties of the engine *)

Lemma destructure_action_run (action type : value) :
  get_property action "type" = Normal type →
  ∃ config, destructure_action action = Normal (type, config).
Proof.
  intros Htype. unfold destructure_action.
  destruct action; try done; rewrite Htype; cbn [then_];
    match goal with
    | |- context [get_property ?a "config"] =>
        destruct (get_property_normal a "config" eq_refl) as [config ->]
    end; by eauto.
Qed.

Lemma executeAction_unknown (action type : value) (name : string)
    (context : WorkflowContext num) (st : Store) :
  get_property action "type" = Normal type → registered type = false →
  js_String type = Normal name →
  executeAction action context st =
    (Normal {| success := false;
               data := VUndefined;
               error := Some ("Unknown action type: " +:+ name) |},
     st).
Proof.
  intros Htype Hunknown Hname.
  destruct (destructure_action_run _ _ Htype) as [config Htc].
  unfold executeAction, bind, lift. rewrite Htc. cbn [fst snd].
  unfold registered in Hunknown.
  repeat apply orb_false_iff in Hunknown as [Hunknown ?].
  repeat match goal with Hs : is_string _ _ = false |- _ => rewrite Hs; clear Hs end.
  by rewrite Hname.
Qed.

(* a type without a text makes the dispatcher raise *)
Lemma executeAction_untyped (action type : value) (e : exn)
    (context : WorkflowContext num) (st : Store) :
  get_property action "type" = Normal type → registered type = false →
  js_String type = Throw e →
  executeAction action context st = (Throw e, st).
Proof.
  intros Htype Hunknown Hname.
  destruct (destructure_action_run _ _ Htype) as [config Htc].
  unfold executeAction, bind, lift. rewrite Htc. cbn [fst snd].
  unfold registered in Hunknown.
  repeat apply orb_false_iff in Hunknown as [Hunknown ?].
  repeat match goal with Hs : is_string _ _ = false |- _ => rewrite Hs; clear Hs end.
  by rewrite Hname.
Qed.

Lemma first_occurrences_prefix (keys keys' : list string) :
  ∃ more, first_occurrences (keys ++ keys') = first_occurrences keys ++ more.
Proof.
  unfold first_occurrences. rewrite fold_left_app.
  generalize (fold_left
    (λ seen k, if existsb (λ k', String.eqb k' k) seen then seen else seen ++ [k])
    keys []).
  induction keys' as [|k keys' IH]; intros seen; cbn.
  { exists []. by rewrite app_nil_r. }
  destruct (existsb _ seen); [apply IH|].
  destruct (IH (seen ++ [k])) as [more ->]. exists (k :: more).
  by rewrite <- app_assoc.
Qed.



Lemma run_actions_nil (execution_id i : nat) (context : WorkflowContext num)
    (st : Store) :
  run_actions execution_id i [] context st = (Normal (Continue context), st).
Proof. done. Qed.

(* the row of a run that has just been created, once it has ended *)
Lemma written_start (workflow : Workflow num) (triggerData : value) (st : Store)
    (status : string) (error : option string) (output : value) row w :
  executions (written (length (executions st)) status error output row w
                (start workflow triggerData st)) =
    executions st ++ [ended status (S (clock st)) error output row].
Proof.
  unfold written, start. cbn.
  rewrite insert_app_r_alt by done. by rewrite Nat.sub_diag.
Qed.

Section engine_properties.
Context (workflow : Workflow num) (trigger_data : value) (st : Store).
Context (w : Workflow num).

Let execution_id : nat := length (executions st).
Let st0 : Store := start workflow trigger_data st.


(* a run that ends before any action is dispatched *)
Lemma failed_at_once (text : string) :
  find_workflow (workflow_id workflow) (workflows st) = Some w →
  refusals st = [] →
  written execution_id "failed" (Some text) VNull
    {| execution_workflowId := workflow_id workflow;
       execution_status := "running";
       execution_startTime := clock st;
       execution_endTime := None;
       execution_input := input trigger_data;
       execution_output := VNull;
       execution_error := None |} w st0 =
    {| workflows := workflows st; listings := listings st; users := users st;
       executions :=
         executions st ++
         [{| execution_workflowId := workflow_id workflow;
             execution_status := "failed";
             execution_startTime := clock st;
             execution_endTime := Some (S (clock st));
             execution_input := input trigger_data;
             execution_output := VNull;
             execution_error := Some text |}];
       notifications :=
         notifications st ++
         [{| notification_userId := workflow_userId w;
             notification_type := "workflow_error";
             notification_message :=
               VStr ("Workflow " +:+ String "034"%char (workflow_name w)
                     +:+ String "034"%char " failed: " +:+ text);
             notification_metadata :=
               FailureMetadata (workflow_id workflow) execution_id |}];
       clock := S (S (clock st));
       world := world st;
       refusals := [] |}.
Proof.
  intros Hworkflow Hanswers.
  pose proof (written_start workflow trigger_data st "failed" (Some text) VNull
                {| execution_workflowId := workflow_id workflow;
                   execution_status := "running";
                   execution_startTime := clock st;
                   execution_endTime := None;
                   execution_input := input trigger_data;
                   execution_output := VNull;
                   execution_error := None |} w) as Hrows.
  unfold written, st0, execution_id in Hrows |- *. cbn in Hrows |- *.
  rewrite Hrows, Hanswers. unfold notice.
  by rewrite (find_workflow_id _ _ _ Hworkflow).
Qed.

(** C5, as the code has it.  A trigger whose type is webhook, manual,
    email or schedule validates and hands back the trigger data as it is.
    A trigger of any other type that has a text fails with "Unknown
    trigger type: <type>", and the first such trigger ends the run:
    [executeWorkflow] returns that text, and all the run leaves in the
    database is its row, failed with that text, and the notification of
    the owner; no action has run.  A type without a text makes the
    validation raise, and the run fails with the text of that error. *)
Theorem unknown_trigger_rejected (done rest : list value) (trigger type : value) :
  find_workflow (workflow_id workflow) (workflows st) = Some w →
  refusals st = [] →
  triggers_of workflow = done ++ trigger :: rest →
  forallb valid_trigger done = true →
  get_property trigger "type" = Normal type →
  recognised type = false →
  let outcome (text : string) :=
    (Normal {| result := {| success := false; data := VUndefined;
                            error := Some text |};
               executionId := execution_id |},
     {| workflows := workflows st; listings := listings st; users := users st;
        executions :=
          executions st ++
          [{| execution_workflowId := workflow_id workflow;
              execution_status := "failed";
              execution_startTime := clock st;
              execution_endTime := Some (S (clock st));
              execution_input := input trigger_data;
              execution_output := VNull;
              execution_error := Some text |}];
        notifications :=
          notifications st ++
          [{| notification_userId := workflow_userId w;
              notification_type := "workflow_error";
              notification_message :=
                VStr ("Workflow " +:+ String "034"%char (workflow_name w)
                      +:+ String "034"%char " failed: " +:+ text);
              notification_metadata :=
                FailureMetadata (workflow_id workflow) execution_id |}];
        clock := S (S (clock st));
        world := world st;
        refusals := [] |}) in
  (∀ t context,
     valid_trigger t = true →
     validateTrigger t context =
       Normal {| success := true; data := triggerData context; error := None |})
  ∧ (∀ name,
       js_String type = Normal name →
       (∀ context,
          validateTrigger trigger context =
            Normal {| success := false; data := VUndefined;
                      error := Some ("Unknown trigger type: " +:+ name) |})
       ∧ executeWorkflow workflow trigger_data st =
           outcome ("Unknown trigger type: " +:+ name))
  ∧ (∀ message,
       js_String type = Throw (ErrorObject message) →
       (∀ context, validateTrigger trigger context = Throw (ErrorObject message))
       ∧ executeWorkflow workflow trigger_data st = outcome message).
Proof.
  intros Hworkflow Hanswers Htriggers Hdone Htype Hunknown outcome.
  pose proof (start_refusals workflow trigger_data st Hanswers) as Hquiet.
  pose proof (start_joined workflow trigger_data st w Hworkflow) as Hjoined.
  split_and!.
  - intros t context Hvalid.
    by destruct (validateTrigger_valid t context Hvalid) as (_ & _ & ?).
  - intros name Hname. split.
    { intros context. exact (validateTrigger_unknown _ _ _ _ Htype Hunknown Hname). }
    unfold outcome. rewrite <- (failed_at_once _ Hworkflow Hanswers).
    eapply (run_workflow_returns _ _ _ _ Hworkflow Hanswers).
    rewrite run_workflow_unfold, Htriggers, (run_triggers_valid _ _ _ _ _ Hdone).
    by rewrite (run_triggers_unknown _ _ _ _ _ _ _ _ _ Htype Hunknown Hname
                  Hquiet Hjoined).
  - intros message Hname. split.
    { intros context. exact (validateTrigger_untyped _ _ _ _ Htype Hunknown Hname). }
    unfold outcome. rewrite <- (failed_at_once _ Hworkflow Hanswers).
    rewrite (executeWorkflow_start _ _ _ _ Hworkflow Hanswers).
    erewrite try_catch_throw; cycle 1.
    { apply bind_throw.
      rewrite run_workflow_unfold, Htriggers, (run_triggers_valid _ _ _ _ _ Hdone).
      cbn [run_triggers]. unfold bind, lift.
      by rewrite (validateTrigger_untyped _ _ _ _ Htype Hunknown Hname). }
    unfold bind. by rewrite (updateExecutionStatus_run _ _ _ _ _ _ _ Hquiet Hjoined).
Qed.

(* A run on a database that answers, whose row stays in place, ends
   with one terminal write: the state [before] it is reached from the
   start of the run by dispatches of actions alone, and still holds the
   row as it was created. *)
Lemma executeWorkflow_ends :
  find_workflow (workflow_id workflow) (workflows st) = Some w →
  refusals st = [] →
  run_stays execution_id →
  ∃ r before w1 status cause output,
    dispatches st0 before
    ∧ refusals before = []
    ∧ find_workflow (workflow_id workflow) (workflows before) = Some w1
    ∧ executions before !! execution_id =
        Some {| execution_workflowId := workflow_id workflow;
                execution_status := "running";
                execution_startTime := clock st;
                execution_endTime := None;
                execution_input := input trigger_data;
                execution_output := VNull;
                execution_error := None |}
    ∧ executeWorkflow workflow trigger_data st =
        (Normal r,
         {| workflows := workflows before; listings := listings before;
            users := users before;
            executions :=
              <[execution_id :=
                  {| execution_workflowId := workflow_id workflow;
                     execution_status := status;
                     execution_startTime := clock st;
                     execution_endTime := Some (clock before);
                     execution_input := input trigger_data;
                     execution_output := output;
                     execution_error := cause |}]> (executions before);
            notifications :=
              notifications before ++
              (if String.eqb status "failed"
               then [{| notification_userId := workflow_userId w1;
                        notification_type := "workflow_error";
                        notification_message :=
                          VStr ("Workflow " +:+ String "034"%char (workflow_name w1)
                                +:+ String "034"%char " failed: "
                                +:+ match cause with
                                    | Some text => text
                                    | None => "null"
                                    end);
                        notification_metadata :=
                          FailureMetadata (workflow_id workflow) execution_id |}]
               else []);
            clock := S (clock before);
            world := world before;
            refusals := [] |})
    ∧ executionId r = execution_id
    ∧ ((status = "completed" ∧ cause = None
        ∧ ∃ context,
            (run_workflow workflow (input trigger_data) execution_id st0).1 =
              Normal (context, r)
            ∧ output = VObj (stepResults context)
            ∧ result r = {| success := true;
                            data := VObj (stepResults context);
                            error := None |})
       ∨ (status = "failed" ∧ output = VNull ∧ success (result r) = false
          ∧ data (result r) = VUndefined
          ∧ is_Some (error (result r))
          ∧ (handlers_report_errors → is_Some cause))).
Proof.
  intros Hworkflow Hanswers Hstays.
  destruct (executeWorkflow_shape workflow trigger_data st w Hworkflow Hanswers Hstays)
    as (r & before & row & w1 & status & cause & output
        & Hd & Hquiet & Hjoined & Hrun & Hid & Hcases).
  destruct (dispatches_row _ _ _ _ _ Hstays Hd
              (start_joined workflow trigger_data st w Hworkflow))
    as [w1' Hjoined']. fold execution_id st0 in Hjoined, Hjoined'.
  rewrite Hjoined in Hjoined'. injection Hjoined' as [= -> <-].
  apply joined_inv in Hjoined as [Hrow Hw1]. cbn in Hw1.
  exists r, before, w1, status, cause, output.
  split_and!; [done..| |done|].
  - rewrite Hrun. f_equal. unfold written, ended, notice. cbn.
    by rewrite Hquiet, (find_workflow_id _ _ _ Hw1).
  - destruct Hcases as [(-> & -> & context & Hbody & -> & Hresult)|Hfailed];
      [left|by right].
    split_and!; [done..|]. exists context.
    unfold execution_id, st0 in *. by rewrite Hbody.
Qed.

(** C3, as the code has it.  On a database that answers every call, a
    run whose actions leave its row in place reaches exactly one of
    completed and failed, by one write, which is the last thing the run
    does to the database: the state before it is reached from the start
    of the run by dispatches of actions alone and holds the row as it
    was created, and the write replaces that row, and nothing else of
    the table, by one that has the new status, the end time read from
    the clock, the output and the error.  The output is set exactly for a
    completed run, and is then the final [stepResults]; the error is set
    exactly for a failed run, as long as the handlers give a text for the
    failures they report. *)
Theorem terminal_state_exclusive :
  find_workflow (workflow_id workflow) (workflows st) = Some w →
  refusals st = [] →
  run_stays execution_id →
  handlers_report_errors →
  ∃ r st' before status cause output,
    executeWorkflow workflow trigger_data st = (Normal r, st')
    ∧ dispatches st0 before
    ∧ executions before !! execution_id =
        Some {| execution_workflowId := workflow_id workflow;
                execution_status := "running";
                execution_startTime := clock st;
                execution_endTime := None;
                execution_input := input trigger_data;
                execution_output := VNull;
                execution_error := None |}
    ∧ executions st' =
        <[execution_id :=
            {| execution_workflowId := workflow_id workflow;
               execution_status := status;
               execution_startTime := clock st;
               execution_endTime := Some (clock before);
               execution_input := input trigger_data;
               execution_output := output;
               execution_error := cause |}]> (executions before)
    ∧ clock st' = S (clock before)
    ∧ workflows st' = workflows before ∧ users st' = users before
    ∧ listings st' = listings before ∧ world st' = world before
    ∧ ((status = "completed" ∧ cause = None ∧ success (result r) = true
        ∧ ∃ context,
            (run_workflow workflow (input trigger_data) execution_id st0).1 =
              Normal (context, r)
            ∧ output = VObj (stepResults context)
            ∧ data (result r) = VObj (stepResults context))
       ∨ (status = "failed" ∧ output = VNull ∧ is_Some cause
          ∧ success (result r) = false))
    ∧ (output ≠ VNull ↔ status = "completed")
    ∧ (is_Some cause ↔ status = "failed").
Proof.
  intros Hworkflow Hanswers Hstays Hcontract.
  destruct (executeWorkflow_ends Hworkflow Hanswers Hstays)
    as (r & before & w1 & status & cause & output
        & Hd & _ & _ & Hrow & Hrun & _ & Hcases).
  eexists r, _, before, status, cause, output.
  split; [exact Hrun|]. cbn [executions clock workflows users listings world].
  split_and!; try done.
  - destruct Hcases as [(-> & -> & context & Hbody & -> & Hresult)
                       |(-> & -> & Hfail & _ & _ & Hcause)].
    + left. split_and!; [done..|by rewrite Hresult|].
      exists context. by rewrite Hresult.
    + right. split_and!; try done. by apply Hcause.
  - destruct Hcases as [(-> & _ & context & _ & -> & _)|(-> & -> & _)];
      split; done.
  - destruct Hcases as [(-> & -> & _)|(-> & _ & _ & _ & _ & Hcause)];
      split; try done.
    intros _. by apply Hcause.
Qed.


(* the run ends where an action returns from it *)
Lemma executeWorkflow_action_returns (done rest : list value) (action : value)
    (context context' : WorkflowContext num) (r : RunResult num) (st1 st' : Store) :
  find_workflow (workflow_id workflow) (workflows st) = Some w →
  refusals st = [] →
  actions_of workflow = done ++ action :: rest →
  run_prefix workflow (input trigger_data) execution_id done st0
    = (Normal (Continue context), st1) →
  run_action execution_id (length done) action context st1
    = (Normal (Return context' r), st') →
  run_workflow workflow (input trigger_data) execution_id st0
    = (Normal (context', r), st')
  ∧ executeWorkflow workflow trigger_data st = (Normal r, st').
Proof.
  unfold execution_id, st0. intros Hworkflow Hanswers Hactions Hdone Hstep.
  destruct (run_workflow_prefix _ _ _ _ Hworkflow Hanswers _ _ _ _ Hactions Hdone)
    as (_ & _ & _ & _ & Hrun).
  rewrite run_actions_cons, Hstep in Hrun. split; [done|].
  by eapply run_workflow_returns.
Qed.

(** C7, as the code has it.  The dispatcher answers an action whose type
    is none of email, webhook, database, sms, notification and delay,
    and has a text, with the failure "Unknown action type: <type>",
    without raising and without touching anything; a type without a text
    makes it raise.  The step is not skipped: the run ends there.  On a
    database that answers, [executeWorkflow] returns the failure of that
    action, the row of the run is marked failed with the text of the
    dispatcher, the owner is notified, and nothing else changes. *)
Theorem unknown_action_type_fails (done rest : list value) (action type : value)
    (name : string) (context : WorkflowContext num) (st1 : Store) row1 w1 :
  find_workflow (workflow_id workflow) (workflows st) = Some w →
  refusals st = [] →
  actions_of workflow = done ++ action :: rest →
  run_prefix workflow (input trigger_data) execution_id done st0
    = (Normal (Continue context), st1) →
  joined execution_id st1 = Some (row1, w1) →
  get_property (substituteVariables action (context_value context)) "type"
    = Normal type →
  registered type = false →
  js_String type = Normal name →
  (∀ a t n c (s : Store),
     get_property a "type" = Normal t → registered t = false →
     js_String t = Normal n →
     executeAction a c s =
       (Normal {| success := false;
                  data := VUndefined;
                  error := Some ("Unknown action type: " +:+ n) |},
        s))
  ∧ (∀ a t e c (s : Store),
       get_property a "type" = Normal t → registered t = false →
       js_String t = Throw e →
       executeAction a c s = (Throw e, s))
  ∧ executeWorkflow workflow trigger_data st =
      (Normal {| result :=
                   {| success := false;
                      data := VUndefined;
                      error := Some ("Action " +:+ pretty (length done + 1)
                                     +:+ " failed: Unknown action type: " +:+ name) |};
                 executionId := execution_id |},
       {| workflows := workflows st1; listings := listings st1; users := users st1;
          executions :=
            <[execution_id :=
                {| execution_workflowId := execution_workflowId row1;
                   execution_status := "failed";
                   execution_startTime := execution_startTime row1;
                   execution_endTime := Some (clock st1);
                   execution_input := execution_input row1;
                   execution_output := VNull;
                   execution_error := Some ("Unknown action type: " +:+ name) |}]>
              (executions st1);
          notifications :=
            notifications st1 ++
            [{| notification_userId := workflow_userId w1;
                notification_type := "workflow_error";
                notification_message :=
                  VStr ("Workflow " +:+ String "034"%char (workflow_name w1)
                        +:+ String "034"%char " failed: Unknown action type: "
                        +:+ name);
                notification_metadata :=
                  FailureMetadata (workflow_id w1) execution_id |}];
          clock := S (clock st1);
          world := world st1;
          refusals := [] |}).
Proof.
  intros Hworkflow Hanswers Hactions Hdone Hjoined Htype Hunknown Hname.
  unfold execution_id, st0 in *.
  destruct (run_workflow_prefix _ _ _ _ Hworkflow Hanswers _ _ _ _ Hactions Hdone)
    as (_ & Hquiet & _ & _ & _).
  split_and!.
  - intros a t n c s. apply executeAction_unknown.
  - intros a t e c s. apply executeAction_untyped.
  - eapply executeWorkflow_action_returns; [done..|].
    rewrite (run_action_failure _ _ _ _ _ _ _ _ _
               (executeAction_unknown _ _ _ context st1 Htype Hunknown Hname)
               eq_refl Hquiet Hjoined).
    unfold written, ended, notice, failed_text. cbn. by rewrite Hquiet.
Qed.

(** C6.  When an action fails, the run ends with it: what the run
    returns and the state it leaves are those of the failing step,
    whatever actions follow.  At that point [stepResults] holds the
    entries of the triggers followed by those of the actions before the
    failing one, and [variables] holds the trigger data followed by the
    results of these actions.  Both only grow: at every earlier point of
    the run they were a prefix of what they are later. *)
Theorem failing_action_ends_run (earlier later rest : list value) (action : value)
    (context context' : WorkflowContext num) (r : RunResult num) (st1 st' : Store) :
  find_workflow (workflow_id workflow) (workflows st) = Some w →
  hd false (refusals st) = false →
  actions_of workflow = (earlier ++ later) ++ action :: rest →
  run_prefix workflow (input trigger_data) execution_id (earlier ++ later) st0
    = (Normal (Continue context), st1) →
  run_action execution_id (length (earlier ++ later)) action context st1
    = (Normal (Return context' r), st') →
  executeWorkflow workflow trigger_data st = (Normal r, st')
  ∧ run_workflow workflow (input trigger_data) execution_id st0
      = (Normal (context, r), st')
  ∧ success (result r) = false
  ∧ (∃ results,
       length results = length (earlier ++ later)
       ∧ stepResults context =
           trigger_entries (triggers_of workflow) (input trigger_data)
           ++ action_entries results
       ∧ variables context =
           ("trigger", input trigger_data) :: variable_entries results)
  ∧ (∃ before st2,
       run_prefix workflow (input trigger_data) execution_id earlier st0
         = (Normal (Continue before), st2)
       ∧ stepResults before `prefix_of` stepResults context
       ∧ variables before `prefix_of` variables context)
  ∧ (∀ validated others,
       triggers_of workflow = validated ++ others →
       trigger_entries validated (input trigger_data)
         `prefix_of` stepResults context).
Proof.
  unfold execution_id, st0. intros Hworkflow Hcreate Hactions Hdone Hstep.
  destruct (run_prefix_continue _ _ _ _ _ _ _ _ Hactions Hdone)
    as (_ & Hfresh & Hloop & Hbody).
  destruct (run_action_returns _ _ _ _ _ _ _ _ Hstep) as [-> Hfailed].
  rewrite run_actions_cons, Hstep in Hbody.
  pose proof (run_workflow_created _ _ _ _ Hworkflow Hcreate _ _ _ Hbody) as Hrun.
  destruct (run_actions_succeeded _ _ _ _ _ _ _ Hloop Hfresh)
    as (results & Hlen & Hsteps & Hvars & _ & _).
  rewrite seed_after_triggers in Hsteps.
  destruct (after_triggers_fields (triggers_of workflow)
              (seed workflow (input trigger_data))) as (_ & _ & _ & Hseed).
  rewrite Hseed in Hvars. cbn in Hvars.
  split_and!; [done..| | |].
  - by exists results.
  - rewrite run_actions_app in Hloop.
    destruct (run_actions (length (executions st)) 0 earlier
                (after_triggers (triggers_of workflow)
                   (seed workflow (input trigger_data)))
                (start workflow trigger_data st))
      as [[[before|before r']|e] st2] eqn:Hearlier; [|done..].
    exists before, st2.
    destruct (run_actions_succeeded _ _ _ _ _ _ _ Hearlier Hfresh)
      as (results1 & _ & Hsteps1 & Hvars1 & _ & Hfresh1).
    destruct (run_actions_succeeded _ _ _ _ _ _ _ Hloop Hfresh1)
      as (results2 & _ & Hsteps2 & Hvars2 & _ & _).
    split_and!.
    + rewrite run_prefix_unfold in Hdone |- *.
      destruct (run_triggers (length (executions st)) (triggers_of workflow)
                  (seed workflow (input trigger_data))
                  (start workflow trigger_data st))
        as [[[c|c r']|e] st3] eqn:Ht; [|done..].
      by apply run_triggers_continue in Ht as (_ & -> & ->).
    + rewrite Hsteps2. by apply prefix_app_r.
    + rewrite Hvars2. by apply prefix_app_r.
  - intros validated others Htriggers. rewrite Hsteps. apply prefix_app_r.
    unfold trigger_entries. rewrite Htriggers, map_app.
    destruct (first_occurrences_prefix (map trigger_key validated)
                (map trigger_key others)) as [more ->].
    rewrite map_app. by apply prefix_app_r.
Qed.

End engine_properties.

(** ** Further properties of the engine *)

Lemma no_dot_action_key (i : nat) : no_dot (action_key i) = true.
Proof. unfold action_key. by rewrite no_dot_append, pretty_nat_no_dot. Qed.

Lemma no_dot_result_key (i : nat) : no_dot (result_key i) = true.
Proof. unfold result_key. by rewrite !no_dot_append, pretty_nat_no_dot. Qed.

(* the two steps by which a path [root.key] and what follows it are
   resolved in a context *)
Lemma context_path (context : WorkflowContext num) (root : string)
    (entries : list (string * value)) (c : ascii) (key : string)
    (keys : list string) (v : value) :
  get_property (context_value context) root = Normal (VObj entries) →
  digits_only root = false →
  is_digit c = false → no_dot (String c key) = true → no_dot root = true →
  obj_get (String c key) entries = Some v →
  getNestedValue_from (context_value context)
    (split_dots (root +:+ "." +:+ String c key) ++ keys)
  = getNestedValue_from v keys.
Proof.
  intros Hroot Hdigits Hc Hkey Hnodot Hget.
  rewrite split_dots_append, (split_dots_no_dot _ Hkey), (split_dots_no_dot _ Hnodot).
  cbn [app getNestedValue_from]. change (is_nullish (context_value context)) with false.
  cbn match. rewrite Hdigits, Hroot.
  by apply getNestedValue_from_object.
Qed.

Lemma run_triggers_nullish (execution_id : nat) (trigger : value)
    (rest : list value) (context : WorkflowContext num) (st : Store) :
  is_nullish trigger = true →
  run_triggers execution_id (trigger :: rest) context st =
    (Throw (ErrorObject (read_nullish_message (negb (is_undefined trigger)) "type")),
     st).
Proof. by destruct trigger. Qed.

Lemma constructed_nullish (result : under_construction (num := num)) :
  is_nullish (constructed result) = false.
Proof. by destruct result as [[p|] own]. Qed.

Lemma substituteVariables_nullish (v context : value) :
  is_nullish (substituteVariables v context) = is_nullish v.
Proof.
  destruct v as [| |b|n|s|items|entries|proto entries|name]; try done.
  - apply constructed_nullish.
  - apply constructed_nullish.
  - change (substituteVariables (VHost name) context)
      with (if host_function name then VHost name : value
            else if host_array name then VArr [] else VObj []).
    destruct (host_function name); [done|]. by destruct (host_array name).
Qed.

Lemma executeAction_nullish (action : value) (context : WorkflowContext num)
    (st : Store) :
  is_nullish action = true →
  executeAction action context st =
    (Throw (ErrorObject (destructure_nullish_message (negb (is_undefined action)))),
     st).
Proof. by destruct action. Qed.

Lemma call_throw (handler : Store → completion (ActionResult num) * Store)
    (st st' : Store) (e : exn) :
  call handler st = (Throw e, st') → (handler st).1 = Throw e.
Proof. unfold call. destruct (handler st) as [r st1]. by intros [= -> _]. Qed.

Lemma executeNotificationAction_returns (config : value)
    (context : WorkflowContext num) (st : Store) :
  ∃ r st', executeNotificationAction config context st = (Normal r, st').
Proof.
  unfold executeNotificationAction, try_catch, bind, lift, ret.
  destruct (get_property config "message") as [message|e]; [|by eauto].
  destruct (prisma_notification_create _ st) as [[[]|e] st1]; by eauto.
Qed.

(** X11.  The dispatcher raises in three cases only: on an action that
    is null or undefined, with the TypeError of the destructuring; on an
    action of a type it does not know when that type has no text, with
    the error of the conversion; and when the handler of a service
    raises.  In the first two cases nothing has been touched.  The
    notification action never raises. *)
Theorem executeAction_raises (action : value) (context : WorkflowContext num)
    (st st' : Store) (e : exn) :
  executeAction action context st = (Throw e, st') →
  (is_nullish action = true
   ∧ e = ErrorObject (destructure_nullish_message (negb (is_undefined action)))
   ∧ st' = st)
  ∨ (∃ type,
       get_property action "type" = Normal type ∧ registered type = false
       ∧ js_String type = Throw e ∧ st' = st)
  ∨ (∃ type config,
       get_property action "type" = Normal type
       ∧ get_property action "config" = Normal config
       ∧ ((type = VStr "email" ∧ (executeEmailAction config context st).1 = Throw e)
          ∨ (type = VStr "webhook"
             ∧ (executeWebhookAction config context st).1 = Throw e)
          ∨ (type = VStr "database"
             ∧ (executeDatabaseAction config context st).1 = Throw e)
          ∨ (type = VStr "sms" ∧ (executeSMSAction config context st).1 = Throw e)
          ∨ (type = VStr "delay"
             ∧ (executeDelayAction config context st).1 = Throw e))).
Proof.
  destruct (is_nullish action) eqn:Hnull.
  { rewrite (executeAction_nullish _ _ _ Hnull). intros [= <- <-]. by left. }
  destruct (get_property_normal action "type" Hnull) as [type Htype].
  destruct (get_property_normal action "config" Hnull) as [config Hconfig].
  unfold executeAction, bind, lift, destructure_action.
  assert (match action with
          | VUndefined => Throw (ErrorObject (destructure_nullish_message false))
          | VNull => Throw (ErrorObject (destructure_nullish_message true))
          | _ => do* type := get_property action "type" in
                 do* config := get_property action "config" in
                 Normal (type, config)
          end = Normal (type, config)) as ->.
  { rewrite Htype, Hconfig. by destruct action. }
  cbn [fst snd].
  assert (∀ s, is_string type s = true → type = VStr s) as Hs.
  { intros s. destruct type; try done. cbn. by intros ->%String.eqb_eq. }
  destruct (is_string type "email") eqn:H1.
  { intros Hrun%call_throw. right; right. exists type, config.
    split_and!; [done..|]. left. by rewrite (Hs _ H1). }
  destruct (is_string type "webhook") eqn:H2.
  { intros Hrun%call_throw. right; right. exists type, config.
    split_and!; [done..|]. right; left. by rewrite (Hs _ H2). }
  destruct (is_string type "database") eqn:H3.
  { intros Hrun%call_throw. right; right. exists type, config.
    split_and!; [done..|]. right; right; left. by rewrite (Hs _ H3). }
  destruct (is_string type "sms") eqn:H4.
  { intros Hrun%call_throw. right; right. exists type, config.
    split_and!; [done..|]. do 3 right; left. by rewrite (Hs _ H4). }
  destruct (is_string type "notification") eqn:H5.
  { destruct (executeNotificationAction_returns config context st)
      as (r & st1 & ->). done. }
  destruct (is_string type "delay") eqn:H6.
  { intros Hrun%call_throw. right; right. exists type, config.
    split_and!; [done..|]. do 4 right. by rewrite (Hs _ H6). }
  destruct (js_String type) as [name|e'] eqn:Hname; [done|].
  intros [= <- <-]. right; left. exists type. split_and!; try done.
  unfold registered. by rewrite H1, H2, H3, H4, H5, H6.
Qed.

Section run_more.
Context (workflow : Workflow num) (trigger_data : value) (st : Store).
Context (w : Workflow num).

Let execution_id : nat := length (executions st).
Let st0 : Store := start workflow trigger_data st.

(** X5.  What an action returns reaches every later step of the run: once
    action [i] has succeeded, the context of each later action resolves
    [variables.action_<i>_result] and [stepResults.action_<i>] to the data
    of its result, and a longer path to what the rest of the path finds in
    that data; no later step overwrites it. *)
Theorem action_result_reaches_later_steps (earlier later rest : list value)
    (action : value) (before context : WorkflowContext num)
    (r : ActionResult num) (st1 st2 st3 : Store) :
  find_workflow (workflow_id workflow) (workflows st) = Some w →
  actions_of workflow = (earlier ++ action :: later) ++ rest →
  run_prefix workflow (input trigger_data) execution_id earlier st0
    = (Normal (Continue before), st1) →
  executeAction (substituteVariables action (context_value before)) before st1
    = (Normal r, st2) →
  success r = true →
  run_prefix workflow (input trigger_data) execution_id
    (earlier ++ action :: later) st0 = (Normal (Continue context), st3) →
  getNestedValue (context_value context)
    ("variables." +:+ result_key (length earlier)) = Normal (data r)
  ∧ getNestedValue (context_value context)
      ("stepResults." +:+ action_key (length earlier)) = Normal (data r)
  ∧ ∀ q,
      getNestedValue (context_value context)
        ("variables." +:+ result_key (length earlier) +:+ "." +:+ q)
      = getNestedValue (data r) q
      ∧ getNestedValue (context_value context)
          ("stepResults." +:+ action_key (length earlier) +:+ "." +:+ q)
        = getNestedValue (data r) q.
Proof.
  unfold execution_id, st0. intros Hworkflow Hactions Hearlier Hexec Hok Hall.
  assert (actions_of workflow = earlier ++ (action :: later) ++ rest) as Hactions'.
  { by rewrite Hactions, <- app_assoc. }
  destruct (run_prefix_continue _ _ _ _ _ _ _ _ Hactions' Hearlier)
    as (_ & Hfresh0 & Hloop1 & _).
  destruct (run_prefix_continue _ _ _ _ _ _ _ _ Hactions Hall)
    as (_ & _ & Hloop3 & _).
  destruct (run_actions_succeeded _ _ _ _ _ _ _ Hloop1 Hfresh0)
    as (_ & _ & _ & _ & _ & Hfresh).
  rewrite run_actions_app, Hloop1, run_actions_cons,
    (run_action_success _ _ _ _ _ _ _ Hexec Hok) in Hloop3.
  cbn [Nat.add] in Hfresh, Hloop3.
  destruct (after_action_fresh _ (data r) _ Hfresh) as (Hsteps & Hvars & _ & Hfresh').
  destruct (run_actions_succeeded _ _ _ _ _ _ _ Hloop3 Hfresh')
    as (results & _ & Hsteps' & Hvars' & _ & _).
  rewrite Hsteps, <- app_assoc in Hsteps'. rewrite Hvars, <- app_assoc in Hvars'.
  assert (obj_get (result_key (length earlier)) (variables context) = Some (data r))
    as Hvar.
  { rewrite Hvars'. apply obj_get_app_fresh. apply (Hfresh (length earlier)). lia. }
  assert (obj_get (action_key (length earlier)) (stepResults context) = Some (data r))
    as Hstep.
  { rewrite Hsteps'. apply obj_get_app_fresh. apply (Hfresh (length earlier)). lia. }
  assert (∀ keys,
    getNestedValue_from (context_value context)
      (split_dots ("variables" +:+ "." +:+ result_key (length earlier)) ++ keys)
    = getNestedValue_from (data r) keys) as Hv.
  { intros keys. eapply (context_path _ "variables" _ "a"); try done.
    apply no_dot_result_key. }
  assert (∀ keys,
    getNestedValue_from (context_value context)
      (split_dots ("stepResults" +:+ "." +:+ action_key (length earlier)) ++ keys)
    = getNestedValue_from (data r) keys) as Hs.
  { intros keys. eapply (context_path _ "stepResults" _ "a"); try done.
    apply no_dot_action_key. }
  split_and!.
  - unfold getNestedValue. specialize (Hv []). by rewrite app_nil_r in Hv.
  - unfold getNestedValue. specialize (Hs []). by rewrite app_nil_r in Hs.
  - intros q. unfold getNestedValue. split.
    + change ("variables." +:+ result_key (length earlier) +:+ "." +:+ q)
        with (("variables" +:+ "." +:+ result_key (length earlier)) +:+ "." +:+ q).
      by rewrite split_dots_append, Hv.
    + change ("stepResults." +:+ action_key (length earlier) +:+ "." +:+ q)
        with (("stepResults" +:+ "." +:+ action_key (length earlier)) +:+ "." +:+ q).
      by rewrite split_dots_append, Hs.
Qed.

(** X6.  At every point of a run the context resolves
    [variables.trigger] and [triggerData] to the trigger data the run was
    started with, and a longer path to what the rest of the path finds in
    them. *)
Theorem trigger_data_reachable (done rest : list value)
    (context : WorkflowContext num) (st1 : Store) :
  find_workflow (workflow_id workflow) (workflows st) = Some w →
  actions_of workflow = done ++ rest →
  run_prefix workflow (input trigger_data) execution_id done st0
    = (Normal (Continue context), st1) →
  getNestedValue (context_value context) "variables.trigger"
    = Normal (input trigger_data)
  ∧ getNestedValue (context_value context) "triggerData"
    = Normal (input trigger_data)
  ∧ ∀ q,
      getNestedValue (context_value context) ("variables.trigger." +:+ q)
      = getNestedValue (input trigger_data) q
      ∧ getNestedValue (context_value context) ("triggerData." +:+ q)
        = getNestedValue (input trigger_data) q.
Proof.
  unfold execution_id, st0. intros Hworkflow Hactions Hdone.
  destruct (run_prefix_continue _ _ _ _ _ _ _ _ Hactions Hdone)
    as (_ & Hfresh & Hloop & _).
  destruct (run_actions_succeeded _ _ _ _ _ _ _ Hloop Hfresh)
    as (results & _ & _ & Hvars & Hdata & _).
  destruct (after_triggers_fields (triggers_of workflow)
              (seed workflow (input trigger_data))) as (_ & _ & Hdata0 & Hvars0).
  rewrite Hvars0 in Hvars. rewrite Hdata0 in Hdata. cbn in Hvars, Hdata.
  assert (∀ keys,
    getNestedValue_from (context_value context)
      (split_dots ("variables" +:+ "." +:+ "trigger") ++ keys)
    = getNestedValue_from (input trigger_data) keys) as Hv.
  { intros keys. eapply (context_path _ "variables" _ "t"); try done.
    by rewrite Hvars. }
  assert (∀ keys,
    getNestedValue_from (context_value context) ("triggerData" :: keys)
    = getNestedValue_from (input trigger_data) keys) as Ht.
  { intros keys. cbn. by rewrite Hdata. }
  split_and!.
  - unfold getNestedValue. specialize (Hv []). by rewrite app_nil_r in Hv.
  - apply (Ht []).
  - intros q. unfold getNestedValue. split.
    + change ("variables.trigger." +:+ q)
        with (("variables" +:+ "." +:+ "trigger") +:+ "." +:+ q).
      by rewrite split_dots_append, Hv.
    + change ("triggerData." +:+ q) with ("triggerData" +:+ "." +:+ q).
      rewrite split_dots_append. apply Ht.
Qed.

(** X7.  A trigger that is null or undefined makes [validateTrigger]
    raise; the fault is caught by the outer handler of [executeWorkflow]:
    on a database that answers, the run is marked failed with the text of
    the TypeError, without a prefix, the owner is notified,
    [executeWorkflow] returns that text, and nothing else has happened:
    no action has run. *)
Theorem null_trigger_fails_run (done rest : list value) (trigger : value) :
  find_workflow (workflow_id workflow) (workflows st) = Some w →
  refusals st = [] →
  triggers_of workflow = done ++ trigger :: rest →
  forallb valid_trigger done = true →
  is_nullish trigger = true →
  (∀ context,
     validateTrigger trigger context =
       Throw (ErrorObject
                (read_nullish_message (negb (is_undefined trigger)) "type")))
  ∧ executeWorkflow workflow trigger_data st =
      (Normal {| result :=
                   {| success := false;
                      data := VUndefined;
                      error :=
                        Some (read_nullish_message (negb (is_undefined trigger))
                                "type") |};
                 executionId := execution_id |},
       {| workflows := workflows st; listings := listings st; users := users st;
          executions :=
            executions st ++
            [{| execution_workflowId := workflow_id workflow;
                execution_status := "failed";
                execution_startTime := clock st;
                execution_endTime := Some (S (clock st));
                execution_input := input trigger_data;
                execution_output := VNull;
                execution_error :=
                  Some (read_nullish_message (negb (is_undefined trigger))
                          "type") |}];
          notifications :=
            notifications st ++
            [{| notification_userId := workflow_userId w;
                notification_type := "workflow_error";
                notification_message :=
                  VStr ("Workflow " +:+ String "034"%char (workflow_name w)
                        +:+ String "034"%char " failed: "
                        +:+ read_nullish_message (negb (is_undefined trigger))
                              "type");
                notification_metadata :=
                  FailureMetadata (workflow_id workflow) execution_id |}];
          clock := S (S (clock st));
          world := world st;
          refusals := [] |}).
Proof.
  intros Hworkflow Hanswers Htriggers Hdone Hnull. split.
  - intros context. by destruct trigger.
  - rewrite <- (failed_at_once _ _ _ _ _ Hworkflow Hanswers).
    rewrite (executeWorkflow_start _ _ _ _ Hworkflow Hanswers).
    erewrite try_catch_throw; cycle 1.
    { apply bind_throw.
      rewrite run_workflow_unfold, Htriggers, (run_triggers_valid _ _ _ _ _ Hdone).
      by rewrite (run_triggers_nullish _ _ _ _ _ Hnull). }
    unfold bind.
    by rewrite (updateExecutionStatus_run _ _ _ _ _ _ _
                  (start_refusals _ _ _ Hanswers)
                  (start_joined _ _ _ _ Hworkflow)).
Qed.

(** X8.  When every trigger validates and every action succeeds, the
    run is marked completed, on a database that answers and still holds
    its row: what [executeWorkflow] returns and stores is one entry for
    each trigger type, in the order of first occurrence, followed by one
    entry for each action, in order; the terminal write changes the row
    and reads the clock, and creates no notification. *)
Theorem completed_run_output (context : WorkflowContext num) (st1 : Store)
    row1 w1 :
  find_workflow (workflow_id workflow) (workflows st) = Some w →
  refusals st = [] →
  run_prefix workflow (input trigger_data) execution_id (actions_of workflow) st0
    = (Normal (Continue context), st1) →
  joined execution_id st1 = Some (row1, w1) →
  ∃ results,
    length results = length (actions_of workflow)
    ∧ executeWorkflow workflow trigger_data st =
        (Normal {| result :=
                     {| success := true;
                        data :=
                          VObj (trigger_entries (triggers_of workflow)
                                  (input trigger_data)
                                ++ action_entries results);
                        error := None |};
                   executionId := execution_id |},
         {| workflows := workflows st1; listings := listings st1;
            users := users st1;
            executions :=
              <[execution_id :=
                  {| execution_workflowId := execution_workflowId row1;
                     execution_status := "completed";
                     execution_startTime := execution_startTime row1;
                     execution_endTime := Some (clock st1);
                     execution_input := execution_input row1;
                     execution_output :=
                       VObj (trigger_entries (triggers_of workflow)
                               (input trigger_data)
                             ++ action_entries results);
                     execution_error := None |}]> (executions st1);
            notifications := notifications st1;
            clock := S (clock st1);
            world := world st1;
            refusals := [] |}).
Proof.
  unfold execution_id, st0. intros Hworkflow Hanswers Hdone Hjoined.
  assert (actions_of workflow = actions_of workflow ++ []) as Hactions.
  { by rewrite app_nil_r. }
  destruct (run_workflow_prefix _ _ _ _ Hworkflow Hanswers _ _ _ _ Hactions Hdone)
    as (_ & Hquiet & Hfresh & Hloop & Hrun).
  destruct (run_actions_succeeded _ _ _ _ _ _ _ Hloop Hfresh)
    as (results & Hlength & Hsteps & _).
  rewrite seed_after_triggers in Hsteps.
  change (imap (λ j d, (action_key (0 + j), d)) results)
    with (action_entries results) in Hsteps.
  rewrite run_actions_nil in Hrun. unfold bind in Hrun.
  rewrite (updateExecutionStatus_run _ _ _ _ _ _ _ Hquiet Hjoined) in Hrun.
  cbn [is_undefined] in Hrun. unfold ret in Hrun. rewrite Hsteps in Hrun.
  exists results. split; [done|].
  apply (run_workflow_returns _ _ _ _ Hworkflow Hanswers context).
  rewrite Hrun. unfold completed, written, ended. cbn.
  by rewrite Hsteps, Hquiet, app_nil_r.
Qed.

(** X10.  The row of a run is created outside the [try]: when the
    workflow is not in the database, or the database refuses the call,
    the creation raises, [executeWorkflow] raises with it, and no row
    and no notification is written. *)
Theorem creation_outside_try :
  find_workflow (workflow_id workflow) (workflows st) = None
  ∨ hd false (refusals st) = true →
  ∃ st',
    executeWorkflow workflow trigger_data st
      = (Throw (ErrorObject (if hd false (refusals st) then refusal_message
                             else foreign_key_message)), st')
    ∧ workflows st' = workflows st ∧ executions st' = executions st
    ∧ notifications st' = notifications st ∧ world st' = world st
    ∧ users st' = users st ∧ listings st' = listings st.
Proof.
  intros Hcases.
  unfold executeWorkflow, bind at 1, new_Date. unfold bind at 1.
  unfold prisma_execution_create, attempt.
  cbn [clock workflows executions created execution_workflowId with_clock refusals].
  destruct (refusals st) as [|[] later] eqn:Hrefusals; cbn [hd] in *.
  - destruct Hcases as [->|]; [|done]. by eexists.
  - by eexists.
  - destruct Hcases as [Hnone|]; [|done]. cbn. rewrite Hnone. by eexists.
Qed.

(** X12.  A hole in the action list, null or undefined, ends the run at
    that step with the text [Action <i+1> error: <TypeError>].  On a
    database that answers and still holds the row of the run, that text
    is both returned and stored, the owner is notified of it, and
    nothing else changes: no handler is called. *)
Theorem null_action_faults_run (done rest : list value) (action : value)
    (context : WorkflowContext num) (st1 : Store) row1 w1 :
  find_workflow (workflow_id workflow) (workflows st) = Some w →
  refusals st = [] →
  actions_of workflow = done ++ action :: rest →
  run_prefix workflow (input trigger_data) execution_id done st0
    = (Normal (Continue context), st1) →
  joined execution_id st1 = Some (row1, w1) →
  is_nullish action = true →
  executeWorkflow workflow trigger_data st =
    (Normal {| result :=
                 {| success := false;
                    data := VUndefined;
                    error :=
                      Some ("Action " +:+ pretty (length done + 1) +:+ " error: "
                            +:+ destructure_nullish_message
                                  (negb (is_undefined action))) |};
               executionId := execution_id |},
     {| workflows := workflows st1; listings := listings st1; users := users st1;
        executions :=
          <[execution_id :=
              {| execution_workflowId := execution_workflowId row1;
                 execution_status := "failed";
                 execution_startTime := execution_startTime row1;
                 execution_endTime := Some (clock st1);
                 execution_input := execution_input row1;
                 execution_output := VNull;
                 execution_error :=
                   Some ("Action " +:+ pretty (length done + 1) +:+ " error: "
                         +:+ destructure_nullish_message
                               (negb (is_undefined action))) |}]>
            (executions st1);
        notifications :=
          notifications st1 ++
          [{| notification_userId := workflow_userId w1;
              notification_type := "workflow_error";
              notification_message :=
                VStr ("Workflow " +:+ String "034"%char (workflow_name w1)
                      +:+ String "034"%char " failed: "
                      +:+ "Action " +:+ pretty (length done + 1) +:+ " error: "
                      +:+ destructure_nullish_message (negb (is_undefined action)));
              notification_metadata :=
                FailureMetadata (workflow_id w1) execution_id |}];
        clock := S (clock st1);
        world := world st1;
        refusals := [] |}).
Proof.
  intros Hworkflow Hanswers Hactions Hdone Hjoined Hnull.
  unfold execution_id, st0 in *.
  destruct (run_workflow_prefix _ _ _ _ Hworkflow Hanswers _ _ _ _ Hactions Hdone)
    as (_ & Hquiet & _ & _ & _).
  assert (is_nullish (substituteVariables action (context_value context)) = true)
    as Hnull'.
  { by rewrite substituteVariables_nullish. }
  pose proof (executeAction_nullish _ context st1 Hnull') as Hraises.
  eapply (executeWorkflow_action_returns workflow trigger_data st w); [done..|].
  rewrite (run_action_fault _ _ _ _ _ _ _ _ _ Hraises Hquiet Hjoined).
  unfold written, ended, notice, fault_text. cbn. rewrite Hquiet.
  by destruct action.
Qed.

End run_more.

(** X4.  In the context the engine hands to the resolver the data of a
    run sit under [variables], [stepResults] and [triggerData]: a path
    that starts at [trigger] or at a name of the form [action_...] finds
    nothing, and its placeholder is copied as it stands. *)
Theorem step_names_unresolved (context : WorkflowContext num) (path rest : string) :
  path ≠ "" → no_rbrace path = true →
  step_name (first_segment path) = true →
  getNestedValue (context_value context) (trim path) = Normal VUndefined
  ∧ substituteInString (placeholder path +:+ rest) (context_value context) =
      placeholder path +:+ substituteInString rest (context_value context).
Proof.
  intros Hne Hp Hname.
  assert (getNestedValue (context_value context) (trim path) = Normal VUndefined)
    as Hundefined.
  { unfold getNestedValue. unfold first_segment in Hname.
    destruct (split_dots (trim path)) as [|key keys]; [done|].
    unfold step_name in Hname. apply orb_true_iff in Hname as [Hname|Hname].
    - apply String.eqb_eq in Hname as ->.
      by apply (getNestedValue_from_absent _ "t" "rigger").
    - destruct (strip_prefix "action_" key) as [name|] eqn:Hkey; [|done].
      apply strip_prefix_inv in Hkey as ->.
      by apply (getNestedValue_from_absent _ "a" ("ction_" +:+ name)). }
  split; [done|].
  rewrite (substituteInString_placeholder _ _ _ Hne Hp).
  unfold resolve_placeholder. by rewrite Hundefined.
Qed.
End engine.

(** ** The handlers *)

Section handler_properties.
Context `{Runtime num} `{Services num World Transporter}.
Local Abbreviation value := (value num).
Import actionHandlers.

Lemma is_string_eq (v : value) (s : string) : is_string v s = true → v = VStr s.
Proof. destruct v; try done. cbn. by intros ->%String.eqb_eq. Qed.

Lemma failing_reports (text : string) : is_Some (error (failing text : ActionResult num)).
Proof. by eexists. Qed.

Lemma destructure_normal (source key : string) (v : value) :
  destructure source v key = Normal () → is_nullish v = false.
Proof. by destruct v. Qed.

Lemma destructure_run (source key : string) (v : value) :
  is_nullish v = false → destructure source v key = Normal ().
Proof. by destruct v. Qed.

Lemma returning_reports {S : Type}
    (handler : value → WorkflowContext num → S → ActionResult num * S) :
  (∀ config context s,
     success (handler config context s).1 = false →
     is_Some (error (handler config context s).1)) →
  reports_error (λ config context, returning (handler config context)).
Proof.
  intros Hreports config context s r. unfold returning.
  specialize (Hreports config context s).
  destruct (handler config context s) as [r' s']. cbn in *.
  intros [= <-]. apply Hreports.
Qed.

Lemma on_services_reports
    (handler : value → WorkflowContext num → World
               → completion (ActionResult num) * World) :
  reports_error handler →
  reports_error (λ config context, on_services (handler config context)).
Proof.
  intros Hreports config context st r. unfold on_services.
  specialize (Hreports config context (world st) r).
  destruct (handler config context (world st)) as [r' w']. cbn in *.
  apply Hreports.
Qed.

Lemma twilio_message_reports (stored config : value) (r : ActionResult num) :
  twilio_message stored config = Normal (inl r) → ∃ text, r = failing text.
Proof.
  unfold twilio_message, then_.
  repeat case_match; try done; intros [= <-]; by eexists.
Qed.

Lemma executeTwilioSMS_reports (config : value) (context : WorkflowContext num)
    (w : World) :
  success (executeTwilioSMS config context w).1 = false →
  is_Some (error (executeTwilioSMS config context w).1).
Proof.
  unfold executeTwilioSMS.
  destruct (integration_findFirst (userId context) "twilio" w) as [[stored|]|e];
    [|intros _; apply failing_reports..].
  destruct (twilio_message stored config) as [[r|[to from]]|e] eqn:Hmessage.
  - intros _. destruct (twilio_message_reports _ _ _ Hmessage) as [text ->].
    apply failing_reports.
  - by destruct (mock_message w) as [[stamp dateCreated] w'].
  - intros _. apply failing_reports.
Qed.

Lemma sms_provider_reports (config : value) (r : ActionResult num) :
  sms_provider config = Normal (Some r) → ∃ text, r = failing text.
Proof.
  unfold sms_provider, then_.
  repeat case_match; try done; intros [= <-]; by eexists.
Qed.

Lemma executeSMSAction_reports (config : value) (context : WorkflowContext num)
    (w : World) :
  success (executeSMSAction config context w).1 = false →
  is_Some (error (executeSMSAction config context w).1).
Proof.
  unfold executeSMSAction.
  destruct (sms_provider config) as [[r|]|e] eqn:Hprovider.
  - intros _. destruct (sms_provider_reports _ _ Hprovider) as [text ->].
    apply failing_reports.
  - apply executeTwilioSMS_reports.
  - intros _. apply failing_reports.
Qed.

Lemma choose_transporter_reports (config provider from : value)
    (context : WorkflowContext num) (w : World) (r : ActionResult num) :
  choose_transporter config provider from context w = Normal (inr r) →
  ∃ text, r = failing text.
Proof.
  unfold choose_transporter, then_.
  repeat case_match; try done; intros [= <-]; by eexists.
Qed.

Lemma prepare_mail_reports (config : value) (context : WorkflowContext num)
    (w : World) (r : ActionResult num) :
  prepare_mail config context w = Normal (inl r) → ∃ text, r = failing text.
Proof.
  unfold prepare_mail, then_.
  repeat case_match; try done; intros [= <-];
    first [by eexists|by eapply choose_transporter_reports].
Qed.

Lemma executeEmailAction_reports (config : value) (context : WorkflowContext num)
    (w : World) :
  success (executeEmailAction config context w).1 = false →
  is_Some (error (executeEmailAction config context w).1).
Proof.
  unfold executeEmailAction.
  destruct (prepare_mail config context w) as [[r|[[transporter options] quoted]]|e]
    eqn:Hmail.
  - intros _. destruct (prepare_mail_reports _ _ _ _ Hmail) as [text ->].
    apply failing_reports.
  - destruct (sendMail transporter options w) as [[result|e] w'];
      [|intros _; apply failing_reports].
    destruct (get_property result "messageId"); [done|].
    intros _. apply failing_reports.
  - intros _. apply failing_reports.
Qed.

Lemma executeDelayAction_reports (config : value) (context : WorkflowContext num)
    (w : World) :
  success (executeDelayAction config context w).1 = false →
  is_Some (error (executeDelayAction config context w).1).
Proof.
  unfold executeDelayAction.
  match goal with |- context [match ?c with Normal _ => _ | Throw _ => _ end] =>
    destruct c end; [done|].
  intros _. apply failing_reports.
Qed.

(** X17.  A text message is sent only for a valid configuration: when
    [executeSMSAction] fails the world is as before; when it succeeds the
    provider is twilio, [to] and [message] are present, the credentials
    stored for the owner decrypt and hold a phone number, the only effect
    is that of the Twilio mock, and the result echoes [to] and carries as
    sender the [from] of the configuration or, when that is absent, the
    phone number of the credentials. *)
Theorem text_message_sent_when_valid (config : value)
    (context : WorkflowContext num) (w : World) :
  let r := (executeSMSAction config context w).1 in
  let w' := (executeSMSAction config context w).2 in
  (success r = false → w' = w)
  ∧ (success r = true →
     ∃ to message from stored credentials phoneNumber,
       get_property config "provider" = Normal (VStr "twilio")
       ∧ get_property config "to" = Normal to ∧ truthy to = true
       ∧ get_property config "message" = Normal message ∧ truthy message = true
       ∧ get_property config "from" = Normal from
       ∧ integration_findFirst (userId context) "twilio" w = Normal (Some stored)
       ∧ decrypt stored = Some credentials
       ∧ get_property credentials "phoneNumber" = Normal phoneNumber
       ∧ truthy phoneNumber = true
       ∧ w' = (mock_message w).2
       ∧ r = {| success := true;
                data :=
                  VObj [("provider", VStr "twilio");
                        ("messageId", VStr ("SM" +:+ (mock_message w).1.1));
                        ("to", to);
                        ("from", if is_undefined from then phoneNumber else from);
                        ("status", VStr "sent");
                        ("dateSent", VStr (mock_message w).1.2)];
                error := None |}).
Proof.
  cbv zeta. unfold executeSMSAction, sms_provider.
  destruct (destructure "config" config "provider") as [[]|e]; [|done].
  cbn [then_].
  destruct (get_property config "provider") as [provider|e]; [|done].
  destruct (get_property config "to") as [to|e] eqn:Hto; [|done].
  destruct (get_property config "message") as [message|e] eqn:Hmessage; [|done].
  destruct (get_property config "from") as [from|e] eqn:Hfrom; [|done].
  cbn [then_].
  destruct (truthy provider); [|done].
  destruct (truthy to) eqn:Htruthy; [|done].
  destruct (truthy message) eqn:Htruthy'; [|done].
  cbn [negb orb].
  destruct (is_string provider "twilio") eqn:Htwilio.
  2:{ by destruct (js_String provider). }
  apply is_string_eq in Htwilio as ->.
  unfold executeTwilioSMS.
  destruct (integration_findFirst (userId context) "twilio" w)
    as [[stored|]|e]; [|done..].
  unfold twilio_message, decryptCredentials.
  destruct (decrypt stored) as [credentials|] eqn:Hdecrypt; [|done]. cbn [then_].
  destruct (destructure "credentials" credentials "accountSid") as [[]|e]; [|done].
  cbn [then_].
  destruct (get_property credentials "accountSid") as [accountSid|e]; [|done].
  destruct (get_property credentials "authToken") as [authToken|e]; [|done].
  destruct (get_property credentials "phoneNumber") as [phoneNumber|e] eqn:Hnumber;
    [|done].
  cbn [then_].
  destruct (truthy accountSid); [|done].
  destruct (truthy authToken); [|done].
  destruct (truthy phoneNumber) eqn:Hphone; [|done].
  cbn [negb orb].
  destruct (destructure "config" config "to") as [[]|e]; [|done].
  cbn [then_]. rewrite Hto, Hmessage, Hfrom. cbn [then_].
  destruct (mock_message w) as [[stamp dateCreated] w'] eqn:Hmock.
  cbn. split; [done|]. intros _.
  exists to, message, from, stored, credentials, phoneNumber. by split_and!.
Qed.

(** X18.  A mail without provider, recipient, subject or body is refused
    before anything is touched.  A mail that is reported sent went out
    through the transporter of one of the three providers, and its sender
    is the [from] of the configuration or, when that is missing, the
    default address; for SMTP the configuration had to name one.  The
    options of the mail carry that sender, the subject and the body, and
    the result echoes provider, recipient and subject and carries the
    identifier the transport returned. *)
Theorem mail_sent_when_valid (config : value) (context : WorkflowContext num)
    (w : World) :
  let r := (executeEmailAction config context w).1 in
  let w' := (executeEmailAction config context w).2 in
  (∀ provider to subject body,
     get_property config "provider" = Normal provider →
     get_property config "to" = Normal to →
     get_property config "subject" = Normal subject →
     get_property config "body" = Normal body →
     truthy provider && truthy to && truthy subject && truthy body = false →
     r = {| success := false;
            data := VUndefined;
            error := Some "Missing required email configuration: provider, to, subject, body" |}
     ∧ w' = w)
  ∧ (success r = true →
     ∃ provider to subject body from transporter recipients html result messageId,
       get_property config "provider" = Normal provider
       ∧ get_property config "to" = Normal to
       ∧ get_property config "subject" = Normal subject
       ∧ get_property config "body" = Normal body
       ∧ get_property config "from" = Normal from
       ∧ ((provider = VStr "gmail"
           ∧ createGmailTransporter (userId context) w = Some transporter)
          ∨ (provider = VStr "sendgrid"
             ∧ createSendGridTransporter (userId context) w = Some transporter)
          ∨ (provider = VStr "smtp" ∧ truthy from = true
             ∧ createSMTPTransporter config = Some transporter))
       ∧ sendMail transporter
           (VObj [("from", if truthy from then from
                           else VStr "noreply@minizapier.com");
                  ("to", recipients);
                  ("subject", subject);
                  ("text", body);
                  ("html", html)]) w
         = (Normal result, w')
       ∧ get_property result "messageId" = Normal messageId
       ∧ r = {| success := true;
                data := VObj [("messageId", messageId);
                              ("provider", provider);
                              ("to", to);
                              ("subject", subject)];
                error := None |}).
Proof.
  cbv zeta. unfold executeEmailAction, prepare_mail. split.
  { intros provider to subject body Hprovider Hto Hsubject Hbody Hmissing.
    assert (is_nullish config = false) as Hconfig by (by destruct config).
    rewrite (destructure_run _ _ _ Hconfig). cbn [then_].
    rewrite Hprovider, Hto, Hsubject, Hbody. cbn [then_].
    destruct (get_property_normal config "from" Hconfig) as [from ->]. cbn [then_].
    assert (negb (truthy provider) || negb (truthy to) || negb (truthy subject)
            || negb (truthy body) = true) as ->; [|done].
    by destruct (truthy provider), (truthy to), (truthy subject), (truthy body). }
  destruct (destructure "config" config "provider") as [[]|e]; [|done].
  cbn [then_].
  destruct (get_property config "provider") as [provider|e]; [|done].
  destruct (get_property config "to") as [to|e]; [|done].
  destruct (get_property config "subject") as [subject|e]; [|done].
  destruct (get_property config "body") as [body|e]; [|done].
  destruct (get_property config "from") as [from|e]; [|done].
  cbn [then_].
  destruct (negb (truthy provider) || negb (truthy to) || negb (truthy subject)
            || negb (truthy body)); [done|].
  destruct (choose_transporter config provider from context w)
    as [[[[transporter|] fromAddress]|r]|e] eqn:Hchosen; cbn [then_];
    [|by destruct (js_String provider)| |done].
  2:{ by destruct (choose_transporter_reports _ _ _ _ _ _ Hchosen) as [text ->]. }
  destruct (mailOptions fromAddress to subject body) as [options|e] eqn:Hoptions;
    [|done].
  cbn [then_].
  destruct (sendMail transporter options w) as [[result|e] w'] eqn:Hsend; [|done].
  destruct (get_property result "messageId") as [messageId|e] eqn:Hid; [|done].
  cbn [fst snd success]. intros _.
  assert (∃ recipients html,
            options = VObj [("from", fromAddress); ("to", recipients);
                            ("subject", subject); ("text", body); ("html", html)])
    as (recipients & html & ->).
  { unfold mailOptions, then_ in Hoptions.
    repeat case_match; simplify_eq; by eauto. }
  exists provider, to, subject, body, from, transporter, recipients, html, result,
    messageId.
  unfold choose_transporter in Hchosen.
  destruct (is_string provider "gmail") eqn:Hgmail.
  { apply is_string_eq in Hgmail as ->. injection Hchosen as [= Ht <-].
    split_and!; try done. by left. }
  destruct (is_string provider "sendgrid") eqn:Hsendgrid.
  { apply is_string_eq in Hsendgrid as ->. injection Hchosen as [= Ht <-].
    split_and!; try done. right; by left. }
  destruct (is_string provider "smtp") eqn:Hsmtp.
  { apply is_string_eq in Hsmtp as ->.
    destruct (truthy from) eqn:Hfrom; [|done]. injection Hchosen as [= Ht <-].
    split_and!; try done. right; by right. }
  by destruct (js_String provider).
Qed.

(** X19.  The delay fails when its configuration is null or undefined,
    and when a duration is given that has no text; it then leaves the
    world as it is and reports the error.  Otherwise it sleeps and
    reports the delay: the number read from the text of the duration, or
    one second when no duration is given. *)
Theorem delay_fails_on_no_config (config : value) (context : WorkflowContext num)
    (w : World) :
  (is_nullish config = true →
   executeDelayAction config context w =
     ({| success := false;
         data := VUndefined;
         error := Some ("Delay action failed: "
                        +:+ read_nullish_message (negb (is_undefined config))
                              "duration") |},
      w))
  ∧ (∀ duration,
       get_property config "duration" = Normal duration →
       (truthy duration = false →
        executeDelayAction config context w =
          ({| success := true;
              data := VObj [("message",
                             VStr ("Delayed for " +:+ num_to_string (num_of_nat 1000)
                                   +:+ "ms"))];
              error := None |},
           sleep (num_of_nat 1000) w))
       ∧ (∀ text,
            truthy duration = true → js_String duration = Normal text →
            executeDelayAction config context w =
              ({| success := true;
                  data := VObj [("message",
                                 VStr ("Delayed for "
                                       +:+ num_to_string (parseInt_text text)
                                       +:+ "ms"))];
                  error := None |},
               sleep (parseInt_text text) w))
       ∧ (∀ message,
            truthy duration = true →
            js_String duration = Throw (ErrorObject message) →
            executeDelayAction config context w =
              ({| success := false;
                  data := VUndefined;
                  error := Some ("Delay action failed: " +:+ message) |},
               w))).
Proof.
  unfold executeDelayAction, parseInt_value. split.
  - by destruct config.
  - intros duration ->. cbn [then_]. split_and!.
    + by intros ->.
    + by intros text -> ->.
    + by intros message -> ->.
Qed.

End handler_properties.

Section webhook_properties.
Context `{Runtime num} `{Services num World Transporter} `{Web num World}.
Local Abbreviation value := (value num).
Import actionHandlers webhookHandler.

Lemma obj_get_obj_replace (key key' : string) (v : value)
    (o : list (string * value)) :
  obj_get key' (obj_replace key v o) =
    if String.eqb key key' && has_key key o then Some v else obj_get key' o.
Proof.
  induction o as [|[k u] o IH]; cbn.
  { by rewrite andb_false_r. }
  destruct (String.eqb_spec k key) as [->|Hk]; cbn.
  - destruct (String.eqb_spec key key') as [->|Hkey]; cbn; [done|].
    by destruct (String.eqb_spec key key').
  - rewrite IH. destruct (String.eqb_spec key key') as [<-|Hkey]; cbn; [|done].
    destruct (String.eqb_spec k key); [done|]. done.
Qed.

Lemma obj_get_obj_insert_index (n : N) (key key' : string) (v : value)
    (o : list (string * value)) :
  has_key key o = false →
  obj_get key' (obj_insert_index n key v o) =
    if String.eqb key key' then Some v else obj_get key' o.
Proof.
  induction o as [|[k u] o IH]; cbn; [done|].
  intros [Hk Ho]%orb_false_iff.
  destruct (array_index k) as [m|]; [destruct (m <? n)%N|]; cbn; try done.
  rewrite (IH Ho). destruct (String.eqb_spec key key') as [<-|]; [|done].
  by rewrite Hk.
Qed.

Lemma obj_get_obj_set (key key' : string) (v : value) (o : list (string * value)) :
  obj_get key' (obj_set key v o) =
    if String.eqb key key' then Some v else obj_get key' o.
Proof.
  unfold obj_set. destruct (has_key key o) eqn:Hkey.
  - by rewrite obj_get_obj_replace, Hkey, andb_true_r.
  - destruct (array_index key) as [n|].
    + by apply obj_get_obj_insert_index.
    + rewrite obj_get_app. cbn.
      destruct (String.eqb_spec key key') as [<-|Hne].
      * by rewrite (obj_get_has_key _ _ Hkey).
      * by destruct (obj_get key' o).
Qed.

Lemma has_key_obj_delete (key key' : string) (o : list (string * value)) :
  has_key key' (obj_delete key o) = negb (String.eqb key key') && has_key key' o.
Proof.
  unfold obj_delete. induction o as [|[k u] o IH]; cbn.
  { by rewrite andb_false_r. }
  destruct (String.eqb_spec k key) as [->|Hk]; cbn.
  - rewrite IH. by destruct (String.eqb_spec key key').
  - rewrite IH. destruct (String.eqb_spec key key') as [<-|Hne]; cbn; [|done].
    by destruct (String.eqb_spec k key).
Qed.

Lemma obj_get_obj_delete (key key' : string) (o : list (string * value)) :
  String.eqb key key' = false → obj_get key' (obj_delete key o) = obj_get key' o.
Proof.
  intros Hne. unfold obj_delete. induction o as [|[k u] o IH]; cbn; [done|].
  destruct (String.eqb_spec k key) as [->|Hk]; cbn.
  - by rewrite Hne.
  - by rewrite IH.
Qed.

Lemma has_key_assigned (key : string) (entries o : list (string * value)) :
  has_key key o = true →
  has_key key
    (fold_left
       (λ o entry,
          if String.eqb (fst entry) "__proto__" then o
          else obj_set (fst entry) (snd entry) o)
       entries o) = true.
Proof.
  revert o. induction entries as [|[k v] entries IH]; intros o Ho; cbn; [done|].
  apply IH. destruct (String.eqb k "__proto__"); [done|].
  by rewrite has_key_obj_set, Ho, orb_true_r.
Qed.

Lemma custom_headers_has_key (headers : value) (key : string) :
  has_key key [("Content-Type", VStr "application/json" : value);
               ("User-Agent", VStr "Mini-Zapier/1.0")] = true →
  has_key key (custom_headers headers) = true.
Proof.
  intros Hstart. unfold custom_headers.
  destruct (is_object_value headers); [|done]. by apply has_key_assigned.
Qed.

Lemma authenticate_has_key (config auth_type auth_token : value)
    (o o' : list (string * value)) (key : string) :
  authenticate config auth_type auth_token o = Normal o' →
  has_key key o = true → has_key key o' = true.
Proof.
  unfold authenticate, then_. intros Hauth Ho.
  repeat case_match; simplify_eq; try done;
    by rewrite has_key_obj_set, Ho, orb_true_r.
Qed.

Lemma prepare_body_has_key (body method : value) (o o' : list (string * value))
    (requestBody : value) (key : string) :
  prepare_body body method o = Normal (requestBody, o') →
  has_key key o = true → has_key key o' = true.
Proof.
  unfold prepare_body, then_. intros Hprepare Ho.
  repeat case_match; simplify_eq; try done.
  rewrite has_key_obj_set, has_key_obj_delete, Ho, andb_true_r.
  by destruct (String.eqb_spec "Content-Type" key).
Qed.

Lemma prepare_body_other (body method : value) (o o' : list (string * value))
    (requestBody : value) (key : string) :
  prepare_body body method o = Normal (requestBody, o') →
  String.eqb "Content-Type" key = false →
  obj_get key o' = obj_get key o.
Proof.
  unfold prepare_body, then_. intros Hprepare Hkey.
  repeat case_match; simplify_eq; try done.
  by rewrite obj_get_obj_set, Hkey, obj_get_obj_delete.
Qed.

Lemma prepare_request_reports (config : value) (r : ActionResult num) :
  prepare_request config = Normal (inl r) → r = failing "Webhook URL is required".
Proof.
  unfold prepare_request, then_.
  repeat case_match; try done; by intros [= <-].
Qed.

Lemma executeWebhookAction_reports : reports_error executeWebhookAction.
Proof.
  intros config context w r. unfold executeWebhookAction.
  destruct (prepare_request config) as [[r'|request]|e] eqn:Hrequest; cbn [fst].
  - apply prepare_request_reports in Hrequest as ->. intros [= <-] _.
    apply failing_reports.
  - destruct (exchange request w)
      as [[ok status statusText headers responseData| |e] w'].
    + destruct ok; cbn [negb fst]; [by intros [= <-]|].
      destruct (js_String status) as [code|e]; cbn [then_];
        [destruct (js_String statusText) as [text|e]; cbn [then_]|];
        intros [= <-] _; by eexists.
    + cbn [fst]. destruct (get_property config "timeout") as [timeout|e];
        cbn [then_]; [|done].
      destruct (js_String _) as [text|e]; cbn [then_]; [|done].
      intros [= <-] _. apply failing_reports.
    + cbn [fst]. intros [= <-] _. apply failing_reports.
  - intros [= <-] _. apply failing_reports.
Qed.

(* the parts of a configuration from which a request is prepared *)
Lemma prepare_request_inv (config : value) (request : Request num) :
  prepare_request config = Normal (inr request) →
  ∃ url method headers body auth_type auth_token timeout requestHeaders prepared name,
    get_property config "url" = Normal url
    ∧ get_property config "method" = Normal method
    ∧ get_property config "headers" = Normal headers
    ∧ get_property config "body" = Normal body
    ∧ get_property config "auth_type" = Normal auth_type
    ∧ get_property config "auth_token" = Normal auth_token
    ∧ get_property config "timeout" = Normal timeout
    ∧ truthy url = true
    ∧ authenticate config auth_type auth_token
        (custom_headers (or_default headers (VObj []))) = Normal requestHeaders
    ∧ prepare_body body (or_default method (VStr "POST")) requestHeaders
        = Normal prepared
    ∧ upper (or_default method (VStr "POST")) = Normal name
    ∧ request = {| request_url := url;
                   request_method := name;
                   request_headers := snd prepared;
                   request_body := fst prepared;
                   request_timeout :=
                     or_default timeout (VNum (num_of_nat (30 * 1000))) |}.
Proof.
  unfold prepare_request.
  destruct (destructure "config" config "url") as [[]|e]; [|done]. cbn [then_].
  destruct (get_property config "url") as [url|e]; [|done].
  destruct (get_property config "method") as [method|e]; [|done].
  destruct (get_property config "headers") as [headers|e]; [|done].
  destruct (get_property config "body") as [body|e]; [|done].
  destruct (get_property config "auth_type") as [auth_type|e]; [|done].
  destruct (get_property config "auth_token") as [auth_token|e]; [|done].
  destruct (get_property config "timeout") as [timeout|e]; [|done].
  cbn [then_]. destruct (truthy url) eqn:Hurl; [|done]. cbn [negb].
  destruct (authenticate config auth_type auth_token _) as [requestHeaders|e]
    eqn:Hauth; [|done].
  cbn [then_].
  destruct (prepare_body body _ requestHeaders) as [prepared|e] eqn:Hbody; [|done].
  cbn [then_].
  destruct (upper _) as [name|e] eqn:Hname; [|done]. cbn [then_].
  destruct (AbortSignal_timeout _) as [[]|e]; [|done]. cbn [then_].
  intros [= <-].
  by exists url, method, headers, body, auth_type, auth_token, timeout,
    requestHeaders, prepared, name.
Qed.

(** X20.  The request of a webhook.  [fetch] is called with the method in
    upper case and with headers that always hold Content-Type and
    User-Agent.  A bearer token overrides an Authorization header of the
    configuration.  A GET or HEAD request, and a request without a body,
    carry no body.  A text sent with any other method is sent as it is;
    when it does not start with a brace it goes out as text/plain,
    whatever the configuration says, and otherwise with the Content-Type
    the custom headers leave. *)
Theorem webhook_request_prepared (config : value) (request : Request num)
    (method headers body auth_type auth_token : value) :
  prepare_request config = Normal (inr request) →
  get_property config "method" = Normal method →
  get_property config "headers" = Normal headers →
  get_property config "body" = Normal body →
  get_property config "auth_type" = Normal auth_type →
  get_property config "auth_token" = Normal auth_token →
  let sent := request_headers request in
  upper (or_default method (VStr "POST")) = Normal (request_method request)
  ∧ has_key "Content-Type" sent = true
  ∧ has_key "User-Agent" sent = true
  ∧ (truthy auth_token = true →
     is_string auth_type "bearer" = true →
     ∃ token,
       js_String auth_token = Normal token
       ∧ obj_get "Authorization" sent = Some (VStr ("Bearer " +:+ token)))
  ∧ (String.eqb (request_method request) "GET"
     || String.eqb (request_method request) "HEAD" = true →
     request_body request = VUndefined)
  ∧ (truthy body = false → request_body request = VUndefined)
  ∧ (∀ s,
       body = VStr s → s ≠ "" →
       String.eqb (request_method request) "GET"
       || String.eqb (request_method request) "HEAD" = false →
       request_body request = body
       ∧ obj_get "Content-Type" sent =
           if starts_with_brace s
           then obj_get "Content-Type"
                  (custom_headers (or_default headers (VObj [])))
           else Some (VStr "text/plain")).
Proof.
  intros Hrequest Hmethod Hheaders Hconfig_body Htype Htoken.
  destruct (prepare_request_inv _ _ Hrequest)
    as (url & method' & headers' & body' & auth_type' & auth_token' & timeout
        & requestHeaders & [requestBody sentHeaders] & name
        & _ & Hm & Hh & Hb & Hat & Hak & _ & _ & Hauth & Hbody & Hname & ->).
  rewrite Hmethod in Hm. rewrite Hheaders in Hh. rewrite Hconfig_body in Hb.
  rewrite Htype in Hat. rewrite Htoken in Hak. simplify_eq.
  cbn [request_method request_headers request_body fst snd].
  split_and!.
  - done.
  - eapply prepare_body_has_key; [done|].
    eapply authenticate_has_key; [done|]. by apply custom_headers_has_key.
  - eapply prepare_body_has_key; [done|].
    eapply authenticate_has_key; [done|]. by apply custom_headers_has_key.
  - intros Htruthy Hbearer.
    rewrite (prepare_body_other _ _ _ _ _ "Authorization" Hbody eq_refl).
    unfold authenticate in Hauth. rewrite Htruthy, Hbearer in Hauth.
    apply is_string_eq in Hbearer. rewrite Hbearer in Hauth.
    cbn [truthy andb negb] in Hauth.
    change (String.eqb "bearer" "") with false in Hauth. cbn [negb andb] in Hauth.
    destruct (js_String auth_token') as [token|e]; [|done].
    cbn [then_] in Hauth. injection Hauth as [= <-].
    exists token. split; [done|]. by rewrite obj_get_obj_set.
  - intros Hget. unfold prepare_body in Hbody. rewrite Hname in Hbody.
    cbn [then_] in Hbody.
    destruct (truthy body'); [|by simplify_eq].
    destruct (String.eqb name "GET"); cbn [negb andb] in Hbody; [by simplify_eq|].
    destruct (String.eqb name "HEAD"); cbn [negb andb] in Hbody;
      [by simplify_eq|done].
  - intros Hfalsy. unfold prepare_body in Hbody. rewrite Hfalsy in Hbody.
    by simplify_eq.
  - intros s Hs Hne Hget. unfold prepare_body in Hbody.
    rewrite Hname, Hs in Hbody. cbn [truthy then_] in Hbody.
    destruct (String.eqb_spec s "") as [|_]; [done|]. cbn [negb] in Hbody.
    apply orb_false_iff in Hget as [Hget Hhead]. rewrite Hget, Hhead in Hbody.
    cbn [negb andb] in Hbody. injection Hbody as [= <- <-]. split; [done|].
    destruct (starts_with_brace s).
    + unfold authenticate, then_ in Hauth.
      repeat case_match; simplify_eq; try done; by rewrite obj_get_obj_set.
    + by rewrite obj_get_obj_set.
Qed.

(** X21.  A webhook action without a URL, or whose request cannot be
    prepared, fails before anything is touched; otherwise the world is
    touched by one exchange, that of the prepared request.  The action
    succeeds exactly on an answer that is ok, whose status, headers and
    body it returns; an answer that is not ok gives a failure that
    carries, next to its error text, the status and the body. *)
Theorem webhook_exchanges_once (config : value) (context : WorkflowContext num)
    (w : World) :
  let r := (executeWebhookAction config context w).1 in
  let w' := (executeWebhookAction config context w).2 in
  (∀ url,
     get_property config "url" = Normal url → truthy url = false →
     r = Normal {| success := false;
                   data := VUndefined;
                   error := Some "Webhook URL is required" |}
     ∧ w' = w)
  ∧ (∀ e, prepare_request config = Throw e →
          r = Normal {| success := false;
                        data := VUndefined;
                        error := Some ("Webhook action failed: "
                                       +:+ match e with
                                           | ErrorObject message => message
                                           | ThrownValue => "Unknown error"
                                           end) |}
          ∧ w' = w)
  ∧ (w' = w
     ∨ ∃ request, prepare_request config = Normal (inr request)
                  ∧ w' = (exchange request w).2)
  ∧ (∀ request ok status statusText headers responseData w1,
       prepare_request config = Normal (inr request) →
       exchange request w =
         (Answered ok status statusText headers responseData, w1) →
       w' = w1
       ∧ (∃ answer, r = Normal answer ∧ success answer = ok)
       ∧ (ok = true →
          r = Normal {| success := true;
                        data := VObj [("status", status);
                                      ("statusText", statusText);
                                      ("headers", headers);
                                      ("response", responseData)];
                        error := None |})
       ∧ (∀ code text,
            ok = false →
            js_String status = Normal code → js_String statusText = Normal text →
            r = Normal {| success := false;
                          data := VObj [("status", status);
                                        ("statusText", statusText);
                                        ("response", responseData)];
                          error := Some ("Webhook request failed with status "
                                         +:+ code +:+ ": " +:+ text) |}))
  ∧ (∀ answer,
       r = Normal answer → success answer = true →
       ∃ request status statusText headers responseData,
         prepare_request config = Normal (inr request)
         ∧ exchange request w =
             (Answered true status statusText headers responseData, w')).
Proof.
  cbv zeta. unfold executeWebhookAction.
  destruct (prepare_request config) as [[r'|request]|e0] eqn:Hrequest.
  - pose proof (prepare_request_reports _ _ Hrequest) as ->.
    split_and!; try done. { by left. } cbn. by intros answer [= <-].
  - assert (∀ url, get_property config "url" = Normal url → truthy url = true)
      as Hurl.
    { intros url Hget.
      destruct (prepare_request_inv _ _ Hrequest)
        as (url' & ? & ? & ? & ? & ? & ? & ? & ? & ?
            & Hget' & _ & _ & _ & _ & _ & _ & ? & _).
      rewrite Hget in Hget'. by simplify_eq. }
    destruct (exchange request w)
      as [[ok status statusText headers responseData| |e0] w'] eqn:Hexchange.
    + destruct ok; cbn [negb fst snd].
      * split_and!; try done.
        { intros url Hget Hfalsy. by rewrite (Hurl _ Hget) in Hfalsy. }
        { right. exists request. by rewrite Hexchange. }
        { intros ??????? [= <-]. rewrite Hexchange. intros [= <- <- <- <- <- <-].
          split_and!; [done|by eexists|done|done]. }
        { intros answer [= <-] _. by exists request, status, statusText, headers,
            responseData. }
      * split_and!; try done.
        { intros url Hget Hfalsy. by rewrite (Hurl _ Hget) in Hfalsy. }
        { right. exists request. by rewrite Hexchange. }
        { intros ??????? [= <-]. rewrite Hexchange. intros [= <- <- <- <- <- <-].
          split_and!; [done| |done|].
          - destruct (js_String status) as [code|e]; cbn;
              [destruct (js_String statusText) as [text|e]; cbn|]; by eexists.
          - by intros code text _ -> ->. }
        { intros answer.
          destruct (js_String status) as [code|e]; cbn;
            [destruct (js_String statusText) as [text|e]; cbn|];
            by intros [= <-]. }
    + cbn [fst snd]. split_and!; try done.
      { intros url Hget Hfalsy. by rewrite (Hurl _ Hget) in Hfalsy. }
      { right. exists request. by rewrite Hexchange. }
      { intros ??????? [= <-]. by rewrite Hexchange. }
      { intros answer. unfold then_.
        repeat case_match; try done; by intros [= <-]. }
    + cbn [fst snd]. split_and!; try done.
      { intros url Hget Hfalsy. by rewrite (Hurl _ Hget) in Hfalsy. }
      { right. exists request. by rewrite Hexchange. }
      { intros ??????? [= <-]. by rewrite Hexchange. }
      { by intros answer [= <-]. }
  - cbn [fst snd]. split_and!; try done.
    + intros url Hget Hfalsy. exfalso. revert Hrequest. unfold prepare_request.
      assert (is_nullish config = false) as Hconfig by (by destruct config).
      rewrite (destructure_run _ _ _ Hconfig). cbn [then_]. rewrite Hget.
      destruct (get_property_normal config "method" Hconfig) as [? ->].
      destruct (get_property_normal config "headers" Hconfig) as [? ->].
      destruct (get_property_normal config "body" Hconfig) as [? ->].
      destruct (get_property_normal config "auth_type" Hconfig) as [? ->].
      destruct (get_property_normal config "auth_token" Hconfig) as [? ->].
      destruct (get_property_normal config "timeout" Hconfig) as [? ->].
      cbn [then_]. by rewrite Hfalsy.
    + intros e [= <-]. by destruct e0.
    + by left.
    + by intros answer [= <-].
Qed.

End webhook_properties.

Section database_properties.
Context `{Runtime num} `{Services num World Transporter} `{Database num World}.
Local Abbreviation value := (value num).
Local Abbreviation Store := (Store num World).
Import actionHandlers webhookHandler databaseHandler.

Lemma guarded_reports (text : string)
    (body : completion (Store → completion value * Store))
    (answer : value → completion (ActionResult num)) (st : Store) :
  (∀ record r, answer record = Normal r → success r = true) →
  success (guarded text body answer st).1 = false →
  is_Some (error (guarded text body answer st).1).
Proof.
  intros Hanswer. unfold guarded.
  destruct body as [query|e]; [|intros _; apply failing_reports].
  destruct (query st) as [[record|e] st']; [|intros _; apply failing_reports].
  destruct (answer record) as [r|e] eqn:Hr; [|intros _; apply failing_reports].
  cbn. by rewrite (Hanswer _ _ Hr).
Qed.

Lemma database_operation_reports (config : value)
    (operation : Store → ActionResult num * Store) (st : Store) :
  database_operation config = Normal (inr operation) →
  success (operation st).1 = false → is_Some (error (operation st).1).
Proof.
  unfold database_operation, then_.
  repeat case_match; try done; intros [= <-].
  - unfold executeInsert. repeat case_match; try done;
      apply guarded_reports; intros record r; unfold then_;
      by destruct (get_property record "id"); intros [= <-].
  - apply guarded_reports. by intros record r [= <-].
  - apply guarded_reports. intros record r. unfold then_.
    by destruct (get_property record "length"); intros [= <-].
  - apply guarded_reports. by intros record r [= <-].
Qed.

Lemma executeDatabaseAction_reports (config : value)
    (context : WorkflowContext num) (st : Store) :
  success (executeDatabaseAction config context st).1 = false →
  is_Some (error (executeDatabaseAction config context st).1).
Proof.
  unfold executeDatabaseAction.
  destruct (database_operation config) as [[r|operation]|e] eqn:Hoperation.
  - intros _. revert Hoperation. unfold database_operation, then_.
    repeat case_match; try done; intros [= <-]; apply failing_reports.
  - by eapply database_operation_reports.
  - intros _. apply failing_reports.
Qed.

End database_properties.

(* the contract of the handlers of the repository *)
Lemma repository_contract `{Runtime num}
    `{Services num World Transporter} `{Web num World} `{Database num World} :
  @handlers_report_errors num World repository_handlers.
Proof.
  unfold handlers_report_errors. cbn. split_and!.
  - apply on_services_reports.
    apply (returning_reports actionHandlers.executeEmailAction).
    apply executeEmailAction_reports.
  - apply on_services_reports, executeWebhookAction_reports.
  - apply (returning_reports databaseHandler.executeDatabaseAction).
    apply executeDatabaseAction_reports.
  - apply on_services_reports.
    apply (returning_reports actionHandlers.executeSMSAction).
    apply executeSMSAction_reports.
  - apply on_services_reports.
    apply (returning_reports actionHandlers.executeDelayAction).
    apply executeDelayAction_reports.
Qed.

(** X16.  The handlers of the repository, for mails, webhooks, the
    database, text messages and delays, give an error text whenever they
    report a failure. *)
Theorem repository_handlers_report_errors `{Runtime num}
    `{Services num World Transporter} `{Web num World} `{Database num World} :
  @handlers_report_errors num World repository_handlers.
Proof. apply repository_contract. Qed.

(** ** What a dispatch leaves of the database *)

Section repository_dispatch.
Context `{Runtime num} `{Services num World Transporter} `{Web num World}
  `{Database num World}.
Local Abbreviation value := (value num).
Local Abbreviation Store := (Store num World).
Import actionHandlers webhookHandler databaseHandler.

Lemma undisturbed_refl (st : Store) : undisturbed st st.
Proof. done. Qed.

Lemma undisturbed_trans (st st' st'' : Store) :
  undisturbed st st' → undisturbed st' st'' → undisturbed st st''.
Proof.
  intros (Hc & He & Hw) (Hc' & He' & Hw'). unfold undisturbed.
  by rewrite Hc', He', Hw'.
Qed.

Lemma on_services_undisturbed
    (handler : World → completion (ActionResult num) * World) (st : Store) :
  undisturbed st (on_services handler st).2.
Proof. unfold on_services. by destruct (handler (world st)). Qed.

Lemma guarded_undisturbed (text : string)
    (body : completion (Store → completion value * Store))
    (answer : value → completion (ActionResult num)) (st : Store) :
  (∀ query, body = Normal query → undisturbed st (query st).2) →
  undisturbed st (guarded text body answer st).2.
Proof.
  intros Hquery. unfold guarded. destruct body as [query|e]; [|done].
  specialize (Hquery query eq_refl).
  destruct (query st) as [[record|e] st']; [|done].
  by destruct (answer record).
Qed.

Lemma executeDatabaseAction_undisturbed (config : value)
    (context : WorkflowContext num) (st : Store) :
  quiet_database →
  undisturbed st (executeDatabaseAction config context st).2.
Proof.
  intros (Hcreate & Hlog & Huser & Hworkflow & Hdu & Hdw & Hfu & Hfw & Hfe).
  unfold executeDatabaseAction.
  destruct (database_operation config) as [[r|operation]|e] eqn:Hoperation;
    [done| |done].
  revert Hoperation. unfold database_operation, then_.
  repeat case_match; try done; intros [= <-].
  - unfold executeInsert. repeat case_match; try done;
      apply guarded_undisturbed; intros query; unfold then_;
      repeat case_match; try done; intros [= <-]; first [done|auto].
  - unfold executeUpdate. apply guarded_undisturbed. intros query. unfold then_.
    repeat case_match; try done; intros [= <-]; first [done|auto].
  - unfold executeFind. apply guarded_undisturbed. intros query [= <-].
    repeat case_match; first [done|auto].
  - unfold executeDelete. apply guarded_undisturbed. intros query. unfold then_.
    repeat case_match; try done; intros [= <-]; first [done|auto].
Qed.

Lemma call_undisturbed
    (handler : Store → completion (ActionResult num) * Store) (st : Store) :
  undisturbed st (handler st).2 → undisturbed st (call handler st).2.
Proof. unfold call. by destruct (handler st) as [r st']. Qed.

Lemma attempt_undisturbed {A} (query : M A) (st : Store) :
  (∀ st0, undisturbed st0 (query st0).2) →
  undisturbed st (attempt query st).2.
Proof.
  intros Hquery. unfold attempt.
  destruct (refusals st) as [|[] later]; [apply Hquery|done|].
  exact (Hquery (with_refusals later st)).
Qed.

(* a dispatch with the handlers of the repository *)
Lemma dispatch_undisturbed (st st' : Store) :
  quiet_database →
  dispatch (H0 := repository_handlers) st st' → undisturbed st st'.
Proof.
  intros Hquiet (action & context & <-).
  unfold executeAction, bind, lift.
  destruct (destructure_action action) as [[type config]|e]; [|done].
  cbn [fst snd].
  repeat case_match;
    try (apply call_undisturbed; cbn;
         first [apply on_services_undisturbed
               |unfold returning;
                pose proof (executeDatabaseAction_undisturbed config context st
                              Hquiet) as Hd;
                by destruct (databaseHandler.executeDatabaseAction config context st)]).
  - unfold executeNotificationAction, try_catch, bind, lift, ret.
    destruct (get_property config "message") as [message|e]; [|done].
    match goal with
    | |- context [prisma_notification_create ?row st] =>
        pose proof (attempt_undisturbed
                      (λ st0, (Normal (), with_notifications
                                            (notifications st0 ++ [row]) st0))
                      st (λ st0, undisturbed_refl _)) as Hn;
        unfold prisma_notification_create;
        by destruct (attempt _ st) as [[[]|e] st1]
    end.
  - done.
  - done.
Qed.

Lemma dispatches_undisturbed (st st' : Store) :
  quiet_database →
  dispatches (H0 := repository_handlers) st st' → undisturbed st st'.
Proof.
  intros Hquiet Hd. induction Hd as [st|st st1 st' Hone _ IH]; [done|].
  eapply undisturbed_trans; [by apply dispatch_undisturbed|done].
Qed.

Lemma find_workflow_keys (key : string) (table table' : list (Workflow num))
    (w : Workflow num) :
  map workflow_id table' = map workflow_id table →
  find_workflow key table = Some w →
  ∃ w', find_workflow key table' = Some w'.
Proof.
  unfold find_workflow. revert table'.
  induction table as [|a table IH]; intros [|b table'] Hkeys; try done.
  cbn in Hkeys. injection Hkeys as Hb Hkeys. cbn. rewrite Hb.
  destruct (String.eqb (workflow_id a) key); [by eauto|].
  by apply IH.
Qed.

Lemma repository_run_stays (execution_id : nat) :
  quiet_database → run_stays (H0 := repository_handlers) execution_id.
Proof.
  intros Hquiet st st' row w Hone.
  destruct (dispatch_undisturbed _ _ Hquiet Hone) as (_ & Hrows & Hkeys).
  unfold joined. rewrite Hrows.
  destruct (executions st !! execution_id) as [row'|]; [|done].
  cbn. intros Hw.
  destruct (find_workflow (execution_workflowId row') (workflows st)) as [w0|] eqn:Hfound;
    [|done].
  cbn in Hw. injection Hw as [= -> ->].
  destruct (find_workflow_keys _ _ _ _ Hkeys Hfound) as [w' ->]. by exists w'.
Qed.


End repository_dispatch.

(** ** The routes *)

Section route_properties.
Context `{Runtime num} `{Handlers num World}.
Import routes.
Local Abbreviation value := (value num).
Local Abbreviation Platform := (Store num World).

Lemma find_user_id (id : string) (table : list User) (user : User) :
  find_user id table = Some user → user_id user = id.
Proof.
  unfold find_user. induction table as [|u table IH]; cbn; [done|].
  destruct (String.eqb_spec (user_id u) id) as [Hid|_]; [|done].
  by intros [= <-].
Qed.

Lemma find_user_set_usage (id other : string) (usage : Z) (table : list User) :
  find_user other (set_usage id usage table) =
    if String.eqb id other
    then option_map (λ u, {| user_id := user_id u;
                             user_subscriptionId := user_subscriptionId u;
                             user_currentUsage := usage |}) (find_user other table)
    else find_user other table.
Proof.
  unfold find_user, set_usage. induction table as [|u table IH]; cbn [map find].
  { by destruct (String.eqb id other). }
  assert (user_id (if String.eqb (user_id u) id
                   then {| user_id := user_id u;
                           user_subscriptionId := user_subscriptionId u;
                           user_currentUsage := usage |}
                   else u) = user_id u) as ->.
  { by destruct (String.eqb (user_id u) id). }
  destruct (String.eqb_spec (user_id u) other) as [Ho|Ho]; [|apply IH].
  subst other. rewrite (String.eqb_sym (user_id u) id).
  by destruct (String.eqb id (user_id u)).
Qed.

Lemma find_listing_set_executed (id other : string) (count : Z) (now : nat)
    (table : list (string * Listing)) :
  find_listing other (set_executed id count now table) =
    if String.eqb id other
    then option_map (λ l, {| listing_isActive := listing_isActive l;
                             listing_triggerType := listing_triggerType l;
                             listing_executionCount := count;
                             listing_lastExecuted := Some now |})
           (find_listing other table)
    else find_listing other table.
Proof.
  unfold set_executed. induction table as [|[k l] table IH]; cbn [map find_listing].
  { by destruct (String.eqb id other). }
  cbn [fst snd].
  destruct (String.eqb_spec k id) as [Hk|Hk]; cbn [find_listing].
  - subst k. destruct (String.eqb_spec id other) as [Ho|Ho]; [done|apply IH].
  - destruct (String.eqb_spec k other) as [Ho|Ho]; [|apply IH].
    subst k. by destruct (String.eqb_spec id other).
Qed.

Lemma find_row_inv (id : string) (p : Platform) (w : Workflow num) (l : Listing) :
  find_row id p = Some (w, l) →
  find_workflow (workflow_id w) (workflows p) = Some w
  ∧ workflow_id w = id
  ∧ find_listing id (listings p) = Some l.
Proof.
  unfold find_row.
  destruct (find_workflow id (workflows p)) as [w'|] eqn:Hw; [|done].
  destruct (find_listing id (listings p)) as [l'|]; [|done].
  intros [= -> ->]. pose proof (find_workflow_id _ _ _ Hw) as Hid.
  by rewrite Hid.
Qed.

Lemma usageLimit_reached (user : User) :
  limit_reached (user_currentUsage user) (usageLimit (user_subscriptionId user))
    = true
  ↔ (user_subscriptionId user = Some "free" ∧ (100 ≤ user_currentUsage user)%Z)
    ∨ (user_subscriptionId user = Some "pro" ∧ (5000 ≤ user_currentUsage user)%Z).
Proof.
  unfold usageLimit, limit_reached.
  destruct (user_subscriptionId user) as [tier|]; [|by intuition].
  destruct (String.eqb_spec tier "free") as [->|Hfree].
  { rewrite Z.leb_le. split; [by left|]. by intros [[_ ?]|[[=] _]]. }
  destruct (String.eqb_spec tier "pro") as [->|Hpro].
  { rewrite Z.leb_le. split; [by right|]. by intros [[[=] _]|[_ ?]]. }
  split; [done|]. intros [[[= ->] _]|[[= ->] _]]; done.
Qed.

(* what the two updates after a run leave *)
Lemma updates_after_run (id userId : string) (usage count : Z) (p1 : Platform)
    (user1 : User) (w1 : Workflow num) (l1 : Listing) :
  find_user userId (users p1) = Some user1 →
  find_row id p1 = Some (w1, l1) →
  ∃ p2 p',
    update_usage userId usage p1 = Some p2
    ∧ update_executed id count p2 = (Some p', with_clock (S (clock p1)) p2)
    ∧ workflows p' = workflows p1 ∧ executions p' = executions p1
    ∧ notifications p' = notifications p1 ∧ world p' = world p1
    ∧ refusals p' = refusals p1
    ∧ clock p' = S (clock p1)
    ∧ find_user userId (users p') =
        Some {| user_id := userId;
                user_subscriptionId := user_subscriptionId user1;
                user_currentUsage := usage |}
    ∧ (∀ other, other ≠ userId →
         find_user other (users p') = find_user other (users p1))
    ∧ find_listing id (listings p') =
        Some {| listing_isActive := listing_isActive l1;
                listing_triggerType := listing_triggerType l1;
                listing_executionCount := count;
                listing_lastExecuted := Some (clock p1) |}
    ∧ (∀ other, other ≠ id →
         find_listing other (listings p') = find_listing other (listings p1)).
Proof.
  intros Huser Hrow. unfold update_usage, update_executed. rewrite Huser.
  eexists _, _. split; [done|].
  assert (find_row id (with_clock (S (clock p1))
                         (with_users (set_usage userId usage (users p1)) p1))
          = Some (w1, l1)) as Hrow' by exact Hrow.
  cbn [clock with_users]. rewrite Hrow'. split; [done|].
  destruct (find_row_inv _ _ _ _ Hrow) as (_ & _ & Hlisting).
  cbn [workflows executions notifications world refusals clock users listings
       with_listings with_clock with_users].
  split_and!; try done.
  - rewrite find_user_set_usage, String.eqb_refl, Huser. cbn.
    by rewrite (find_user_id _ _ _ Huser).
  - intros other Hother. rewrite find_user_set_usage.
    by destruct (String.eqb_spec userId other).
  - by rewrite find_listing_set_executed, String.eqb_refl, Hlisting.
  - intros other Hother. rewrite find_listing_set_executed.
    by destruct (String.eqb_spec id other).
Qed.

(** X22.  The usage limit of the manual route.  For a signed-in owner of
    an active workflow, the request is refused with 403, and nothing is
    touched, exactly when the owner is on the free tier with a usage of
    100 or more or on the pro tier with 5000 or more; every other
    subscription, a missing one included, is never limited. *)
Theorem usage_limit_enforced (id userId : string) (payload : option value)
    (p : Platform) (workflow : Workflow num) (listing : Listing) (user : User) :
  find_row id p = Some (workflow, listing) →
  workflow_userId workflow = userId →
  listing_isActive listing = true →
  find_user userId (users p) = Some user →
  execute id (Normal (Some userId)) payload p =
    (Refused 403 "Usage limit exceeded for your subscription tier", p)
  ↔ (user_subscriptionId user = Some "free" ∧ (100 ≤ user_currentUsage user)%Z)
    ∨ (user_subscriptionId user = Some "pro" ∧ (5000 ≤ user_currentUsage user)%Z).
Proof.
  intros Hrow Howner Hactive Huser. rewrite <- usageLimit_reached.
  unfold execute. rewrite Hrow, Howner, String.eqb_refl, Hactive, Huser.
  cbn [andb].
  destruct (limit_reached (user_currentUsage user)
              (usageLimit (user_subscriptionId user))); [done|].
  split; [|done].
  destruct (get_property (default (VObj []) payload) "data") as [data|e]; [|done].
  destruct (executeWorkflow workflow (if truthy data then data else VObj []) p)
    as [[result|e] p1]; [|done].
  destruct (update_usage userId (user_currentUsage user + 1) p1) as [p2|]; [|done].
  by destruct (update_executed id (listing_executionCount listing + 1) p2)
    as [[p3|] p3'].
Qed.

(** X23.  A run the manual route starts is accounted for, whether it
    ends completed or failed, as long as the run has left the owner and
    the workflow in the database: the route answers with the result of
    [executeWorkflow]; the usage of the owner and the execution count of
    the workflow become one higher than they were read before the run,
    whatever the run did to them; [lastExecuted] is the time read after
    the run; and no other user and no other workflow is touched.  When
    the run has removed the owner the route answers 500 and accounts for
    nothing. *)
Theorem execute_accounts_every_run (id userId : string) (payload : option value)
    (p p1 : Platform) (workflow : Workflow num) (listing : Listing) (user : User)
    (data : value) (result : RunResult num) :
  find_row id p = Some (workflow, listing) →
  workflow_userId workflow = userId →
  listing_isActive listing = true →
  find_user userId (users p) = Some user →
  limit_reached (user_currentUsage user) (usageLimit (user_subscriptionId user))
    = false →
  get_property (default (VObj []) payload) "data" = Normal data →
  executeWorkflow workflow (if truthy data then data else VObj []) p
    = (Normal result, p1) →
  (∀ user1 w1 l1,
     find_user userId (users p1) = Some user1 →
     find_row id p1 = Some (w1, l1) →
     ∃ p',
       execute id (Normal (Some userId)) payload p = (Executed result, p')
       ∧ workflows p' = workflows p1 ∧ executions p' = executions p1
       ∧ notifications p' = notifications p1 ∧ world p' = world p1
       ∧ clock p' = S (clock p1)
       ∧ find_user userId (users p') =
           Some {| user_id := userId;
                   user_subscriptionId := user_subscriptionId user1;
                   user_currentUsage := user_currentUsage user + 1 |}
       ∧ (∀ other, other ≠ userId →
            find_user other (users p') = find_user other (users p1))
       ∧ find_listing id (listings p') =
           Some {| listing_isActive := listing_isActive l1;
                   listing_triggerType := listing_triggerType l1;
                   listing_executionCount := listing_executionCount listing + 1;
                   listing_lastExecuted := Some (clock p1) |}
       ∧ (∀ other, other ≠ id →
            find_listing other (listings p') = find_listing other (listings p1)))
  ∧ (find_user userId (users p1) = None →
     execute id (Normal (Some userId)) payload p =
       (Refused 500 "Internal server error", p1)).
Proof.
  intros Hrow Howner Hactive Huser Hlimit Hdata Hrun.
  assert (execute id (Normal (Some userId)) payload p =
          match update_usage userId (user_currentUsage user + 1) p1 with
          | None => (internal_error, p1)
          | Some p2 =>
              match update_executed id (listing_executionCount listing + 1) p2 with
              | (None, p3) => (internal_error, p3)
              | (Some p3, _) => (Executed result, p3)
              end
          end) as ->.
  { unfold execute.
    by rewrite Hrow, Howner, String.eqb_refl, Hactive, Huser, Hlimit, Hdata, Hrun. }
  split.
  - intros user1 w1 l1 Huser1 Hrow1.
    destruct (updates_after_run id userId (user_currentUsage user + 1)
                (listing_executionCount listing + 1) p1 user1 w1 l1 Huser1 Hrow1)
      as (p2 & p' & -> & -> & Hrest).
    exists p'. by split_and!; try apply Hrest.
  - intros Hgone. unfold update_usage. by rewrite Hgone.
Qed.

(** X24.  A request the manual route refuses before the run, with 401,
    403 or 404, leaves the platform as it was; and a body that is JSON
    [null] is always refused, with nothing touched: [body.data] raises
    before the workflow is run. *)
Theorem execute_refusal_changes_nothing (id : string)
    (session : completion (option string)) (payload : option value)
    (p : Platform) :
  (∀ status error,
     (execute id session payload p).1 = Refused status error →
     status ≠ 500 →
     (execute id session payload p).2 = p)
  ∧ (is_nullish (default (VObj []) payload) = true →
     ∃ status error, execute id session payload p = (Refused status error, p)).
Proof.
  unfold execute. split.
  - intros status error.
    destruct session as [[userId|]|e]; [|done..].
    destruct (find_row id p) as [[workflow listing]|] eqn:Hrow; [|done].
    destruct (String.eqb (workflow_userId workflow) userId
              && listing_isActive listing); [|done].
    destruct (find_user userId (users p)) as [user|]; [|done].
    destruct (limit_reached (user_currentUsage user)
                (usageLimit (user_subscriptionId user))); [done|].
    destruct (get_property (default (VObj []) payload) "data") as [data|e]; [|done].
    destruct (executeWorkflow workflow (if truthy data then data else VObj []) p)
      as [[result|e] p1]; [|by intros [= <- _]].
    destruct (update_usage userId (user_currentUsage user + 1) p1) as [p2|];
      [|by intros [= <- _]].
    destruct (update_executed id (listing_executionCount listing + 1) p2)
      as [[p3|] p3']; [done|by intros [= <- _]].
  - intros Hnull.
    assert (∃ e, get_property (default (VObj []) payload) "data" = Throw e)
      as [e0 Hdata].
    { destruct (default (VObj []) payload); try done; cbn; eauto. }
    rewrite Hdata. repeat case_match; cbn; eauto.
Qed.

(* [{ ...v }] of an object, into an empty one, is the object *)
Lemma spread_object (entries : list (string * value)) :
  is_object entries = true →
  fold_left (λ o entry, obj_set (fst entry) (snd entry) o) entries [] = entries.
Proof.
  unfold is_object. induction entries as [|[k v] entries IH] using rev_ind; [done|].
  rewrite map_app. cbn [map fst]. intros [Hd Ho]%andb_true_iff.
  rewrite fold_left_app. cbn [fold_left fst snd].
  pose proof Hd as [Hdistinct _]%distinct_init.
  rewrite IH; [|by rewrite Hdistinct, (enumeration_order_init _ _ Ho)].
  by apply obj_set_last.
Qed.

(** X25.  The trigger data of a webhook run are what was posted, with
    [headers], [method] and [query] set from the request itself: a body
    cannot set them, and every other key of a posted object is handed on.
    They are always an object, so the default of [executeWorkflow] for
    missing trigger data never applies. *)
Theorem webhook_input_carries_request (inputData : value)
    (request : Incoming num) :
  let triggerData := with_request inputData request in
  get_property triggerData "headers" = Normal (header_entries request)
  ∧ get_property triggerData "method" = Normal (VStr (http_method request))
  ∧ get_property triggerData "query" = Normal (query_entries request)
  ∧ input triggerData = triggerData
  ∧ (∀ entries key,
       inputData = VObj entries → is_object entries = true →
       String.eqb "headers" key || String.eqb "method" key
       || String.eqb "query" key = false →
       get_property triggerData key = get_property inputData key).
Proof.
  cbv zeta. unfold with_request. split_and!.
  - cbn [get_property]. by rewrite !obj_get_obj_set.
  - cbn [get_property]. by rewrite !obj_get_obj_set.
  - cbn [get_property]. by rewrite !obj_get_obj_set.
  - done.
  - intros entries key -> Hobject Hkey.
    apply orb_false_iff in Hkey as [Hkey Hquery].
    apply orb_false_iff in Hkey as [Hheaders Hmethod].
    cbn [get_property spread_entries webhookHandler.own_entries].
    rewrite !obj_get_obj_set, Hquery, Hmethod, Hheaders.
    by rewrite (spread_object entries Hobject).
Qed.

(** X26.  The webhook route runs an active webhook workflow whatever the
    usage and the subscription of its owner.  When the run has left the
    owner and the workflow in the database, the route answers with the
    key the run returned, raises the usage the owner has after the run
    by one, and sets the execution count of the workflow to one more
    than it was read before the run. *)
Theorem webhook_runs_without_limit (workflowId : string) (request : Incoming num)
    (p p1 : Platform) (workflow w1 : Workflow num) (listing l1 : Listing)
    (owner1 : User) (inputData : value) (result : RunResult num) :
  find_row workflowId p = Some (workflow, listing) →
  listing_isActive listing = true →
  listing_triggerType listing = "webhook" →
  read_input request = Some inputData →
  executeWorkflow workflow (with_request inputData request) p
    = (Normal result, p1) →
  find_user (workflow_userId workflow) (users p1) = Some owner1 →
  find_row workflowId p1 = Some (w1, l1) →
  ∃ p',
    webhook workflowId request p = (Received (executionId result), p')
    ∧ workflows p' = workflows p1 ∧ executions p' = executions p1
    ∧ notifications p' = notifications p1 ∧ world p' = world p1
    ∧ clock p' = S (clock p1)
    ∧ find_user (workflow_userId workflow) (users p') =
        Some {| user_id := workflow_userId workflow;
                user_subscriptionId := user_subscriptionId owner1;
                user_currentUsage := user_currentUsage owner1 + 1 |}
    ∧ (∀ other, other ≠ workflow_userId workflow →
         find_user other (users p') = find_user other (users p1))
    ∧ find_listing workflowId (listings p') =
        Some {| listing_isActive := listing_isActive l1;
                listing_triggerType := listing_triggerType l1;
                listing_executionCount := listing_executionCount listing + 1;
                listing_lastExecuted := Some (clock p1) |}
    ∧ (∀ other, other ≠ workflowId →
         find_listing other (listings p') = find_listing other (listings p1)).
Proof.
  intros Hrow Hactive Htype Hinput Hrun Howner Hrow1.
  unfold webhook, increment_usage.
  rewrite Hrow, Hactive, Htype, Hinput, Hrun, Howner.
  change (true && String.eqb "webhook" "webhook") with true. cbv iota.
  destruct (updates_after_run workflowId (workflow_userId workflow)
              (user_currentUsage owner1 + 1) (listing_executionCount listing + 1)
              p1 owner1 w1 l1 Howner Hrow1)
    as (p2 & p' & -> & -> & Hrest).
  exists p'. by split_and!; try apply Hrest.
Qed.

End route_properties.

(** * The properties at work *)

Import Fixture.

Lemma rename_keys (key name : string) (table : list (Workflow Z)) :
  map workflow_id (map (rename key name) table) = map workflow_id table.
Proof.
  induction table as [|w table IH]; [done|]. cbn. rewrite IH. f_equal.
  unfold rename. by destruct (String.eqb (workflow_id w) key).
Qed.

(* the database of the sample leaves the runs alone *)
Lemma sample_quiet_database : quiet_database.
Proof.
  unfold quiet_database. split_and!; try done.
  - intros email name st. cbn. by destruct email.
  - intros id data st. cbn.
    destruct id; try done. destruct (get_property data "name") as [[]|]; try done.
    destruct (find_workflow _ (workflows st)); [|done].
    split_and!; try done. apply rename_keys.
Qed.

Lemma sample_run_stays (execution_id : nat) : run_stays execution_id.
Proof. apply repository_run_stays, sample_quiet_database. Qed.

Lemma sample_dispatches (st st' : Store Z Journal) :
  dispatches st st' → undisturbed st st'.
Proof. apply dispatches_undisturbed, sample_quiet_database. Qed.

Lemma sample_handlers_report_errors : handlers_report_errors.
Proof. apply repository_contract. Qed.

(** ** The claims at work *)



Lemma substituteVariables_structure_witness :
  substituteVariables
    (VObj [("7", VNum 3%Z); ("to", VStr "{{trigger.email}}");
           ("__proto__", VStr "{{trigger.email}}")]) context
    = VObj [("7", VNum 3%Z); ("to", VStr "a@b.com")].
Proof.
  destruct (substituteVariables_structure context []
              [("7", VNum 3%Z); ("to", VStr "{{trigger.email}}");
               ("__proto__", VStr "{{trigger.email}}")] eq_refl)
    as (_ & Hobj & _).
  etrans; [exact Hobj|]. reflexivity.
Defined.

(** C8, where the claim falls short.  A mapping that holds the key
    [__proto__], as [JSON.parse] gives it, loses that key. *)
Lemma proto_key_dropped :
  substituteVariables (VObj [("a", VNum 1%Z); ("__proto__", VStr "x")]) context
    = VObj [("a", VNum 1%Z)]
  ∧ map fst [("a", VNum 1%Z : value Z); ("__proto__", VStr "x")]
    ≠ map fst [("a", VNum 1%Z : value Z)].
Proof. split; [reflexivity|done]. Qed.

Lemma substituteVariables_empty_context_witness :
  substituteVariables
    (VObj [("to", VStr "{{trigger.email}}"); ("cc", VArr [VNull; VNum 1%Z])])
    (VObj [])
    = VObj [("to", VStr "{{trigger.email}}"); ("cc", VArr [VNull; VNum 1%Z])].
Proof. by apply substituteVariables_empty_context. Defined.

(** C9, where the claim falls short.  Against the empty context a token
    that names what every object inherits is replaced, and a key
    [__proto__] is lost. *)
Lemma empty_context_changes_value :
  substituteVariables (VStr "{{constructor}}") (VObj [])
    = VStr "function Object() { [native code] }"
  ∧ substituteVariables (VStr "{{constructor}}") (VObj []) ≠ VStr "{{constructor}}"
  ∧ substituteVariables (VObj [("__proto__", VNum 1%Z)]) (VObj []) = VObj []
  ∧ substituteVariables (VObj [("__proto__", VNum 1%Z)]) (VObj [])
    ≠ VObj [("__proto__", VNum 1%Z)].
Proof. split_and!; [reflexivity|by vm_compute|reflexivity|by vm_compute]. Qed.


Lemma unknown_trigger_rejected_witness :
  executeWorkflow with_unknown_trigger signup (store with_unknown_trigger) =
    (Normal {| result :=
                 {| success := false;
                    data := VUndefined;
                    error := Some "Unknown trigger type: carrier_pigeon" |};
               executionId := 0 |},
     {| workflows := [with_unknown_trigger];
        listings := listings (store with_unknown_trigger);
        users := users (store with_unknown_trigger);
        executions :=
          [{| execution_workflowId := "wf_1";
              execution_status := "failed";
              execution_startTime := 1000;
              execution_endTime := Some 1001;
              execution_input := signup;
              execution_output := VNull;
              execution_error := Some "Unknown trigger type: carrier_pigeon" |}];
        notifications :=
          [{| notification_userId := "user_1";
              notification_type := "workflow_error";
              notification_message :=
                VStr ("Workflow " +:+ String "034"%char "Welcome"
                      +:+ String "034"%char
                            " failed: Unknown trigger type: carrier_pigeon");
              notification_metadata := FailureMetadata "wf_1" 0 |}];
        clock := 1002;
        world := [];
        refusals := [] |}).
Proof.
  destruct (unknown_trigger_rejected with_unknown_trigger signup
              (store with_unknown_trigger) with_unknown_trigger
              [trigger "webhook"] [] (trigger "carrier_pigeon")
              (VStr "carrier_pigeon") eq_refl eq_refl eq_refl eq_refl eq_refl eq_refl)
    as (_ & Hknown & _).
  by destruct (Hknown "carrier_pigeon" eq_refl) as [_ Hrun].
Defined.

(** C5, where the claim falls short.  A trigger whose type has no text
    does not fail with "Unknown trigger type: <type>": the validation
    raises, and the run fails with the text of that error. *)
Lemma untyped_trigger_raises :
  recognised untyped = false
  ∧ validateTrigger (VObj [("type", untyped)])
      (seed (workflow [VObj [("type", untyped)]] []) signup)
    = Throw (ErrorObject "Cannot convert object to primitive value")
  ∧ (executeWorkflow (workflow [VObj [("type", untyped)]] []) signup
       (store (workflow [VObj [("type", untyped)]] []))).1 =
      Normal {| result :=
                  {| success := false;
                     data := VUndefined;
                     error := Some "Cannot convert object to primitive value" |};
                executionId := 0 |}.
Proof. split_and!; reflexivity. Qed.

Lemma terminal_state_exclusive_witness :
  ∃ before,
    dispatches (start with_unknown_action signup (store with_unknown_action))
      before
    ∧ executions
        (executeWorkflow with_unknown_action signup (store with_unknown_action)).2 =
        <[0 := {| execution_workflowId := "wf_1";
                  execution_status := "failed";
                  execution_startTime := 1000;
                  execution_endTime := Some (clock before);
                  execution_input := signup;
                  execution_output := VNull;
                  execution_error := Some "Unknown action type: carrier" |}]>
          (executions before)
    ∧ clock
        (executeWorkflow with_unknown_action signup (store with_unknown_action)).2
      = S (clock before).
Proof.
  destruct (terminal_state_exclusive with_unknown_action signup
              (store with_unknown_action) with_unknown_action eq_refl eq_refl
              (sample_run_stays 0) sample_handlers_report_errors)
    as (r & st' & before & status & cause & output
        & Hrun & Hd & Hrow & Hrows & Hclock & _).
  assert (st' = (executeWorkflow with_unknown_action signup
                   (store with_unknown_action)).2) as ->.
  { by rewrite Hrun. }
  pose proof (lookup_lt_Some _ _ _ Hrow) as Hlength.
  pose proof (f_equal (λ rows, rows !! length (executions (store with_unknown_action)))
                Hrows) as Hlookup.
  cbv beta in Hlookup. rewrite list_lookup_insert_eq in Hlookup by exact Hlength.
  assert (executions
            (executeWorkflow with_unknown_action signup
               (store with_unknown_action)).2
            !! length (executions (store with_unknown_action)) =
          Some {| execution_workflowId := "wf_1";
                  execution_status := "failed";
                  execution_startTime := 1000;
                  execution_endTime := Some 1001;
                  execution_input := signup;
                  execution_output := VNull;
                  execution_error := Some "Unknown action type: carrier" |})
    as Hstored by reflexivity.
  rewrite Hstored in Hlookup. injection Hlookup as [= Hstatus Htime Houtput Hcause].
  exists before. split_and!; [exact Hd| |exact Hclock].
  rewrite Hrows, <- Hstatus, <- Houtput, <- Hcause. reflexivity.
Defined.

(** C3, where the claim falls short.  The database answers the update
    of the row and refuses the notification that follows it: the run,
    already marked failed, is marked failed a second time, at a later
    time and with another error.  No single write after the dispatches
    of the actions accounts for the state the run leaves. *)
Lemma terminal_write_repeated :
  (updateExecutionStatus 0 "failed" (Some "Unknown action type: carrier") VUndefined
     (run_prefix with_unknown_action signup 0 [greeting]
        (start with_unknown_action signup (faltering with_unknown_action))).2).1
    = Throw (ErrorObject "Can't reach database server")
  ∧ executions
      (updateExecutionStatus 0 "failed" (Some "Unknown action type: carrier")
         VUndefined
         (run_prefix with_unknown_action signup 0 [greeting]
            (start with_unknown_action signup (faltering with_unknown_action))).2).2
    = [{| execution_workflowId := "wf_1";
          execution_status := "failed";
          execution_startTime := 1000;
          execution_endTime := Some 1001;
          execution_input := signup;
          execution_output := VNull;
          execution_error := Some "Unknown action type: carrier" |}]
  ∧ executions
      (executeWorkflow with_unknown_action signup (faltering with_unknown_action)).2
    = [{| execution_workflowId := "wf_1";
          execution_status := "failed";
          execution_startTime := 1000;
          execution_endTime := Some 1002;
          execution_input := signup;
          execution_output := VNull;
          execution_error := Some "Action 2 error: Can't reach database server" |}]
  ∧ ¬ ∃ before,
        dispatches
          (start with_unknown_action signup (faltering with_unknown_action)) before
        ∧ clock (executeWorkflow with_unknown_action signup
                   (faltering with_unknown_action)).2 = S (clock before).
Proof.
  split_and!; [reflexivity..|].
  intros (before & Hd & Hclock).
  destruct (sample_dispatches _ _ Hd) as (Hkept & _).
  assert (clock (executeWorkflow with_unknown_action signup
                   (faltering with_unknown_action)).2 = 1003) as Hfinal
    by reflexivity.
  assert (clock (start with_unknown_action signup (faltering with_unknown_action))
          = 1001) as Hstart by reflexivity.
  rewrite Hkept, Hfinal, Hstart in Hclock. lia.
Qed.


Lemma unknown_action_type_fails_witness :
  executeWorkflow with_unknown_action signup (store with_unknown_action) =
    (Normal {| result :=
                 {| success := false;
                    data := VUndefined;
                    error := Some "Action 2 failed: Unknown action type: carrier" |};
               executionId := 0 |},
     {| workflows := [with_unknown_action];
        listings := listings (store with_unknown_action);
        users := users (store with_unknown_action);
        executions :=
          [{| execution_workflowId := "wf_1";
              execution_status := "failed";
              execution_startTime := 1000;
              execution_endTime := Some 1001;
              execution_input := signup;
              execution_output := VNull;
              execution_error := Some "Unknown action type: carrier" |}];
        notifications :=
          [{| notification_userId := "user_1";
              notification_type := "workflow_error";
              notification_message :=
                VStr ("Workflow " +:+ String "034"%char "Welcome"
                      +:+ String "034"%char " failed: Unknown action type: carrier");
              notification_metadata := FailureMetadata "wf_1" 0 |}];
        clock := 1002;
        world :=
          [("mail",
            VObj [("from", VStr "noreply@minizapier.com");
                  ("to", VStr "a@b.com");
                  ("subject", VStr "Hello");
                  ("text", VStr "Welcome aboard");
                  ("html", VStr "<p>Welcome aboard</p>")])];
        refusals := [] |}).
Proof.
  edestruct (unknown_action_type_fails with_unknown_action signup
               (store with_unknown_action) with_unknown_action
               [greeting] [notice] (action "carrier" [])
               (VStr "carrier") "carrier")
    as (_ & _ & Hrun);
    [reflexivity|reflexivity|reflexivity|by vm_compute|by vm_compute
    |reflexivity|reflexivity|reflexivity|].
  etrans; [exact Hrun|]. reflexivity.
Defined.

(** C7, where the claim falls short.  On an action whose type has no
    text the dispatcher raises instead of returning "Unknown action
    type: <type>". *)
Lemma untyped_action_raises :
  registered untyped = false
  ∧ executeAction (VObj [("type", untyped); ("config", VObj [])])
      (seed welcome signup) (store welcome)
    = (Throw (ErrorObject "Cannot convert object to primitive value"),
       store welcome).
Proof. split; reflexivity. Qed.

Lemma failing_action_ends_run_witness :
  ∃ st',
    executeWorkflow with_unknown_action signup (store with_unknown_action)
      = (Normal {| result :=
                     {| success := false;
                        data := VUndefined;
                        error := Some "Action 2 failed: Unknown action type: carrier" |};
                   executionId := 0 |},
         st')
    ∧ world st' =
        [("mail",
          VObj [("from", VStr "noreply@minizapier.com");
                ("to", VStr "a@b.com");
                ("subject", VStr "Hello");
                ("text", VStr "Welcome aboard");
                ("html", VStr "<p>Welcome aboard</p>")])].
Proof.
  edestruct (failing_action_ends_run with_unknown_action signup
               (store with_unknown_action) with_unknown_action
               [greeting] [] [notice] (action "carrier" []))
    as (Hrun & _);
    [reflexivity|reflexivity|reflexivity|by vm_compute|by vm_compute|].
  eexists. split; [exact Hrun|reflexivity].
Defined.

(** The examples of path resolution the specification gives. *)
Example path_resolution :
  substituteInString "{{trigger.email}}, {{trigger.tags.1}}, {{trigger.missing}}"
    context
  = "a@b.com, y, {{trigger.missing}}".
Proof. reflexivity. Qed.

(** A list of entries that is not the enumeration of an object comes back
    reordered: assignment puts the array index first. *)
Example entries_out_of_order :
  substituteVariables (VObj [("to", VNull); ("7", VNull)]) context
  = VObj [("7", VNull); ("to", VNull)].
Proof. reflexivity. Qed.

(** The fault path: the dispatcher raises on the hole in the action list,
    and the text "Action 1 error: ..." is both returned and stored. *)
Example fault_text_returned_and_stored :
  ∃ text st',
    executeWorkflow with_null_action signup (store with_null_action)
      = (Normal {| result :=
                     {| success := false;
                        data := VUndefined;
                        error := Some ("Action 1 error: " +:+ text) |};
                   executionId := 0 |},
         st')
    ∧ execution_error <$> executions st' !! 0
        = Some (Some ("Action 1 error: " +:+ text)).
Proof. eexists _, _. split; by vm_compute. Qed.

(** C1, where the code falls short.  The action in second place fails;
    [executeWorkflow] returns the text "Action 2 failed: ...", but the run
    is marked failed with the handler's text alone. *)
Theorem failed_action_text_not_stored :
  ∃ st',
    executeWorkflow with_unknown_action signup (store with_unknown_action)
      = (Normal {| result :=
                     {| success := false;
                        data := VUndefined;
                        error := Some "Action 2 failed: Unknown action type: carrier" |};
                   executionId := 0 |},
         st')
    ∧ execution_error <$> executions st' !! 0
        = Some (Some "Unknown action type: carrier").
Proof. eexists. split; by vm_compute. Qed.

(** ** The further properties at work *)

Lemma substituteVariables_plain_witness :
  substituteVariables
    (VObj [("to", VStr "a{b}}"); ("cc", VArr [VNum 1%Z; VStr "{ {trigger.email}}"])])
    context
  = VObj [("to", VStr "a{b}}"); ("cc", VArr [VNum 1%Z; VStr "{ {trigger.email}}"])].
Proof. by apply substituteVariables_plain. Defined.

Lemma substituteVariables_same_shape_witness :
  same_shape greeting (substituteVariables greeting context)
  ∧ well_formed (substituteVariables greeting context) = true
  ∧ ordinary (substituteVariables greeting context) = true.
Proof. by apply substituteVariables_same_shape. Defined.


Lemma step_names_unresolved_witness :
  substituteInString "{{trigger.email}}!" (context_value (seed welcome signup))
  = "{{trigger.email}}!".
Proof.
  destruct (step_names_unresolved (seed welcome signup) "trigger.email" "!"
              ltac:(done) eq_refl eq_refl) as [_ Heq].
  etrans; [exact Heq|]. reflexivity.
Defined.

Lemma action_result_reaches_later_steps_witness :
  ∃ context st3,
    run_prefix welcome (input signup) 0 [greeting; notice]
      (start welcome signup (store welcome)) = (Normal (Continue context), st3)
    ∧ getNestedValue (context_value context) "variables.action_0_result.to"
      = Normal (VStr "a@b.com").
Proof.
  do 2 eexists. split; [by vm_compute|].
  edestruct (action_result_reaches_later_steps welcome signup (store welcome)
               welcome [] [notice] [] greeting) as (_ & _ & Hq);
    [reflexivity|reflexivity|by vm_compute..|].
  destruct (Hq "to") as [Hv _]. etrans; [exact Hv|]. reflexivity.
Defined.

Lemma trigger_data_reachable_witness :
  ∃ context st1,
    run_prefix welcome (input signup) 0 [greeting]
      (start welcome signup (store welcome)) = (Normal (Continue context), st1)
    ∧ getNestedValue (context_value context) "variables.trigger.tags.1"
      = Normal (VStr "y").
Proof.
  do 2 eexists. split; [by vm_compute|].
  edestruct (trigger_data_reachable welcome signup (store welcome) welcome
               [greeting] [notice]) as (_ & _ & Hq);
    [reflexivity|reflexivity|by vm_compute|].
  destruct (Hq "tags.1") as [Hv _]. etrans; [exact Hv|]. reflexivity.
Defined.

Lemma null_trigger_fails_run_witness :
  (executeWorkflow with_null_trigger signup (store with_null_trigger)).1 =
    Normal {| result :=
                {| success := false;
                   data := VUndefined;
                   error := Some "Cannot read properties of null (reading 'type')" |};
              executionId := 0 |}
  ∧ notifications
      (executeWorkflow with_null_trigger signup (store with_null_trigger)).2 =
      [{| notification_userId := "user_1";
          notification_type := "workflow_error";
          notification_message :=
            VStr ("Workflow " +:+ String "034"%char "Welcome"
                  +:+ String "034"%char
                        " failed: Cannot read properties of null (reading 'type')");
          notification_metadata := FailureMetadata "wf_1" 0 |}]
  ∧ world (executeWorkflow with_null_trigger signup (store with_null_trigger)).2
    = [].
Proof.
  destruct (null_trigger_fails_run with_null_trigger signup
              (store with_null_trigger) with_null_trigger
              [trigger "manual"] [trigger "webhook"] VNull
              eq_refl eq_refl eq_refl eq_refl eq_refl) as (_ & Hrun).
  rewrite Hrun. split_and!; reflexivity.
Defined.

Lemma completed_run_output_witness :
  ∃ results,
    length results = 2
    ∧ (executeWorkflow welcome signup (store welcome)).1 =
        Normal {| result :=
                    {| success := true;
                       data :=
                         VObj ([("trigger_webhook", signup);
                                ("trigger_manual", signup)]
                               ++ action_entries results);
                       error := None |};
                  executionId := 0 |}
    ∧ notifications (executeWorkflow welcome signup (store welcome)).2 = [].
Proof.
  edestruct (completed_run_output welcome signup (store welcome) welcome)
    as (results & Hlength & Hrun);
    [reflexivity|reflexivity|by vm_compute|by vm_compute|].
  exists results. rewrite Hrun. split_and!; [exact Hlength|reflexivity..].
Defined.


Lemma creation_outside_try_witness :
  ∃ st',
    executeWorkflow welcome signup orphaned
      = (Throw (ErrorObject "Foreign key constraint failed"), st')
    ∧ executions st' = [] ∧ notifications st' = [].
Proof.
  destruct (creation_outside_try welcome signup orphaned (or_introl eq_refl))
    as (st' & Hrun & _ & Hrows & Hnotes & _).
  exists st'. split_and!; done.
Defined.

Lemma executeAction_raises_witness :
  js_String untyped = Throw (ErrorObject "Cannot convert object to primitive value").
Proof.
  assert (executeAction (VObj [("type", untyped); ("config", VObj [])])
            (seed welcome signup) (store welcome) =
          (Throw (ErrorObject "Cannot convert object to primitive value"),
           store welcome)) as Hrun by reflexivity.
  destruct (executeAction_raises _ _ _ _ _ Hrun)
    as [(Hnull & _)|[(type & Htype & _ & Hname & _)|(type & config & Htype & _ & Hcases)]].
  - done.
  - by injection Htype as [= <-].
  - injection Htype as [= <-].
    by destruct Hcases as [[? _]|[[? _]|[[? _]|[[? _]|[? _]]]]].
Defined.

Lemma null_action_faults_run_witness :
  (executeWorkflow with_null_action signup (store with_null_action)).1 =
    Normal {| result :=
                {| success := false;
                   data := VUndefined;
                   error :=
                     Some "Action 1 error: Cannot destructure property 'type' of 'action' as it is null." |};
              executionId := 0 |}
  ∧ execution_error
      <$> executions
            (executeWorkflow with_null_action signup (store with_null_action)).2
          !! 0
    = Some (Some "Action 1 error: Cannot destructure property 'type' of 'action' as it is null.").
Proof.
  eassert (executeWorkflow with_null_action signup (store with_null_action) = _)
    as Hrun.
  { eapply (null_action_faults_run with_null_action signup
              (store with_null_action) with_null_action [] [] VNull);
      [reflexivity|reflexivity|reflexivity|by vm_compute|by vm_compute|reflexivity]. }
  rewrite Hrun. split; reflexivity.
Defined.

Lemma join_split_round_trip_witness :
  variableFunctions.join (VArr [VStr "trigger"; VStr "tags"; VStr "1"] : value Z)
    (Some ".") = Normal "trigger.tags.1"
  ∧ split_dots "trigger.tags.1" = ["trigger"; "tags"; "1"].
Proof.
  destruct (join_split_round_trip (num := Z) "" ["trigger"; "tags"; "1"])
    as [_ Hkeys].
  destruct (Hkeys ltac:(done) eq_refl) as (joined & Hjoined & Hsplit).
  assert (joined = "trigger.tags.1") as -> by (by injection Hjoined).
  by split.
Defined.

Lemma default_chain_witness :
  variableFunctions.default (VStr "x" : value Z) VNull = VStr "x".
Proof.
  destruct (default_chain (VStr "x" : value Z) VNull VNull) as [Hkept _].
  by apply Hkept.
Defined.

Lemma first_last_ends_witness :
  variableFunctions.last (VArr [VStr "x"; VStr "y"] : value Z) = VStr "y".
Proof.
  by destruct (first_last_ends [VStr "x" : value Z] (VStr "y")) as (_ & Hlast & _).
Defined.

Lemma repository_handlers_report_errors_witness :
  reports_error (executeDatabaseAction (num := Z) (World := Journal)).
Proof.
  by destruct (repository_handlers_report_errors (num := Z) (World := Journal))
    as (_ & _ & Hdatabase & _).
Defined.

Lemma text_message_sent_when_valid_witness :
  actionHandlers.executeSMSAction text_message (seed welcome signup) [] =
    ({| success := true;
        data := VObj [("provider", VStr "twilio");
                      ("messageId", VStr "SM1762041600000k3j9x2m1a");
                      ("to", VStr "+15550123");
                      ("from", VStr "+15550100");
                      ("status", VStr "sent");
                      ("dateSent", VStr "2025-11-02T00:00:00.000Z")];
        error := None |},
     [("twilio", VNull)]).
Proof.
  destruct (text_message_sent_when_valid text_message (seed welcome signup) [])
    as [_ Hsent].
  destruct (Hsent eq_refl)
    as (to & message & from & stored & credentials & phoneNumber
        & _ & Hto & _ & _ & _ & Hfrom & Hstored & Hdecrypt & Hnumber & _
        & Hworld & Hr).
  injection Hto as [= <-]. injection Hfrom as [= <-].
  injection Hstored as [= <-]. injection Hdecrypt as [= <-].
  injection Hnumber as [= <-].
  rewrite (surjective_pairing (actionHandlers.executeSMSAction _ _ _)), Hr, Hworld.
  reflexivity.
Defined.

Lemma mail_sent_when_valid_witness :
  actionHandlers.executeEmailAction mail (seed welcome signup) [] =
    ({| success := true;
        data := VObj [("messageId", VStr "<1@minizapier.com>");
                      ("provider", VStr "gmail");
                      ("to", VArr [VStr "a@b.com"; VStr "c@d.com"]);
                      ("subject", VStr "Hello")];
        error := None |},
     [("mail",
       VObj [("from", VStr "noreply@minizapier.com");
             ("to", VStr "a@b.com, c@d.com");
             ("subject", VStr "Hello");
             ("text", VStr "Welcome aboard");
             ("html", VStr "<p>Welcome aboard</p>")])]).
Proof.
  destruct (mail_sent_when_valid mail (seed welcome signup) []) as [_ Hsent].
  destruct (Hsent eq_refl)
    as (provider & to & subject & body & from & transporter & recipients & html
        & result & messageId
        & Hprovider & Hto & Hsubject & Hbody & Hfrom & _ & Hsend & Hid & Hr).
  injection Hprovider as [= <-]. injection Hto as [= <-].
  injection Hsubject as [= <-]. injection Hsend as [= <- _].
  injection Hid as [= <-].
  rewrite (surjective_pairing (actionHandlers.executeEmailAction _ _ _)), Hr.
  f_equal.
Defined.

Lemma delay_fails_on_no_config_witness :
  actionHandlers.executeDelayAction (VObj [("duration", untyped)])
    (seed welcome signup) ([] : Journal) =
    ({| success := false;
        data := VUndefined;
        error := Some "Delay action failed: Cannot convert object to primitive value" |},
     []).
Proof.
  destruct (delay_fails_on_no_config (VObj [("duration", untyped)])
              (seed welcome signup) ([] : Journal)) as (_ & Hduration).
  destruct (Hduration untyped eq_refl) as (_ & _ & Hfails).
  exact (Hfails "Cannot convert object to primitive value" eq_refl eq_refl).
Defined.

Lemma webhook_request_prepared_witness :
  ∃ request,
    webhookHandler.prepare_request hook = Normal (inr request)
    ∧ obj_get "Authorization" (request_headers request)
      = Some (VStr "Bearer t0ken")
    ∧ obj_get "Content-Type" (request_headers request)
      = Some (VStr "text/plain").
Proof.
  eexists. split; [by vm_compute|].
  edestruct (webhook_request_prepared hook)
    as (_ & _ & _ & Hauth & _ & _ & Htext);
    [by vm_compute|reflexivity..|].
  split.
  - destruct (Hauth eq_refl eq_refl) as (token & Htoken & Hheader).
    assert (token = "t0ken") as -> by (by injection Htoken). exact Hheader.
  - by destruct (Htext "hello" eq_refl ltac:(done) eq_refl) as [_ Htype].
Defined.

Lemma webhook_exchanges_once_witness :
  webhookHandler.executeWebhookAction (VObj [("method", VStr "GET")])
    (seed welcome signup) ([] : Journal) =
    (Normal {| success := false;
               data := VUndefined;
               error := Some "Webhook URL is required" |},
     []).
Proof.
  destruct (webhook_exchanges_once (VObj [("method", VStr "GET")])
              (seed welcome signup) ([] : Journal)) as [Hrefused _].
  destruct (Hrefused VUndefined eq_refl eq_refl) as [Hr Hw].
  rewrite (surjective_pairing (webhookHandler.executeWebhookAction _ _ _)), Hr, Hw.
  reflexivity.
Defined.

Lemma usage_limit_enforced_witness :
  routes.execute "wf_1" (Normal (Some "user_1")) None (platform welcome 100)
  = (routes.Refused 403 "Usage limit exceeded for your subscription tier",
     platform welcome 100).
Proof.
  apply (usage_limit_enforced "wf_1" "user_1" None (platform welcome 100)
           welcome _ _ eq_refl eq_refl eq_refl eq_refl).
  left. by split.
Defined.

Lemma execute_accounts_every_run_witness :
  ∃ outcome p',
    routes.execute "wf_1" (Normal (Some "user_1"))
      (Some (VObj [("data", signup)])) (platform with_unknown_action 99)
    = (routes.Executed outcome, p')
    ∧ success (result outcome) = false
    ∧ routes.find_user "user_1" (users p') =
        Some {| user_id := "user_1";
                user_subscriptionId := Some "free";
                user_currentUsage := 100 |}
    ∧ routes.find_listing "wf_1" (listings p') =
        Some {| listing_isActive := true;
                listing_triggerType := "webhook";
                listing_executionCount := 8;
                listing_lastExecuted := Some 1002 |}.
Proof.
  edestruct (execute_accounts_every_run "wf_1" "user_1"
               (Some (VObj [("data", signup)]))
               (platform with_unknown_action 99))
    as (Haccounted & _);
    [reflexivity|reflexivity|reflexivity|reflexivity|reflexivity|reflexivity
    |by vm_compute|].
  edestruct Haccounted as (p' & Hexecute & _ & _ & _ & _ & _ & Husage & _ & Hcount & _);
    [reflexivity|reflexivity|].
  eexists _, p'. split_and!; [exact Hexecute|reflexivity|exact Husage|exact Hcount].
Defined.

Lemma execute_refusal_changes_nothing_witness :
  (routes.execute "wf_1" (Normal None) (Some VNull) (platform welcome 0)).2
  = platform welcome 0.
Proof.
  destruct (execute_refusal_changes_nothing "wf_1" (Normal None) (Some VNull)
              (platform welcome 0)) as [Hrefused _].
  exact (Hrefused 401 "Unauthorized" eq_refl ltac:(done)).
Defined.

Lemma webhook_input_carries_request_witness :
  get_property (routes.with_request (VObj [("method", VStr "spoofed")]) incoming)
    "method"
  = Normal (VStr "POST").
Proof.
  by destruct (webhook_input_carries_request
                 (VObj [("method", VStr "spoofed")]) incoming)
    as (_ & Hmethod & _).
Defined.

Lemma webhook_runs_without_limit_witness :
  ∃ p',
    routes.webhook "wf_1" incoming (platform welcome 5000)
    = (routes.Received 0, p')
    ∧ routes.find_user "user_1" (users p') =
        Some {| user_id := "user_1";
                user_subscriptionId := Some "free";
                user_currentUsage := 5001 |}.
Proof.
  edestruct (webhook_runs_without_limit "wf_1" incoming (platform welcome 5000))
    as (p' & Hwebhook & _ & _ & _ & _ & _ & Husage & _);
    [reflexivity|reflexivity|reflexivity|reflexivity|by vm_compute
    |reflexivity|reflexivity|].
  exists p'. split; [exact Hwebhook|exact Husage].
Defined.
